(** * Download speed tester

    A model of the two Python programs of the repository:

    - [download_speed_tester.py]: class [DownloadSpeedTester], one test run
      ([run_test]) with its download threads ([download_chunk]) and its
      sampling thread ([monitor_performance]);
    - [自动化测试工具.py]: class [AdvancedDownloadTester], the same run as a
      function returning a result dictionary ([single_test]) and the
      concurrency sweep built on it ([find_max_concurrent_connections]).

    Conventions of the model.

    - Python [int] is [Z].
    - Inside one run a Python [float] is modelled by the exact rational
      value of the expression that computes it ([Q]; rounding is not
      modelled there, no branch of a run depends on it beyond the sign
      tests that are exact).  The sweep branches on comparisons of floats,
      so there every float is a binary64 number ([spec_float], the
      specification of IEEE 754 arithmetic of the Standard Library) and
      every operation is the rounded one; the literal [0.1] is the double
      nearest to one tenth.
    - A raised exception is a value of [res]; a division is the checked
      [py_div], which raises [ZeroDivisionError] on a zero divisor.
    - The threads of one run are an interleaving of atomic steps chosen by a
      schedule (a list of [event]s).  Every value that comes from outside
      the program (clock readings, received chunks, the outcome of an HTTP
      request or of [Thread.start]) is carried by the event.  Nothing joins
      the sampler, so each access of the caller to a deque that the sampler
      appends to is a step of its own.
    - A [while] loop whose number of iterations is not bounded by its input
      takes a fuel argument; [None] means that the fuel ran out (or that the
      schedule of a sub-run ends before the run does). *)

From Stdlib Require Import ZArith QArith Qminmax Qround List Bool Lia.
From Stdlib Require Import Floats.SpecFloat.
From stdpp Require Import base list.
Import ListNotations.

(** ** Python values and exceptions *)

(** The exceptions that the modelled statements raise; each is a subclass
    of [Exception]. *)
Inductive exn : Type :=
| ZeroDivisionError
| ValueError
| RuntimeError
| OverflowError.

Inductive res (A : Type) : Type :=
| Ok (a : A)
| Raise (e : exn).
Arguments Ok {A} a.
Arguments Raise {A} e.

Definition bind {A B : Type} (c : res A) (k : A -> res B) : res B :=
  match c with
  | Ok a => k a
  | Raise e => Raise e
  end.

Notation "x <- c ;; k" := (bind c (fun x => k))
  (at level 63, c at next level, right associativity).

(** [x / y] on numbers. *)
Definition py_div (x y : Q) : res Q :=
  if Qeq_bool y 0 then Raise ZeroDivisionError else Ok (x / y)%Q.

(** [(1024 * 1024)] *)
Definition MiB : Q := (1024 * 1024)%Q.

(** [a > b] and [a >= b] on numbers. *)
Definition py_gt (a b : Q) : bool := negb (Qle_bool a b).
Definition py_ge (a b : Q) : bool := Qle_bool b a.

(** [max(l)] and [min(l)]: the first greatest (least) element;
    [ValueError] on an empty list. *)
Definition py_max (l : list Q) : res Q :=
  match l with
  | [] => Raise ValueError
  | x :: t => Ok (fold_left (fun m y => if py_gt y m then y else m) t x)
  end.

Definition py_min (l : list Q) : res Q :=
  match l with
  | [] => Raise ValueError
  | x :: t => Ok (fold_left (fun m y => if py_gt m y then y else m) t x)
  end.

(** [sum(l)] *)
Definition py_sum (l : list Q) : Q := fold_left Qplus l 0%Q.

(** Truth value of the result of [measure_latency]: [None] and [0.0] are
    both false. *)
Definition latency_truthy (latency : option Q) : bool :=
  match latency with
  | Some l => negb (Qeq_bool l 0)
  | None => false
  end.

(** *** [time.sleep] *)

(** The number of nanoseconds that [time.sleep(secs)] waits for: [secs]
    times [10 ** 9], rounded away from zero. *)
Definition sleep_nanoseconds (secs : Q) : Z :=
  let ns := (secs * inject_Z (10 ^ 9))%Q in
  if Qle_bool 0 ns then Qceiling ns else Qfloor ns.

(** [time.sleep(secs)]: the number of nanoseconds must fit a signed 64-bit
    integer, [OverflowError] otherwise; after that conversion a negative
    length is refused with [ValueError]. *)
Definition time_sleep (secs : Q) : res unit :=
  let ns := sleep_nanoseconds secs in
  if ((ns <? - 2 ^ 63) || (2 ^ 63 <=? ns))%Z then Raise OverflowError
  else if (ns <? 0)%Z then Raise ValueError
  else Ok tt.

(** *** Floats as the sweep sees them: binary64 *)

Definition float : Type := spec_float.

Definition prec : Z := 53.
Definition emax : Z := 1024.

Definition fsub : float -> float -> float := SFsub prec emax.
Definition fmul : float -> float -> float := SFmul prec emax.
Definition fdiv : float -> float -> float := SFdiv prec emax.

(** [a > b], [a >= b] and [a == b] on floats. *)
Definition fgt (a b : float) : bool := SFltb b a.
Definition fge (a b : float) : bool := SFleb b a.
Definition feq (a b : float) : bool := SFeqb a b.

(** [0], as the initial [best_speed]. *)
Definition fzero : float := S754_zero false.

(** The least positive and the greatest finite double, with a sign. *)
Definition least_double (s : bool) : float := S754_finite s 1 (-1074).
Definition greatest_double (s : bool) : float :=
  S754_finite s 9007199254740991 971.

(** The float that a number denotes: the double nearest to it, ties to
    even (the quotient of two integers, correctly rounded, as [int / int]
    and [float(int)] compute it).  For the numbers that a Python [float]
    cannot be made from, the function stays total and finite: beyond the
    range of the doubles, where Python raises [OverflowError], it gives the
    greatest double, and for a non-zero rational nearer to zero than every
    double but zero, which is neither an [int] nor a [float], the least
    one. *)
Definition float_of_Q (q : Q) : float :=
  let quotient (s : bool) (n : positive) : float :=
    match SFdiv prec emax (S754_finite s n 0) (S754_finite false (Qden q) 0) with
    | S754_zero _ => least_double s
    | S754_infinity _ => greatest_double s
    | f => f
    end in
  match Qnum q with
  | Z0 => fzero
  | Zpos n => quotient false n
  | Zneg n => quotient true n
  end.

(** The literal [0.1]. *)
Definition float_0_1 : float := float_of_Q (1 # 10).

(** [max(l)] on floats: the first element that no later one exceeds. *)
Definition py_fmax (l : list float) : res float :=
  match l with
  | [] => Raise ValueError
  | x :: t => Ok (fold_left (fun m y => if fgt y m then y else m) t x)
  end.

(** A float that is not [nan]. *)
Definition number (x : float) : Prop := x <> S754_nan.

(** A float that is [0.0], a positive double or [inf]. *)
Definition nonneg (x : float) : bool :=
  match x with
  | S754_zero false | S754_finite false _ _ | S754_infinity false => true
  | _ => false
  end.

(** The place of a number in the order of the floats, as a triple that is
    compared lexicographically: the sign class, then the exponent and the
    mantissa, as [SFcompare] compares them. *)
Definition key (x : float) : Z * Z * Z :=
  match x with
  | S754_zero _ => (0, 0, 0)
  | S754_finite false m e => (1, e, Zpos m)
  | S754_finite true m e => (-1, - e, Zneg m)
  | S754_infinity false => (2, 0, 0)
  | S754_infinity true => (-2, 0, 0)
  | S754_nan => (0, 0, 0)
  end%Z.

Definition below (a b : Z * Z * Z) : Prop :=
  (fst (fst a) < fst (fst b) \/
   (fst (fst a) = fst (fst b) /\
    (snd (fst a) < snd (fst b) \/
     (snd (fst a) = snd (fst b) /\ snd a < snd b))))%Z.

(** An element of [download_speeds] or [latencies]: (timestamp, value). *)
Definition sample : Type := (Q * Q)%type.

(** The dictionary stored and returned by [single_test]. *)
Module TestResult.
Record t : Type := mk {
  threads : Z;
  duration : Q;
  total_mb : Q;
  avg_speed : Q;
  download_speeds : list sample;
  latencies : list sample;
  max_speed : Q;
  min_speed : Q;
  avg_latency : Q
}.
End TestResult.

(** What [run_test] prints after the run: the total, the average speed and,
    only when [latencies] is not empty, the average, least and greatest
    latency. *)
Module Summary.
Record t : Type := mk {
  total_mb : Q;
  avg_speed : Q;
  latency_stats : option (Q * Q * Q)
}.
End Summary.

(** ** The threads of one run *)

(** Which program runs: [single_test] of [AdvancedDownloadTester] or
    [run_test] of [DownloadSpeedTester]. *)
Inductive tool : Type := Advanced | Basic.

(** The dictionary of [single_test], and the report of [run_test], while
    they are built: the values computed so far (a field not yet computed
    holds [[]] or [0]). *)
Module Draft.
Record t : Type := mk {
  total_mb : Q;
  avg_speed : Q;
  download_speeds : list sample;
  latencies : list sample;
  max_speed : Q;
  min_speed : Q
}.
Definition set_download_speeds (l : list sample) (d : t) : t :=
  mk (total_mb d) (avg_speed d) l (latencies d) (max_speed d) (min_speed d).
Definition set_latencies (l : list sample) (d : t) : t :=
  mk (total_mb d) (avg_speed d) (download_speeds d) l (max_speed d) (min_speed d).
Definition set_max_speed (x : Q) (d : t) : t :=
  mk (total_mb d) (avg_speed d) (download_speeds d) (latencies d) x (min_speed d).
Definition set_min_speed (x : Q) (d : t) : t :=
  mk (total_mb d) (avg_speed d) (download_speeds d) (latencies d) (max_speed d) x.
End Draft.

(** The accesses of the caller to the two deques after the averages are
    computed, in the order of evaluation.  [single_test] goes through all
    of them:
    [[
    'download_speeds': list(download_speeds),
    'latencies': list(latencies),
    'max_speed': max([speed for _, speed in download_speeds]) if download_speeds else 0,
    'min_speed': min([speed for _, speed in download_speeds]) if download_speeds else 0,
    'avg_latency': sum([lat for _, lat in latencies]) / len(latencies) if latencies else 0
    ]]
    and [run_test] through those of
    [[
    if self.latencies:
        latency_values = [lat for _, lat in self.latencies]
    ]]
    A conditional expression first tests the deque; a list comprehension
    makes an iterator of the deque and later runs it to its end. *)
Inductive stage : Type :=
| CopySpeeds           (* before [list(download_speeds)] *)
| CopyLatencies        (* before [list(latencies)] *)
| MaxTest              (* before the test [if download_speeds] of [max_speed] *)
| MaxIter              (* before the iterator over [download_speeds] is made *)
| MaxEnd (n : nat)     (* in the comprehension, over a deque that held [n] elements *)
| MinTest              (* the same three for [min_speed] *)
| MinIter
| MinEnd (n : nat)
| LatTest              (* before the test [if latencies] *)
| LatIter              (* before the iterator over [latencies] is made *)
| LatEnd (n : nat)     (* in the comprehension, over a deque that held [n] elements *)
| LatLen (total : Q).  (* before [len(latencies)], with [sum(...)] computed *)

(** Control points of the calling thread. *)
Inductive main_pc : Type :=
| MainStartMonitor                (* before [monitor_thread.start()] *)
| MainSpawn (i : nat)             (* in [for i in range(num_threads)], before [thread.start()] *)
| MainSleep                       (* in [time.sleep(test_duration)] *)
| MainStop                        (* before [running = False] *)
| MainStats                       (* before [total_mb = total_bytes / (1024 * 1024)] *)
| MainBuild (g : stage) (d : Draft.t) (* building the dictionary or the report *)
| MainReturned (r : TestResult.t) (* [single_test] has returned [r] *)
| MainReported (r : Summary.t)    (* [run_test] has printed [r] *)
| MainRaised (e : exn).

(** Locals of [monitor_performance] that live across iterations. *)
Record monitor_locals : Type := mkLocals {
  last_bytes : Z;
  last_time : Q
}.

(** The values computed by one iteration of [monitor_performance] under
    [if time_diff > 0]. *)
Record tick_values : Type := mkTick {
  current_time : Q;
  current_bytes : Z;
  speed_mbps : Q;
  timestamp : Q
}.

Inductive monitor_pc : Type :=
| MonNotStarted
| MonBegin                                        (* before [last_time = time.time()] *)
| MonWhile (l : monitor_locals)                   (* at [while running] *)
| MonSleep (l : monitor_locals)                   (* in [time.sleep(1)] *)
| MonAppend (l : monitor_locals) (v : tick_values) (* before [download_speeds.append] *)
| MonProbe (l : monitor_locals) (v : tick_values)  (* in [measure_latency] *)
| MonExit
| MonRaised (e : exn).

Inductive worker_pc : Type :=
| WWhile                 (* at [while running] *)
| WRequest               (* in [session.get] *)
| WIter                  (* in [for chunk in response.iter_content(...)] *)
| WLocked (chunk_len : N) (* before [with lock: total_bytes += chunk_len] *)
| WExcept                (* in the handler: [time.sleep(1)] *)
| WExit.

(** History of the run, kept for the statements only: thread starts,
    HTTP requests and sampler iterations, oldest first. *)
Inductive thread : Type := Sampler | Downloader (thread_id : nat).

Inductive action : Type :=
| Started (t : thread)
| HttpGet (thread_id : nat)
| HttpHead
| Tick.

Record state : Type := mkState {
  total_bytes : Z;
  start_time : Q;
  running : bool;
  download_speeds : list sample;
  latencies : list sample;
  main : main_pc;
  monitor : monitor_pc;
  workers : list worker_pc;
  history : list action
}.

Definition set_total_bytes (b : Z) (s : state) : state :=
  mkState b (start_time s) (running s) (download_speeds s) (latencies s)
          (main s) (monitor s) (workers s) (history s).
Definition set_running (b : bool) (s : state) : state :=
  mkState (total_bytes s) (start_time s) b (download_speeds s) (latencies s)
          (main s) (monitor s) (workers s) (history s).
Definition set_download_speeds (l : list sample) (s : state) : state :=
  mkState (total_bytes s) (start_time s) (running s) l (latencies s)
          (main s) (monitor s) (workers s) (history s).
Definition set_latencies (l : list sample) (s : state) : state :=
  mkState (total_bytes s) (start_time s) (running s) (download_speeds s) l
          (main s) (monitor s) (workers s) (history s).
Definition set_main (p : main_pc) (s : state) : state :=
  mkState (total_bytes s) (start_time s) (running s) (download_speeds s)
          (latencies s) p (monitor s) (workers s) (history s).
Definition set_monitor (p : monitor_pc) (s : state) : state :=
  mkState (total_bytes s) (start_time s) (running s) (download_speeds s)
          (latencies s) (main s) p (workers s) (history s).
Definition set_workers (w : list worker_pc) (s : state) : state :=
  mkState (total_bytes s) (start_time s) (running s) (download_speeds s)
          (latencies s) (main s) (monitor s) w (history s).
Definition log (a : action) (s : state) : state :=
  mkState (total_bytes s) (start_time s) (running s) (download_speeds s)
          (latencies s) (main s) (monitor s) (workers s) (history s ++ [a]).

(** The state after the prologue of [single_test] (of [__init__] and the
    first lines of [run_test]): empty deques, [total_bytes = 0],
    [start_time = time.time()], [running = True]. *)
Definition init (now : Q) : state :=
  mkState 0 now true [] [] MainStartMonitor MonNotStarted [] [].

(** *** Events *)

Inductive main_event : Type :=
| Start (ok : bool)   (* [Thread.start()]; [ok = false]: it raises RuntimeError *)
| Sleep               (* [time.sleep(test_duration)] returns, or raises *)
| Stop                (* [running = False] *)
| Stats               (* [total_bytes] is read and the two averages are computed *)
| Read.               (* the next access to a deque, see [stage] *)

Inductive monitor_event : Type :=
| Begin (now : Q)                (* [last_bytes = 0; last_time = time.time()] *)
| Test                           (* [while running] *)
| Wake (now : Q) (stamp : Q)     (* end of [time.sleep(1)], up to the speed *)
| Append                         (* [download_speeds.append(...)] *)
| Probe (latency : option Q).    (* [measure_latency] and the rest of the body *)

Inductive worker_event : Type :=
| WTest                  (* [while running] *)
| WGet (ok : bool)       (* [session.get(...)]; [ok = false]: it raises *)
| WChunk (len : N)       (* the iterator yields a chunk; [if not running: break]; [if chunk] *)
| WAdd                   (* [with lock: total_bytes += chunk_len] *)
| WEnd (ok : bool)       (* the iterator ends ([response.close()]) or raises *)
| WRecover.              (* the handler: [time.sleep(1)] *)

Inductive event : Type :=
| Main (e : main_event)
| Monitor (e : monitor_event)
| Worker (thread_id : nat) (e : worker_event).

(** *** [monitor_performance] *)

(** The arithmetic of one iteration, from the two readings. *)
Definition tick_speed (l : monitor_locals) (now : Q) (bytes : Z) : res (option Q) :=
  let time_diff := (now - last_time l)%Q in
  let bytes_diff := (bytes - last_bytes l)%Z in
  if py_gt time_diff 0 then
    speed_bps <- py_div (inject_Z bytes_diff) time_diff ;;
    speed_mbps <- py_div speed_bps MiB ;;
    Ok (Some speed_mbps)
  else Ok None.

(** The running average printed by the iteration:
    [total_mb / elapsed if elapsed > 0 else 0]. *)
Definition tick_average (start : Q) (v : tick_values) : res Q :=
  let elapsed := (current_time v - start)%Q in
  total_mb <- py_div (inject_Z (current_bytes v)) MiB ;;
  if py_gt elapsed 0 then py_div total_mb elapsed else Ok 0%Q.

Definition next_locals (v : tick_values) : monitor_locals :=
  mkLocals (current_bytes v) (current_time v).

Definition monitor_step (e : monitor_event) (s : state) : option state :=
  match monitor s, e with
  | MonBegin, Begin now =>
      Some (set_monitor (MonWhile (mkLocals 0 now)) s)
  | MonWhile l, Test =>
      Some (set_monitor (if running s then MonSleep l else MonExit) s)
  | MonSleep l, Wake now stamp =>
      let s := log Tick s in
      match tick_speed l now (total_bytes s) with
      | Ok (Some speed) =>
          Some (set_monitor (MonAppend l (mkTick now (total_bytes s) speed stamp)) s)
      | Ok None =>
          Some (set_monitor (MonWhile (mkLocals (total_bytes s) now)) s)
      | Raise x => Some (set_monitor (MonRaised x) s)
      end
  | MonAppend l v, Append =>
      Some (set_monitor (MonProbe l v)
             (set_download_speeds
                (download_speeds s ++ [(timestamp v, speed_mbps v)]) s))
  | MonProbe l v, Probe latency =>
      let s := log HttpHead s in
      let s := if latency_truthy latency
               then set_latencies
                      (latencies s ++ [(timestamp v, default 0%Q latency)]) s
               else s in
      match tick_average (start_time s) v with
      | Ok _ => Some (set_monitor (MonWhile (next_locals v)) s)
      | Raise x => Some (set_monitor (MonRaised x) s)
      end
  | _, _ => None
  end.

(** *** [download_chunk] *)

Definition worker_step (thread_id : nat) (e : worker_event) (s : state) : option state :=
  match workers s !! thread_id with
  | None => None
  | Some pc =>
      let goto p s := set_workers (<[thread_id := p]> (workers s)) s in
      match pc, e with
      | WWhile, WTest => Some (goto (if running s then WRequest else WExit) s)
      | WRequest, WGet ok =>
          Some (goto (if ok then WIter else WExcept) (log (HttpGet thread_id) s))
      | WIter, WChunk len =>
          if negb (running s) then Some (goto WWhile s)
          else if N.eqb len 0 then Some (goto WIter s)
          else Some (goto (WLocked len) s)
      | WLocked len, WAdd =>
          Some (goto WIter (set_total_bytes (total_bytes s + Z.of_N len) s))
      | WIter, WEnd ok => Some (goto (if ok then WWhile else WExcept) s)
      | WExcept, WRecover => Some (goto WWhile s)
      | _, _ => None
      end
  end.

(** *** The calling thread: [single_test] and [run_test] *)

Definition nonempty {A : Type} (l : list A) : bool :=
  match l with [] => false | _ :: _ => true end.

(** The end of an iteration over a deque that held [n] elements when the
    iterator was made: the elements, or [RuntimeError] ("deque mutated
    during iteration") when the deque has been appended to since. *)
Definition iterated {A : Type} (n : nat) (deque : list A) : res (list A) :=
  if (length deque =? n)%nat then Ok deque else Raise RuntimeError.

(** [total_mb = total_bytes / (1024 * 1024)] and
    [avg_speed = total_mb / test_duration]. *)
Definition averages (test_duration : Q) (s : state) : res Draft.t :=
  total_mb <- py_div (inject_Z (total_bytes s)) MiB ;;
  avg_speed <- py_div total_mb test_duration ;;
  Ok (Draft.mk total_mb avg_speed [] [] 0 0).

(** One access of [single_test] to a deque, and where the caller is after
    it. *)
Definition build_result (num_threads : Z) (test_duration : Q)
    (g : stage) (d : Draft.t) (s : state) : main_pc :=
  let returned avg_latency :=
    MainReturned
      (TestResult.mk num_threads test_duration
         (Draft.total_mb d) (Draft.avg_speed d)
         (Draft.download_speeds d) (Draft.latencies d)
         (Draft.max_speed d) (Draft.min_speed d) avg_latency) in
  match g with
  | CopySpeeds =>
      MainBuild CopyLatencies (Draft.set_download_speeds (download_speeds s) d)
  | CopyLatencies =>
      MainBuild MaxTest (Draft.set_latencies (latencies s) d)
  | MaxTest =>
      if nonempty (download_speeds s) then MainBuild MaxIter d
      else MainBuild MinTest (Draft.set_max_speed 0 d)
  | MaxIter => MainBuild (MaxEnd (length (download_speeds s))) d
  | MaxEnd n =>
      match l <- iterated n (download_speeds s) ;; py_max (map snd l) with
      | Ok max_speed => MainBuild MinTest (Draft.set_max_speed max_speed d)
      | Raise x => MainRaised x
      end
  | MinTest =>
      if nonempty (download_speeds s) then MainBuild MinIter d
      else MainBuild LatTest (Draft.set_min_speed 0 d)
  | MinIter => MainBuild (MinEnd (length (download_speeds s))) d
  | MinEnd n =>
      match l <- iterated n (download_speeds s) ;; py_min (map snd l) with
      | Ok min_speed => MainBuild LatTest (Draft.set_min_speed min_speed d)
      | Raise x => MainRaised x
      end
  | LatTest =>
      if nonempty (latencies s) then MainBuild LatIter d else returned 0%Q
  | LatIter => MainBuild (LatEnd (length (latencies s))) d
  | LatEnd n =>
      match iterated n (latencies s) with
      | Ok l => MainBuild (LatLen (py_sum (map snd l))) d
      | Raise x => MainRaised x
      end
  | LatLen total =>
      match py_div total (inject_Z (Z.of_nat (length (latencies s)))) with
      | Ok avg_latency => returned avg_latency
      | Raise x => MainRaised x
      end
  end.

(** One access of [run_test] to [self.latencies]; the statistics are then
    computed from the list [latency_values].  The other stages are no
    control points of [run_test]. *)
Definition build_report (g : stage) (d : Draft.t) (s : state) : option main_pc :=
  let reported stats :=
    MainReported (Summary.mk (Draft.total_mb d) (Draft.avg_speed d) stats) in
  match g with
  | LatTest =>
      Some (if nonempty (latencies s) then MainBuild LatIter d else reported None)
  | LatIter => Some (MainBuild (LatEnd (length (latencies s))) d)
  | LatEnd n =>
      Some
        match
          l <- iterated n (latencies s) ;;
          let latency_values := map snd l in
          avg_latency <- py_div (py_sum latency_values)
                                (inject_Z (Z.of_nat (length latency_values))) ;;
          min_latency <- py_min latency_values ;;
          max_latency <- py_max latency_values ;;
          Ok (avg_latency, min_latency, max_latency)
        with
        | Ok stats => reported (Some stats)
        | Raise x => MainRaised x
        end
  | _ => None
  end.

Section Run.

Variable which : tool.
Variable num_threads : Z.
Variable test_duration : Q.

(** [for i in range(num_threads)]: the loop test before iteration [i]. *)
Definition next_spawn (i : nat) : main_pc :=
  if (Z.of_nat i <? num_threads)%Z then MainSpawn i else MainSleep.

(** The first access to a deque after the averages. *)
Definition first_stage : stage :=
  match which with
  | Advanced => CopySpeeds
  | Basic => LatTest
  end.

Definition build (g : stage) (d : Draft.t) (s : state) : option main_pc :=
  match which with
  | Advanced => Some (build_result num_threads test_duration g d s)
  | Basic => build_report g d s
  end.

Definition main_step (e : main_event) (s : state) : option state :=
  match main s, e with
  | MainStartMonitor, Start ok =>
      if ok
      then Some (set_main (next_spawn 0)
                   (set_monitor MonBegin (log (Started Sampler) s)))
      else Some (set_main (MainRaised RuntimeError) s)
  | MainSpawn i, Start ok =>
      if ok
      then Some (set_main (next_spawn (S i))
                   (set_workers (workers s ++ [WWhile])
                      (log (Started (Downloader i)) s)))
      else Some (set_main (MainRaised RuntimeError) s)
  | MainSleep, Sleep =>
      match time_sleep test_duration with
      | Ok _ => Some (set_main MainStop s)
      | Raise x => Some (set_main (MainRaised x) s)
      end
  | MainStop, Stop => Some (set_main MainStats (set_running false s))
  | MainStats, Stats =>
      match averages test_duration s with
      | Ok d => Some (set_main (MainBuild first_stage d) s)
      | Raise x => Some (set_main (MainRaised x) s)
      end
  | MainBuild g d, Read =>
      match build g d s with
      | Some pc => Some (set_main pc s)
      | None => None
      end
  | _, _ => None
  end.

Definition step (s : state) (e : event) : option state :=
  match e with
  | Main e => main_step e s
  | Monitor e => monitor_step e s
  | Worker thread_id e => worker_step thread_id e s
  end.

(** Runs a schedule; [None] when an event is not enabled. *)
Fixpoint exec (s : state) (sched : list event) : option state :=
  match sched with
  | [] => Some s
  | e :: sched' =>
      match step s e with
      | Some s' => exec s' sched'
      | None => None
      end
  end.

End Run.

(** The environment of one run: the first clock reading and the schedule. *)
Record run_env : Type := mkEnv {
  clock : Q;
  schedule : list event
}.

(** [single_test(num_threads, test_duration, test_name)] under [env]:
    what the call returns or raises; [None] when the schedule does not
    take the calling thread to its end. *)
Definition single_test (num_threads : Z) (test_duration : Q) (env : run_env)
  : option (res TestResult.t) :=
  match exec Advanced num_threads test_duration (init (clock env)) (schedule env) with
  | Some s =>
      match main s with
      | MainReturned r => Some (Ok r)
      | MainRaised x => Some (Raise x)
      | _ => None
      end
  | None => None
  end.

(** [run_test()] under [env]. *)
Definition run_test (num_threads : Z) (test_duration : Q) (env : run_env)
  : option (res Summary.t) :=
  match exec Basic num_threads test_duration (init (clock env)) (schedule env) with
  | Some s =>
      match main s with
      | MainReported r => Some (Ok r)
      | MainRaised x => Some (Raise x)
      | _ => None
      end
  | None => None
  end.

(** ** The concurrency sweep: [find_max_concurrent_connections] *)

(** The double that the program holds as [result['avg_speed']]:
    [total_bytes / (1024 * 1024)], the correctly rounded quotient of two
    integers, divided in binary64 by [test_duration] as a float. *)
Definition avg_speed_double (r : TestResult.t) : float :=
  fdiv (float_of_Q (TestResult.total_mb r)) (float_of_Q (TestResult.duration r)).

(** An element of [concurrent_results]: [{'threads': ..., 'speed': ...}]. *)
Module Point.
Record t : Type := mk {
  threads : Z;
  speed : float
}.
End Point.

(** The lines printed by the loop. *)
Inductive message : Type :=
| Testing (n : Z)                     (* "测试 n 线程并发..." *)
| Passed (n : Z) (avg_speed : float)  (* "✓ n 线程: avg_speed MB/s" *)
| Degraded (best : Z)                 (* "检测到性能下降，建议最大并发: best 线程" *)
| Failed (n : Z) (e : exn).           (* "✗ n 线程测试失败: e" *)

(** The locals of [find_max_concurrent_connections]. *)
Record sweep_state : Type := mkSweep {
  max_connections : Z;
  best_speed : float;
  concurrent_results : list Point.t;
  current_threads : Z;
  printed : list message
}.

(** How the [while] loop was left: its test failed, or one of its two
    [break]s was taken. *)
Inductive loop_exit : Type :=
| Exhausted
| BrokeDegraded
| BrokeFailed.

(** The test made after each recorded point:
    [[
    if len(concurrent_results) >= 3:
        recent_speeds = [r['speed'] for r in concurrent_results[-3:]]
        if all(recent_speeds[i] >= recent_speeds[i+1] for i in range(len(recent_speeds)-1)):
            if recent_speeds[0] - recent_speeds[-1] > best_speed * 0.1:
    ]]
    The subtraction, the product and the comparisons are those of
    binary64. *)
Definition degradation (concurrent_results : list Point.t) (best_speed : float) : bool :=
  if (3 <=? length concurrent_results)%nat then
    let recent_speeds :=
      map Point.speed (drop (length concurrent_results - 3) concurrent_results) in
    if forallb (fun i => fge (nth i recent_speeds fzero) (nth (i + 1) recent_speeds fzero))
               (seq 0 (length recent_speeds - 1))
    then fgt (fsub (nth 0 recent_speeds fzero) (List.last recent_speeds fzero))
             (fmul best_speed float_0_1)
    else false
  else false.

Definition say (m : message) (st : sweep_state) : sweep_state :=
  mkSweep (max_connections st) (best_speed st) (concurrent_results st)
          (current_threads st) (printed st ++ [m]).

(** The body of the [try] after a sub-run returned [avg_speed], up to the
    degradation test. *)
Definition record_point (avg_speed : float) (st : sweep_state) : sweep_state :=
  let n := current_threads st in
  let results := concurrent_results st ++ [Point.mk n avg_speed] in
  let out := printed st ++ [Passed n avg_speed] in
  if fgt avg_speed (best_speed st)
  then mkSweep n avg_speed results n out
  else mkSweep (max_connections st) (best_speed st) results n out.

Definition advance (step : Z) (st : sweep_state) : sweep_state :=
  mkSweep (max_connections st) (best_speed st) (concurrent_results st)
          (current_threads st + step) (printed st).

Section Sweep.

Variable max_test_threads : Z.
Variable step : Z.
Variable test_duration : Q.
(** The environment of the successive calls of [single_test]. Every call
    before the current one has recorded a point (a call that raises ends
    the loop), so the current call is number
    [length (concurrent_results st)]. *)
Variable env : nat -> run_env.

(** The handler [except Exception] catches every exception of [exn]. *)
Fixpoint sweep_loop (fuel : nat) (st : sweep_state)
  : option (loop_exit * sweep_state) :=
  match fuel with
  | O => None
  | S fuel' =>
      if (current_threads st <=? max_test_threads)%Z then
        let st := say (Testing (current_threads st)) st in
        match single_test (current_threads st) test_duration
                          (env (length (concurrent_results st))) with
        | None => None
        | Some (Ok result) =>
            let st := record_point (avg_speed_double result) st in
            if degradation (concurrent_results st) (best_speed st)
            then Some (BrokeDegraded, say (Degraded (max_connections st)) st)
            else sweep_loop fuel' (advance step st)
        | Some (Raise e) =>
            Some (BrokeFailed, say (Failed (current_threads st) e) st)
        end
      else Some (Exhausted, st)
  end.

End Sweep.

(** What a call of [find_max_concurrent_connections] does: the pair it
    returns, the arguments it passes to [create_concurrent_chart], the lines
    it prints, and how its loop was left. *)
Record sweep_outcome : Type := mkOutcome {
  returned : Z * float;
  charted : list Point.t * Z;
  output : list message;
  left_by : loop_exit
}.

Definition sweep_start : sweep_state := mkSweep 1 fzero [] 1 [].

Definition find_max_concurrent_connections
    (max_test_threads step : Z) (test_duration : Q) (env : nat -> run_env)
    (fuel : nat) : option sweep_outcome :=
  match sweep_loop max_test_threads step test_duration env fuel sweep_start with
  | None => None
  | Some (how, st) =>
      Some (mkOutcome (max_connections st, best_speed st)
                      (concurrent_results st, max_connections st)
                      (printed st) how)
  end.

(** ** Predicates used in the statements *)

(** Every thread of the run has been started: the sampler and
    [range(num_threads)] download threads. *)
Definition launched (num_threads : Z) (s : state) : Prop :=
  In (Started Sampler) (history s) /\
  length (workers s) = Z.to_nat num_threads.

(** The averages computed from a byte count [bytes]. *)
Definition draft_from (test_duration : Q) (bytes : Z) (d : Draft.t) : Prop :=
  Draft.total_mb d = (inject_Z bytes / MiB)%Q /\
  Draft.avg_speed d = (inject_Z bytes / MiB / test_duration)%Q.

(** [r] is a dictionary built from a byte count [bytes]. *)
Definition result_from (test_duration : Q) (bytes : Z) (r : TestResult.t) : Prop :=
  TestResult.duration r = test_duration /\
  TestResult.total_mb r = (inject_Z bytes / MiB)%Q /\
  TestResult.avg_speed r = (inject_Z bytes / MiB / test_duration)%Q.

Definition summary_from (test_duration : Q) (bytes : Z) (r : Summary.t) : Prop :=
  Summary.total_mb r = (inject_Z bytes / MiB)%Q /\
  Summary.avg_speed r = (inject_Z bytes / MiB / test_duration)%Q.

(** What the deques hold at least while the caller is at stage [g]: a
    deque that passed its test is not empty. *)
Definition stage_inv (g : stage) (s : state) : Prop :=
  match g with
  | MaxIter | MaxEnd _ | MinIter | MinEnd _ => download_speeds s <> []
  | LatIter | LatEnd _ | LatLen _ => latencies s <> []
  | _ => True
  end.

(** Where the calling thread is, against what the run has done so far. *)
Definition main_inv (num_threads : Z) (test_duration : Q) (s : state) : Prop :=
  (0 <= total_bytes s)%Z /\
  match main s with
  | MainStartMonitor =>
      workers s = [] /\ history s = [] /\ monitor s = MonNotStarted
  | MainSpawn i =>
      In (Started Sampler) (history s) /\
      length (workers s) = i /\ (Z.of_nat i < num_threads)%Z
  | MainSleep => launched num_threads s
  | MainStop => launched num_threads s /\ (0 <= test_duration)%Q
  | MainStats =>
      launched num_threads s /\ (0 <= test_duration)%Q /\ running s = false
  | MainBuild g d =>
      launched num_threads s /\ (0 < test_duration)%Q /\ running s = false /\
      stage_inv g s /\
      exists bytes, (0 <= bytes <= total_bytes s)%Z /\
                    draft_from test_duration bytes d
  | MainReturned r =>
      launched num_threads s /\ (0 < test_duration)%Q /\ running s = false /\
      exists bytes, (0 <= bytes <= total_bytes s)%Z /\
                    result_from test_duration bytes r
  | MainReported r =>
      launched num_threads s /\ (0 < test_duration)%Q /\ running s = false /\
      exists bytes, (0 <= bytes <= total_bytes s)%Z /\
                    summary_from test_duration bytes r
  | MainRaised e =>
      e = RuntimeError \/
      (launched num_threads s /\
       (time_sleep test_duration = Raise e \/
        (e = ZeroDivisionError /\ (test_duration == 0)%Q /\ running s = false)))
  end.

(** The average speed that a finished run reports. *)
Definition reported_average (pc : main_pc) : option Q :=
  match pc with
  | MainReturned r => Some (TestResult.avg_speed r)
  | MainReported r => Some (Summary.avg_speed r)
  | _ => None
  end.

(** Number of sampler iterations in a history. *)
Definition ticks (h : list action) : nat :=
  length (List.filter (fun a => match a with Tick => true | _ => false end) h).

(** The state that a schedule leads to ([init] when it cannot be run). *)
Definition after (which : tool) (num_threads : Z) (test_duration : Q)
    (env : run_env) : state :=
  default (init (clock env))
          (exec which num_threads test_duration (init (clock env)) (schedule env)).

(** [sum(speeds) / len(speeds)] over the samples, the average that
    [create_charts] draws. *)
Definition sample_mean (l : list sample) : res Q :=
  py_div (py_sum (map snd l)) (inject_Z (Z.of_nat (length l))).

(** The sampler is past the readings of its current iteration (or between
    iterations, or gone). *)
Definition past_readings (pc : monitor_pc) : bool :=
  match pc with
  | MonWhile _ | MonAppend _ _ | MonProbe _ _ | MonExit => true
  | _ => false
  end.

(** The sample that the current iteration has computed and not yet
    appended. *)
Definition owed (pc : monitor_pc) : list sample :=
  match pc with
  | MonAppend _ v => [(timestamp v, speed_mbps v)]
  | _ => []
  end.

(** The steps of the sampler's last iteration, from its sleep to its exit,
    for a wake-up at clock reading [t]. *)
Definition last_iteration (l : monitor_locals) (t stamp : Q) (latency : option Q)
  : list event :=
  Monitor (Wake t stamp)
  :: (if py_gt (t - last_time l) 0
      then [Monitor Append; Monitor (Probe latency)] else [])
  ++ [Monitor Test].


(** The average speed computed by the caller, from the moment it is
    computed. *)
Definition carried (pc : main_pc) : option Q :=
  match pc with
  | MainBuild _ d => Some (Draft.avg_speed d)
  | MainReturned r => Some (TestResult.avg_speed r)
  | MainReported r => Some (Summary.avg_speed r)
  | _ => None
  end.

(** ** The dictionary against the deques *)

(** The value [m] of [max_speed], beside the copy [c] of the deque stored
    in the dictionary and the deque as it is [now]: [m] is 0 and the deque
    was empty when it was tested, so that [c] is empty; or [m] is the
    greatest speed of the deque at a moment when it held [l], the copy
    being an initial segment of [l] and [l] one of the deque now. *)
Definition max_from (m : Q) (c now : list sample) : Prop :=
  (m = 0%Q /\ c = []) \/
  exists l, c `prefix_of` l /\ l `prefix_of` now /\ py_max (map snd l) = Ok m.

Definition min_from (m : Q) (c now : list sample) : Prop :=
  (m = 0%Q /\ c = []) \/
  exists l, c `prefix_of` l /\ l `prefix_of` now /\ py_min (map snd l) = Ok m.

(** The value of [sum([lat for _, lat in latencies])]. *)
Definition sum_from (total : Q) (c now : list sample) : Prop :=
  exists l, l <> [] /\ c `prefix_of` l /\ l `prefix_of` now /\
            total = py_sum (map snd l).

(** The value [a] of [avg_latency]: 0 for a deque that was empty when
    tested, or the sum over the deque at one moment divided by its length
    at a later one. *)
Definition mean_from (a : Q) (c now : list sample) : Prop :=
  (a = 0%Q /\ c = []) \/
  exists l l',
    l <> [] /\ c `prefix_of` l /\ l `prefix_of` l' /\ l' `prefix_of` now /\
    py_div (py_sum (map snd l)) (inject_Z (Z.of_nat (length l'))) = Ok a.

(** The stages at which [max_speed], and [min_speed], are computed. *)
Definition has_max (g : stage) : bool :=
  match g with
  | CopySpeeds | CopyLatencies | MaxTest | MaxIter | MaxEnd _ => false
  | _ => true
  end.

Definition has_min (g : stage) : bool :=
  match g with
  | LatTest | LatIter | LatEnd _ | LatLen _ => true
  | _ => false
  end.

(** What the dictionary under construction holds at stage [g], against
    the deques. *)
Definition draft_inv (g : stage) (d : Draft.t) (s : state) : Prop :=
  Draft.download_speeds d `prefix_of` download_speeds s /\
  Draft.latencies d `prefix_of` latencies s /\
  (has_max g = true ->
   max_from (Draft.max_speed d) (Draft.download_speeds d) (download_speeds s)) /\
  (has_min g = true ->
   min_from (Draft.min_speed d) (Draft.download_speeds d) (download_speeds s)) /\
  (forall total, g = LatLen total ->
     sum_from total (Draft.latencies d) (latencies s)).

(** What the dictionary that [single_test] returns holds, against the
    deques. *)
Definition returned_inv (r : TestResult.t) (s : state) : Prop :=
  TestResult.download_speeds r `prefix_of` download_speeds s /\
  TestResult.latencies r `prefix_of` latencies s /\
  max_from (TestResult.max_speed r) (TestResult.download_speeds r)
           (download_speeds s) /\
  min_from (TestResult.min_speed r) (TestResult.download_speeds r)
           (download_speeds s) /\
  mean_from (TestResult.avg_latency r) (TestResult.latencies r) (latencies s).

Definition result_inv (s : state) : Prop :=
  match main s with
  | MainBuild g d => draft_inv g d s
  | MainReturned r => returned_inv r s
  | _ => True
  end.

(** ** The sweep, described *)

(** The best pair (worker count, speed) after the points [pts]: it starts
    at [(1, 0)] and moves to a point only when that point is strictly
    faster. *)
Definition best_after (pts : list Point.t) : Z * float :=
  fold_left
    (fun best p =>
       if fgt (Point.speed p) (snd best)
       then (Point.threads p, Point.speed p) else best)
    pts (1%Z, fzero).

(** The last three points do not increase, and from the first to the last
    of them the speed falls by more than [best * 0.1], all in binary64 as
    the program computes it. *)
Definition degradation_spec (pts : list Point.t) (best : float) : Prop :=
  exists older a b c,
    pts = older ++ [a; b; c] /\
    fge (Point.speed a) (Point.speed b) = true /\
    fge (Point.speed b) (Point.speed c) = true /\
    fgt (fsub (Point.speed a) (Point.speed c)) (fmul best float_0_1) = true.

(** The [i]-th worker count of a sweep: [1 + i * step]. *)
Definition worker_count (step : Z) (i : nat) : Z := (1 + Z.of_nat i * step)%Z.

(** How many worker counts do not exceed [max_test_threads]. *)
Definition count_upto (max_test_threads step : Z) : nat :=
  Z.to_nat ((max_test_threads - 1) / step + 1).

(** The [i]-th sub-run of a sweep, its speed, and the points that the first
    [k] sub-runs give. *)
Definition sub_run (step : Z) (test_duration : Q) (env : nat -> run_env) (i : nat)
  : option (res TestResult.t) :=
  single_test (worker_count step i) test_duration (env i).

Definition sub_speed (step : Z) (test_duration : Q) (env : nat -> run_env) (i : nat)
  : float :=
  match sub_run step test_duration env i with
  | Some (Ok r) => avg_speed_double r
  | _ => fzero
  end.

Definition points_upto (step : Z) (test_duration : Q) (env : nat -> run_env) (k : nat)
  : list Point.t :=
  map (fun i => Point.mk (worker_count step i) (sub_speed step test_duration env i))
      (seq 0 k).

(** The locals of the sweep at the loop test, after [k] recorded points. *)
Definition consistent (step : Z) (test_duration : Q) (env : nat -> run_env)
    (k : nat) (st : sweep_state) : Prop :=
  concurrent_results st = points_upto step test_duration env k /\
  current_threads st = worker_count step k /\
  (max_connections st, best_speed st)
    = best_after (points_upto step test_duration env k).

(** No degradation is found after any of the first [k] points. *)
Definition undegraded (step : Z) (test_duration : Q) (env : nat -> run_env)
    (k : nat) : Prop :=
  forall j, (0 < j <= k)%nat ->
    degradation (points_upto step test_duration env j)
                (snd (best_after (points_upto step test_duration env j))) = false.

(** The condition of the degradation test holds after none of the first
    [k] points. *)
Definition never_degrades (step : Z) (test_duration : Q) (env : nat -> run_env)
    (k : nat) : Prop :=
  forall j, (0 < j <= k)%nat ->
    ~ degradation_spec (points_upto step test_duration env j)
        (snd (best_after (points_upto step test_duration env j))).

(** ** Schedules used in the examples *)

(** The accesses to the deques that the caller makes after [Stats] when no
    other thread runs in between; [samples] and [latencies] tell whether
    the two deques hold anything. *)
Definition reads (which : tool) (samples latencies : bool) : list event :=
  repeat (Main Read)
    match which with
    | Advanced => 5 + (if samples then 4 else 0) + (if latencies then 3 else 0)
    | Basic => 1 + (if latencies then 2 else 0)
    end.

(** A run of [single_test] in which [n] download threads are started,
    thread 0 receives the chunks [chunks] and the sampler is never
    scheduled. *)
Definition plain_run (n : nat) (chunks : list N) : run_env :=
  mkEnv 0%Q
    (Main (Start true) :: repeat (Main (Start true)) n
     ++ [Worker 0 WTest; Worker 0 (WGet true)]
     ++ flat_map (fun len => [Worker 0 (WChunk len); Worker 0 WAdd]) chunks
     ++ [Main Sleep; Main Stop; Main Stats]
     ++ reads Advanced false false).

(** A run in which [mb] MiB arrive in chunks of 8192 bytes. *)
Definition run_at (n : nat) (mb : nat) : run_env :=
  plain_run n (repeat 8192%N (128 * mb)).

(** A run in which starting the first download thread fails. *)
Definition failing_run : run_env :=
  mkEnv 0%Q [Main (Start true); Main (Start false)].

(** Sub-runs in which [mbs] MiB arrive, with the worker counts of a sweep
    of step [step]; every further sub-run fails. *)
Definition synthetic (step : nat) (mbs : list nat) (i : nat) : run_env :=
  match mbs !! i with
  | Some mb => run_at (1 + i * step) mb
  | None => failing_run
  end.

(** A run of two seconds with one download thread: 4096 bytes arrive in the
    first second and 8192 in the next, the sampler wakes after one second
    and once more after the caller has finished. *)
Definition two_second (which : tool) : run_env :=
  mkEnv 0%Q
    ([Main (Start true); Main (Start true);
      Monitor (Begin 0%Q); Monitor Test;
      Worker 0 WTest; Worker 0 (WGet true);
      Worker 0 (WChunk 4096%N); Worker 0 WAdd;
      Monitor (Wake 1%Q 1%Q); Monitor Append; Monitor (Probe (Some 20%Q));
      Monitor Test;
      Worker 0 (WChunk 8192%N); Worker 0 WAdd;
      Main Sleep; Main Stop; Main Stats]
     ++ reads which true true
     ++ [Monitor (Wake 2%Q 2%Q); Monitor Append; Monitor (Probe None);
         Monitor Test]).

Definition two_second_run : run_env := two_second Advanced.
Definition two_second_report : run_env := two_second Basic.

(** A run of one second without download threads: only the sampler works. *)
Definition sampler_only (which : tool) : run_env :=
  mkEnv 0%Q
    ([Main (Start true);
      Monitor (Begin 0%Q); Monitor Test;
      Monitor (Wake 1%Q 1%Q); Monitor Append; Monitor (Probe (Some 20%Q));
      Main Sleep; Main Stop; Main Stats]
     ++ reads which true true).

Definition sampler_only_run : run_env := sampler_only Advanced.
Definition sampler_only_report : run_env := sampler_only Basic.

(** A run of length zero with one download thread, which sends its request
    before the caller clears [running]. *)
Definition zero_length_run : run_env :=
  mkEnv 0%Q
    [Main (Start true); Main (Start true);
     Worker 0 WTest; Worker 0 (WGet true);
     Main Sleep; Main Stop; Main Stats].

(** A run of one second in which the caller clears [running] while the
    sampler is inside [measure_latency]: the sampler has read the counter
    at 0, and 8192 bytes arrive before [running] is cleared. *)
Definition cancelled_in_probe_run : run_env :=
  mkEnv 0%Q
    ([Main (Start true); Main (Start true);
      Monitor (Begin 0%Q); Monitor Test;
      Worker 0 WTest; Worker 0 (WGet true);
      Monitor (Wake 1%Q 1%Q); Monitor Append;
      Worker 0 (WChunk 8192%N); Worker 0 WAdd;
      Main Sleep; Main Stop;
      Monitor (Probe (Some 20%Q)); Monitor Test;
      Main Stats]
     ++ reads Advanced true true).

(** A run of one second in which the sampler wakes after the caller has
    copied both deques, empty, into its dictionary and before it computes
    [max_speed]. *)
Definition late_sample_run : run_env :=
  mkEnv 0%Q
    ([Main (Start true); Main (Start true);
      Monitor (Begin 0%Q); Monitor Test;
      Worker 0 WTest; Worker 0 (WGet true);
      Worker 0 (WChunk 4096%N); Worker 0 WAdd;
      Main Sleep; Main Stop; Main Stats;
      Main Read; Main Read;
      Monitor (Wake 1%Q 1%Q); Monitor Append; Monitor (Probe (Some 20%Q))]
     ++ repeat (Main Read) 10).

(** A run of two seconds in which the sampler appends its second sample
    while the caller iterates over [download_speeds]. *)
Definition mutated_deque_run : run_env :=
  mkEnv 0%Q
    [Main (Start true); Main (Start true);
     Monitor (Begin 0%Q); Monitor Test;
     Worker 0 WTest; Worker 0 (WGet true);
     Worker 0 (WChunk 4096%N); Worker 0 WAdd;
     Monitor (Wake 1%Q 1%Q); Monitor Append; Monitor (Probe (Some 20%Q));
     Monitor Test;
     Main Sleep; Main Stop; Main Stats;
     Main Read; Main Read; Main Read; Main Read;
     Monitor (Wake 2%Q 2%Q); Monitor Append;
     Main Read].

(** A run that ends when the caller goes to sleep. *)
Definition refused_sleep_run : run_env :=
  mkEnv 0%Q [Main (Start true); Main (Start true); Main Sleep].

(** A run of [single_test] with [n] download threads in which nothing is
    received and the sampler is never scheduled. *)
Definition idle_run (n : nat) : run_env :=
  mkEnv 0%Q
    (Main (Start true) :: repeat (Main (Start true)) n
     ++ [Main Sleep; Main Stop; Main Stats]
     ++ reads Advanced false false).

(** A run in which the sampler cannot be started. *)
Definition unstartable_run : run_env := mkEnv 0%Q [Main (Start false)].

(** The sub-runs of a sweep of step [-1]: idle runs with one and with no
    download thread, then a run that fails. *)
Definition descending (i : nat) : run_env :=
  match i with
  | 0%nat => idle_run 1
  | 1%nat => idle_run 0
  | _ => unstartable_run
  end.

(** ** Further predicates on one run *)

(** The readings that the sampler holds do not exceed [bytes], and the
    speed it has computed is not negative. *)
Definition readings_below (pc : monitor_pc) (bytes : Z) : Prop :=
  match pc with
  | MonWhile l | MonSleep l => (0 <= last_bytes l <= bytes)%Z
  | MonAppend l v => (0 <= current_bytes v <= bytes)%Z /\ (0 <= speed_mbps v)%Q
  | MonProbe l v => (0 <= current_bytes v <= bytes)%Z
  | _ => True
  end.

(** The sampler's readings never exceed the counter, and no recorded speed
    is negative. *)
Definition sampler_inv (s : state) : Prop :=
  (0 <= total_bytes s)%Z /\
  Forall (fun x : sample => (0 <= snd x)%Q) (download_speeds s) /\
  readings_below (monitor s) (total_bytes s).

(** Number of HEAD requests in a history. *)
Definition heads (h : list action) : nat :=
  length (List.filter (fun a => match a with HttpHead => true | _ => false end) h).

(** Each latency was recorded at the time stamp of a recorded sample: the
    stamps of [latencies] can be obtained from those of [download_speeds]
    by deleting elements. While the sampler is inside [measure_latency], the
    sample just appended is still without a latency. *)
Definition latency_inv (s : state) : Prop :=
  (main s = MainStartMonitor -> monitor s = MonNotStarted) /\
  Forall (fun x : sample => ~ (snd x == 0)%Q) (latencies s) /\
  match monitor s with
  | MonProbe l v =>
      exists older,
        download_speeds s = older ++ [(timestamp v, speed_mbps v)] /\
        sublist (map fst (latencies s)) (map fst older)
  | _ => sublist (map fst (latencies s)) (map fst (download_speeds s))
  end.

(** One HEAD request per recorded sample (the request for the last sample
    may still be under way), and no more samples than iterations. *)
Definition probe_inv (s : state) : Prop :=
  (main s = MainStartMonitor -> monitor s = MonNotStarted) /\
  length (download_speeds s)
  = (heads (history s)
     + match monitor s with MonProbe _ _ => 1 | _ => 0 end)%nat /\
  (length (download_speeds s)
   + match monitor s with MonAppend _ _ => 1 | _ => 0 end
   <= ticks (history s))%nat.

(** ** [measure_latency] *)

(** What [session.head(self.url, timeout=5)] does: it raises, or returns a
    response with a status code. *)
Inductive head_outcome : Type :=
| HeadRaises
| HeadStatus (status_code : Z).

(** [measure_latency]: the two clock readings around the request; the
    bare [except] turns every failure into [None]. *)
Definition measure_latency (start_time : Q) (response : head_outcome) (end_time : Q)
  : option Q :=
  match response with
  | HeadStatus status_code =>
      if (status_code =? 200)%Z
      then Some ((end_time - start_time) * 1000)%Q
      else None
  | HeadRaises => None
  end.

(** ** Download threads at cancellation *)

(** The chunk length that a download thread holds while it waits for the
    lock. *)
Definition held (pc : worker_pc) : Z :=
  match pc with
  | WLocked chunk_len => Z.of_N chunk_len
  | _ => 0%Z
  end.

(** The bytes held by all download threads. *)
Definition pending (ws : list worker_pc) : Z :=
  fold_right (fun pc acc => (held pc + acc)%Z) 0%Z ws.

(** Whether a download thread has passed [while running] and is about to
    send its request. *)
Definition about_to_request (pc : worker_pc) : nat :=
  match pc with
  | WRequest => 1
  | _ => 0
  end.

Definition requesting (ws : list worker_pc) : nat :=
  fold_right (fun pc acc => (about_to_request pc + acc)%nat) 0%nat ws.

(** Number of GET requests in a history. *)
Definition gets (h : list action) : nat :=
  length (List.filter (fun a => match a with HttpGet _ => true | _ => false end) h).

(** A run of one second in which [running] is cleared while the download
    thread holds a chunk of 8192 bytes that it has not added yet; the next
    chunk it receives is dropped and the thread exits. *)
Definition cancelled_before_add_run : run_env :=
  mkEnv 0%Q
    [Main (Start true); Main (Start true);
     Worker 0 WTest; Worker 0 (WGet true);
     Worker 0 (WChunk 8192%N);
     Main Sleep; Main Stop;
     Worker 0 WAdd;
     Worker 0 (WChunk 4096%N);
     Worker 0 WTest;
     Main Stats].

(** A run of one second in which the sampler wakes between the two tests
    of [download_speeds]: [max_speed] is computed for an empty deque and
    [min_speed] for a deque of one sample. *)
Definition sample_between_tests_run : run_env :=
  mkEnv 0%Q
    ([Main (Start true); Main (Start true);
      Monitor (Begin 0%Q); Monitor Test;
      Worker 0 WTest; Worker 0 (WGet true);
      Worker 0 (WChunk 4096%N); Worker 0 WAdd;
      Main Sleep; Main Stop; Main Stats;
      Main Read; Main Read; Main Read;
      Monitor (Wake 1%Q 1%Q); Monitor Append; Monitor (Probe (Some 20%Q))]
     ++ repeat (Main Read) 7).

(** A run of one second in which the sampler appends its sample and then
    its latency between the two copies that the caller takes: the
    dictionary holds a latency without the sample it belongs to. *)
Definition sample_between_copies_run : run_env :=
  mkEnv 0%Q
    ([Main (Start true); Main (Start true);
      Monitor (Begin 0%Q); Monitor Test;
      Worker 0 WTest; Worker 0 (WGet true);
      Worker 0 (WChunk 4096%N); Worker 0 WAdd;
      Main Sleep; Main Stop; Main Stats;
      Main Read;
      Monitor (Wake 1%Q 1%Q); Monitor Append; Monitor (Probe (Some 20%Q))]
     ++ repeat (Main Read) 11).

(** A run of [run_test] without download threads in which the sampler
    records its first latency after the averages were computed and before
    the caller tests [self.latencies]. *)
Definition late_latency_report : run_env :=
  mkEnv 0%Q
    [Main (Start true);
     Monitor (Begin 0%Q); Monitor Test;
     Main Sleep; Main Stop; Main Stats;
     Monitor (Wake 1%Q 1%Q); Monitor Append; Monitor (Probe (Some 20%Q));
     Main Read; Main Read; Main Read].

(** ** Thread starts *)

(** The threads started, in order. *)
Definition started (h : list action) : list thread :=
  flat_map (fun a => match a with Started t => [t] | _ => [] end) h.

(** The sampler, then the download threads [0 .. k - 1]. *)
Definition sampler_and_downloaders (k : nat) : list thread :=
  Sampler :: map Downloader (seq 0 k).

(** The threads started so far, against the control point of the caller. *)
Definition start_inv (num_threads : Z) (s : state) : Prop :=
  (length (workers s) <= Z.to_nat num_threads)%nat /\
  (monitor s = MonNotStarted -> started (history s) = [] /\ workers s = []) /\
  (monitor s <> MonNotStarted ->
   started (history s) = sampler_and_downloaders (length (workers s))) /\
  match main s with
  | MainStartMonitor => monitor s = MonNotStarted
  | MainSpawn i =>
      i = length (workers s) /\ (Z.of_nat i < num_threads)%Z /\
      monitor s <> MonNotStarted
  | _ => True
  end.

(** ** The [running] flag *)

(** What the control point of the caller tells about [running]: it is
    true until [running = False] is executed and false from then on. A
    caller that has raised [RuntimeError] tells nothing: [Thread.start]
    raises it before, and the iteration over a deque that the sampler
    appends to raises it after. *)
Definition running_at (pc : main_pc) : option bool :=
  match pc with
  | MainStartMonitor | MainSpawn _ | MainSleep | MainStop => Some true
  | MainStats | MainBuild _ _ | MainReturned _ | MainReported _ => Some false
  | MainRaised ZeroDivisionError => Some false
  | MainRaised RuntimeError => None
  | MainRaised _ => Some true
  end.

(** [running] is as the control point of the caller tells, and only a
    thread that saw it cleared has left its loop. *)
Definition flag_inv (s : state) : Prop :=
  (forall b, running_at (main s) = Some b -> running s = b) /\
  (monitor s = MonExit -> running s = false) /\
  (forall thread_id, workers s !! thread_id = Some WExit -> running s = false).

(** ** [create_concurrent_chart] *)

(** What the chart of a sweep shows: the plotted line, the vertical marker
    at [optimal_threads] and the horizontal marker at [optimal_speed]. *)
Module Chart.
Record t : Type := mk {
  threads : list Z;
  speeds : list float;
  axvline : Z;
  axhline : float
}.
End Chart.

(** [create_concurrent_chart(concurrent_results, optimal_threads)]: nothing
    is drawn for an empty list; otherwise [optimal_speed = max(speeds)]. *)
Definition create_concurrent_chart
    (concurrent_results : list Point.t) (optimal_threads : Z)
  : res (option Chart.t) :=
  if negb (nonempty concurrent_results) then Ok None
  else
    let threads := map Point.threads concurrent_results in
    let speeds := map Point.speed concurrent_results in
    optimal_speed <- py_fmax speeds ;;
    Ok (Some (Chart.mk threads speeds optimal_threads optimal_speed)).
(** * Properties *)

(** ** Arithmetic of the model *)

Lemma py_gt_iff a b : py_gt a b = true <-> (b < a)%Q.
Proof.
  unfold py_gt. rewrite negb_true_iff. split.
  - intros H. apply Qnot_le_lt. intros Hle. apply Qle_bool_iff in Hle. congruence.
  - intros H. destruct (Qle_bool a b) eqn:E; [|reflexivity].
    apply Qle_bool_iff in E. exfalso. exact (Qlt_not_le _ _ H E).
Qed.

Lemma py_gt_false_iff a b : py_gt a b = false <-> (a <= b)%Q.
Proof.
  unfold py_gt. rewrite negb_false_iff. apply Qle_bool_iff.
Qed.

Lemma py_div_Ok x y q : py_div x y = Ok q -> ~ (y == 0)%Q /\ q = (x / y)%Q.
Proof.
  unfold py_div. destruct (Qeq_bool y 0) eqn:E; [discriminate|].
  intros [= <-]. split; [|reflexivity]. now apply Qeq_bool_neq.
Qed.

Lemma py_div_nonzero x y : ~ (y == 0)%Q -> py_div x y = Ok (x / y)%Q.
Proof.
  intros H. unfold py_div. destruct (Qeq_bool y 0) eqn:E; [|reflexivity].
  apply Qeq_bool_eq in E. contradiction.
Qed.

Lemma py_div_zero x y : (y == 0)%Q -> py_div x y = Raise ZeroDivisionError.
Proof.
  intros H. unfold py_div. now rewrite (Qeq_eq_bool _ _ H).
Qed.

Lemma MiB_nonzero : ~ (MiB == 0)%Q.
Proof. discriminate. Qed.

Lemma tick_speed_total l now bytes :
  tick_speed l now bytes =
    if py_gt (now - last_time l) 0
    then Ok (Some (inject_Z (bytes - last_bytes l) / (now - last_time l) / MiB)%Q)
    else Ok None.
Proof.
  unfold tick_speed. destruct (py_gt _ 0) eqn:E; [|reflexivity].
  apply py_gt_iff in E.
  rewrite py_div_nonzero; [|intros H; rewrite H in E; discriminate].
  cbn [bind]. now rewrite (py_div_nonzero _ _ MiB_nonzero).
Qed.

Lemma tick_average_total start v : exists q, tick_average start v = Ok q.
Proof.
  unfold tick_average. rewrite (py_div_nonzero _ _ MiB_nonzero). cbn [bind].
  destruct (py_gt _ 0) eqn:E; [|eauto].
  apply py_gt_iff in E.
  rewrite py_div_nonzero; [eauto|]. intros H; rewrite H in E; discriminate.
Qed.

Lemma time_sleep_cases d :
  (time_sleep d = Ok tt /\ (0 <= d)%Q) \/
  (time_sleep d = Raise ValueError /\ (d < 0)%Q) \/
  (time_sleep d = Raise OverflowError /\ ~ (d == 0)%Q).
Proof.
  unfold time_sleep, sleep_nanoseconds.
  set (ns := (d * inject_Z (10 ^ 9))%Q).
  assert (Hk : (0 < inject_Z (10 ^ 9))%Q) by reflexivity.
  destruct (Qle_bool 0 ns) eqn:E.
  - apply Qle_bool_iff in E.
    assert (Hd : (0 <= d)%Q).
    { apply (Qmult_le_r _ _ _ Hk). now rewrite Qmult_0_l. }
    assert (Hc : (0 <= Qceiling ns)%Z) by (apply (Qceiling_resp_le 0 ns E)).
    destruct ((Qceiling ns <? - 2 ^ 63) || (2 ^ 63 <=? Qceiling ns))%Z eqn:Eo.
    + right. right. split; [reflexivity|]. intros Hz.
      assert (Hns : (ns == 0)%Q) by (unfold ns; rewrite Hz; apply Qmult_0_l).
      rewrite (Qceiling_comp _ _ Hns) in Eo. vm_compute in Eo. discriminate.
    + destruct (Z.ltb_spec (Qceiling ns) 0); [lia|]. left. auto.
  - assert (Hns : (ns < 0)%Q).
    { apply Qnot_le_lt. intros H. apply Qle_bool_iff in H. congruence. }
    assert (Hd : (d < 0)%Q).
    { apply (Qmult_lt_r _ _ _ Hk). now rewrite Qmult_0_l. }
    assert (Hf : (Qfloor ns < 0)%Z).
    { rewrite Zlt_Qlt. eapply Qle_lt_trans; [apply Qfloor_le | exact Hns]. }
    destruct ((Qfloor ns <? - 2 ^ 63) || (2 ^ 63 <=? Qfloor ns))%Z.
    + right. right. split; [reflexivity|]. intros Hz. rewrite Hz in Hd.
      discriminate.
    + destruct (Z.ltb_spec (Qfloor ns) 0); [|lia]. right. left. auto.
Qed.

Lemma of_nat_succ_nonzero (k : nat) : ~ (inject_Z (Z.of_nat (S k)) == 0)%Q.
Proof. unfold Qeq. simpl. lia. Qed.

Lemma length_nonzero {A : Type} (l : list A) :
  l <> [] -> ~ (inject_Z (Z.of_nat (length l)) == 0)%Q.
Proof. destruct l; [contradiction|]. intros _. apply of_nat_succ_nonzero. Qed.

Lemma nonempty_true {A : Type} (l : list A) : nonempty l = true <-> l <> [].
Proof. destruct l; simpl; split; congruence. Qed.

Lemma iterated_cases {A : Type} n (l : list A) :
  (iterated n l = Ok l /\ length l = n) \/
  (iterated n l = Raise RuntimeError /\ length l <> n).
Proof.
  unfold iterated. destruct (Nat.eqb_spec (length l) n); auto.
Qed.

Lemma py_max_nonempty l : l <> [] -> exists m, py_max l = Ok m.
Proof. destruct l; [contradiction|]. simpl. eauto. Qed.

Lemma py_min_nonempty l : l <> [] -> exists m, py_min l = Ok m.
Proof. destruct l; [contradiction|]. simpl. eauto. Qed.

Lemma map_nonempty {A B : Type} (f : A -> B) l : l <> [] -> map f l <> [].
Proof. destruct l; [contradiction | discriminate]. Qed.

(** The averages: computed unless the duration is zero. *)
Lemma averages_cases d s :
  ((d == 0)%Q /\ averages d s = Raise ZeroDivisionError) \/
  (~ (d == 0)%Q /\
   exists dr, averages d s = Ok dr /\ draft_from d (total_bytes s) dr).
Proof.
  unfold averages. rewrite (py_div_nonzero _ _ MiB_nonzero). cbn [bind].
  destruct (Qeq_dec d 0) as [Hd|Hd].
  - left. split; [exact Hd|]. now rewrite (py_div_zero _ _ Hd).
  - right. split; [exact Hd|]. rewrite (py_div_nonzero _ _ Hd). cbn [bind].
    eexists. split; [reflexivity|]. split; reflexivity.
Qed.

Ltac invert_step H :=
  unfold step, monitor_step, worker_step in H;
  repeat case_match; simplify_eq.

Section RunFacts.
Variable which : tool.
Variable num_threads : Z.
Variable test_duration : Q.

Local Abbreviation step := (step which num_threads test_duration).
Local Abbreviation exec := (exec which num_threads test_duration).
Local Abbreviation main_step := (main_step which num_threads test_duration).

Lemma exec_app s pre post :
  exec s (pre ++ post) =
    match exec s pre with Some s' => exec s' post | None => None end.
Proof.
  revert s. induction pre as [|e pre IH]; intros s; simpl; [reflexivity|].
  destruct (step s e); [apply IH | reflexivity].
Qed.

Lemma exec_invariant (P : state -> Prop) :
  (forall s e s', P s -> step s e = Some s' -> P s') ->
  forall sched s s', P s -> exec s sched = Some s' -> P s'.
Proof.
  intros Hstep. induction sched as [|e sched IH]; intros s s' HP H; simpl in H.
  - now simplify_eq.
  - destruct (step s e) eqn:E; [|discriminate]. eauto.
Qed.

(** What a step of the caller changes besides its own control point: it
    starts the sampler, starts a download thread, or clears [running]. *)
Lemma main_step_cases e s s' :
  main_step e s = Some s' ->
  (exists pc, s' = set_main pc s) \/
  (main s = MainStartMonitor /\ e = Start true /\
   s' = set_main (next_spawn num_threads 0)
          (set_monitor MonBegin (log (Started Sampler) s))) \/
  (exists i, main s = MainSpawn i /\ e = Start true /\
     s' = set_main (next_spawn num_threads (S i))
            (set_workers (workers s ++ [WWhile])
               (log (Started (Downloader i)) s))) \/
  (main s = MainStop /\ e = Stop /\
   s' = set_main MainStats (set_running false s)).
Proof.
  unfold main_step. intros H.
  destruct (main s) eqn:Em; destruct e; simplify_eq.
  - destruct ok; simplify_eq; eauto 6.
  - destruct ok; simplify_eq; eauto 8.
  - destruct (time_sleep test_duration); simplify_eq; eauto.
  - auto 6.
  - destruct (averages test_duration s); simplify_eq; eauto.
  - destruct (build which num_threads test_duration g d s); simplify_eq; eauto.
Qed.

Lemma step_total_bytes s e s' :
  step s e = Some s' ->
  total_bytes s' = total_bytes s \/
  exists thread_id len,
    e = Worker thread_id WAdd /\
    workers s !! thread_id = Some (WLocked len) /\
    total_bytes s' = (total_bytes s + Z.of_N len)%Z.
Proof.
  intros H. destruct e as [e|e|tid e].
  - destruct (main_step_cases _ _ _ H)
      as [[pc ->]|[(_ & _ & ->)|[(i & _ & _ & ->)|(_ & _ & ->)]]]; auto.
  - invert_step H; simpl; eauto 8.
  - invert_step H; simpl; eauto 8.
Qed.

Lemma step_total_bytes_le s e s' :
  step s e = Some s' -> (total_bytes s <= total_bytes s')%Z.
Proof.
  intros H. destruct (step_total_bytes _ _ _ H) as [->|(tid & len & _ & _ & ->)]; lia.
Qed.

Lemma exec_total_bytes_le sched : forall s s',
  exec s sched = Some s' -> (total_bytes s <= total_bytes s')%Z.
Proof.
  induction sched as [|e sched IH]; intros s s' H; simpl in H.
  - simplify_eq. lia.
  - destruct (step s e) eqn:E; [|discriminate].
    apply step_total_bytes_le in E. apply IH in H. lia.
Qed.

(** The two deques only grow at their end. *)
Lemma appended_step s e s' :
  step s e = Some s' ->
  download_speeds s `prefix_of` download_speeds s' /\
  latencies s `prefix_of` latencies s'.
Proof.
  intros H. destruct e as [m|m|tid m].
  - destruct (main_step_cases _ _ _ H)
      as [[pc ->]|[(_ & _ & ->)|[(i & _ & _ & ->)|(_ & _ & ->)]]];
      split; reflexivity.
  - unfold step, monitor_step in H.
    repeat case_match; simplify_eq; simpl; split;
      first [reflexivity | apply prefix_app_r; reflexivity].
  - unfold step, worker_step in H.
    destruct (workers s !! tid); [|discriminate].
    repeat case_match; simplify_eq; simpl; split; reflexivity.
Qed.

Lemma appended_exec sched : forall s s',
  exec s sched = Some s' ->
  download_speeds s `prefix_of` download_speeds s' /\
  latencies s `prefix_of` latencies s'.
Proof.
  induction sched as [|e sched IH]; intros s s' H; simpl in H.
  - simplify_eq. split; reflexivity.
  - destruct (step s e) as [s1|] eqn:E; [|discriminate].
    destruct (appended_step _ _ _ E) as [H1 H2].
    destruct (IH _ _ H) as [H3 H4].
    split; etransitivity; eauto.
Qed.

Lemma step_monitor_not_raised s e s' :
  (forall x, monitor s <> MonRaised x) ->
  step s e = Some s' -> forall x, monitor s' <> MonRaised x.
Proof.
  intros Hs H x. destruct e as [e|e|tid e].
  - destruct (main_step_cases _ _ _ H)
      as [[pc ->]|[(_ & _ & ->)|[(i & _ & _ & ->)|(_ & _ & ->)]]];
      simpl; try apply Hs; discriminate.
  - unfold step, monitor_step in H.
    destruct (monitor s) eqn:Em; destruct e; simplify_eq; simpl; try discriminate.
    + destruct (running s); discriminate.
    + simpl in H. rewrite tick_speed_total in H.
      destruct (py_gt _ 0); simplify_eq; discriminate.
    + destruct (tick_average_total
                  (start_time (if latency_truthy latency
                     then set_latencies (latencies (log HttpHead s) ++ [(timestamp v, default 0%Q latency)]) (log HttpHead s)
                     else log HttpHead s)) v) as [q Hq].
      rewrite Hq in H. simplify_eq. discriminate.
  - invert_step H; simpl; apply Hs.
Qed.

End RunFacts.

(** ** The calling thread against the other threads *)

Lemma launched_frame n s s' :
  (forall a, In a (history s) -> In a (history s')) ->
  length (workers s') = length (workers s) ->
  launched n s -> launched n s'.
Proof. intros Hh Hw [H1 H2]. split; [auto | congruence]. Qed.

Lemma prefix_nonempty {A : Type} (l l' : list A) :
  l `prefix_of` l' -> l <> [] -> l' <> [].
Proof. intros [k ->] H E. apply app_eq_nil in E as [E _]. contradiction. Qed.

Lemma stage_inv_frame g s s' :
  download_speeds s `prefix_of` download_speeds s' ->
  latencies s `prefix_of` latencies s' ->
  stage_inv g s -> stage_inv g s'.
Proof.
  intros H1 H2. destruct g; simpl; auto;
    solve [apply (prefix_nonempty _ _ H1) | apply (prefix_nonempty _ _ H2)].
Qed.

Section MainFacts.
Variable which : tool.
Variable num_threads : Z.
Variable test_duration : Q.

Local Abbreviation step := (step which num_threads test_duration).
Local Abbreviation exec := (exec which num_threads test_duration).
Local Abbreviation main_inv := (main_inv num_threads test_duration).
Local Abbreviation build := (build which num_threads test_duration).

(** A step of the sampler or of a download thread leaves the calling
    thread where it is. *)
Lemma other_step_frame s e s' :
  step s e = Some s' -> (forall m, e <> Main m) ->
  main s' = main s /\ running s' = running s /\
  length (workers s') = length (workers s) /\
  (forall a, In a (history s) -> In a (history s')) /\
  (monitor s <> MonNotStarted \/ workers s <> []) /\
  (total_bytes s <= total_bytes s')%Z.
Proof.
  intros H Hm. pose proof (step_total_bytes_le _ _ _ _ _ _ H) as Hle.
  destruct e as [m|e|tid e]; [now destruct (Hm m)| |].
  - invert_step H; simpl; repeat split; auto; try lia;
      try (left; congruence); intros ? ?; rewrite ?in_app_iff; auto.
  - unfold step, worker_step in H.
    destruct (workers s !! tid) eqn:Ew; [|discriminate].
    assert (Hlen : forall p, length (<[tid := p]> (workers s)) = length (workers s))
      by (intros; apply length_insert).
    assert (Hne : workers s <> []) by (intros E; rewrite E in Ew; discriminate).
    repeat case_match; simplify_eq; simpl; rewrite ?Hlen; repeat split; auto;
      try (intros ? ?; rewrite ?in_app_iff; auto).
Qed.

Lemma next_spawn_inv s i :
  In (Started Sampler) (history s) ->
  length (workers s) = i ->
  (i = 0%nat \/ (Z.of_nat i - 1 < num_threads)%Z) ->
  match next_spawn num_threads i with
  | MainSpawn j =>
      In (Started Sampler) (history s) /\
      length (workers s) = j /\ (Z.of_nat j < num_threads)%Z
  | MainSleep => launched num_threads s
  | _ => False
  end.
Proof.
  intros Hh Hw Hi. unfold next_spawn.
  destruct (Z.ltb_spec (Z.of_nat i) num_threads) as [Hlt|Hge]; [auto|].
  split; [exact Hh|]. lia.
Qed.

Lemma main_inv_init now : main_inv (init now).
Proof. unfold main_inv. simpl. split; [lia|auto]. Qed.

Lemma main_inv_other s e s' :
  main_inv s -> step s e = Some s' -> (forall m, e <> Main m) -> main_inv s'.
Proof.
  intros [Hb Hm] H Hne.
  destruct (other_step_frame _ _ _ H Hne) as (Hmain & Hrun & Hlen & Hhist & Hon & Hle).
  destruct (appended_step _ _ _ _ _ _ H) as [Hp1 Hp2].
  pose proof (launched_frame num_threads s s' Hhist Hlen) as Hl.
  unfold main_inv. rewrite Hmain, Hrun. split; [lia|].
  destruct (main s).
  - destruct Hm as (Hw & _ & Hmon). destruct Hon; contradiction.
  - destruct Hm as (Hh & Hw & Hi). repeat split; auto. congruence.
  - auto.
  - destruct Hm. auto.
  - destruct Hm as (? & ? & ?). auto.
  - destruct Hm as (? & ? & ? & Hg & bytes & ? & ?).
    split; [auto|]. split; [auto|]. split; [auto|].
    split; [exact (stage_inv_frame _ _ _ Hp1 Hp2 Hg)|].
    exists bytes. split; [lia | auto].
  - destruct Hm as (? & ? & ? & bytes & ? & ?).
    split; [auto|]. split; [auto|]. split; [auto|].
    exists bytes. split; [lia | auto].
  - destruct Hm as (? & ? & ? & bytes & ? & ?).
    split; [auto|]. split; [auto|]. split; [auto|].
    exists bytes. split; [lia | auto].
  - destruct Hm as [?|[? ?]]; auto.
Qed.

(** One access to a deque: where the caller is afterwards. *)
Lemma build_inv g d s pc bytes :
  stage_inv g s -> draft_from test_duration bytes d ->
  build g d s = Some pc ->
  match pc with
  | MainBuild g' d' => stage_inv g' s /\ draft_from test_duration bytes d'
  | MainReturned r => result_from test_duration bytes r
  | MainReported r => summary_from test_duration bytes r
  | MainRaised x => x = RuntimeError
  | _ => False
  end.
Proof.
  intros Hg [Hmb Havg] H. unfold build in H. destruct which.
  - injection H as <-. unfold build_result.
    destruct g; simpl in Hg |- *.
    + repeat split; assumption.
    + repeat split; assumption.
    + destruct (nonempty (download_speeds s)) eqn:E.
      * apply nonempty_true in E. repeat split; assumption.
      * repeat split; assumption.
    + repeat split; assumption.
    + destruct (iterated_cases n (download_speeds s)) as [[-> _]|[-> _]];
        cbn [bind]; [|reflexivity].
      destruct (py_max_nonempty _ (map_nonempty snd _ Hg)) as [m ->].
      repeat split; assumption.
    + destruct (nonempty (download_speeds s)) eqn:E.
      * apply nonempty_true in E. repeat split; assumption.
      * repeat split; assumption.
    + repeat split; assumption.
    + destruct (iterated_cases n (download_speeds s)) as [[-> _]|[-> _]];
        cbn [bind]; [|reflexivity].
      destruct (py_min_nonempty _ (map_nonempty snd _ Hg)) as [m ->].
      repeat split; assumption.
    + destruct (nonempty (latencies s)) eqn:E.
      * apply nonempty_true in E. repeat split; assumption.
      * repeat split; assumption.
    + repeat split; assumption.
    + destruct (iterated_cases n (latencies s)) as [[-> _]|[-> _]];
        [|reflexivity].
      repeat split; assumption.
    + rewrite (py_div_nonzero _ _ (length_nonzero _ Hg)).
      repeat split; assumption.
  - unfold build_report in H. destruct g; simplify_eq; simpl in Hg |- *.
    + destruct (nonempty (latencies s)) eqn:E.
      * apply nonempty_true in E. repeat split; assumption.
      * repeat split; assumption.
    + repeat split; assumption.
    + destruct (iterated_cases n (latencies s)) as [[-> _]|[-> _]];
        cbn [bind]; [|reflexivity].
      cbv zeta.
      rewrite (py_div_nonzero _ _ (length_nonzero _ (map_nonempty snd _ Hg))).
      cbn [bind].
      destruct (py_min_nonempty _ (map_nonempty snd _ Hg)) as [lo ->].
      destruct (py_max_nonempty _ (map_nonempty snd _ Hg)) as [hi ->].
      cbn [bind]. repeat split; assumption.
Qed.

Lemma main_inv_step s e s' : main_inv s -> step s e = Some s' -> main_inv s'.
Proof.
  intros [Hb Hm] H.
  destruct e as [m|e|tid e].
  - unfold step, main_step in H. unfold main_inv.
    destruct (main s) eqn:Em; destruct m; simplify_eq.
    + (* monitor_thread.start() *)
      destruct Hm as (Hw & Hh & Hmon).
      destruct ok; simplify_eq; simpl; (split; [exact Hb|]); [|now left].
      pose proof (next_spawn_inv
                    (set_monitor MonBegin (log (Started Sampler) s)) 0) as Hn.
      simpl in Hn. rewrite Hw, Hh in Hn. simpl in Hn.
      specialize (Hn (or_introl eq_refl) eq_refl (or_introl eq_refl)).
      rewrite Hw, Hh. simpl.
      destruct (next_spawn num_threads 0); try contradiction; exact Hn.
    + (* thread.start() *)
      destruct Hm as (Hh & <- & Hi).
      destruct ok; simplify_eq; simpl; (split; [exact Hb|]); [|now left].
      pose proof (next_spawn_inv
                    (set_workers (workers s ++ [WWhile])
                       (log (Started (Downloader (length (workers s)))) s))
                    (S (length (workers s)))) as Hn.
      simpl in Hn.
      assert (H1 : In (Started Sampler)
                      (history s ++ [Started (Downloader (length (workers s)))]))
        by (rewrite in_app_iff; auto).
      assert (H2 : length (workers s ++ [WWhile]) = S (length (workers s)))
        by (rewrite length_app; simpl; lia).
      assert (H3 : (Z.of_nat (S (length (workers s))) - 1 < num_threads)%Z) by lia.
      specialize (Hn H1 H2 (or_intror H3)).
      destruct (next_spawn num_threads (S (length (workers s))));
        try contradiction; exact Hn.
    + (* time.sleep(test_duration) *)
      destruct (time_sleep_cases test_duration) as [[E Hd]|[[E Hd]|[E Hd]]];
        rewrite E in H; simplify_eq; simpl; (split; [exact Hb|]); auto 6.
    + (* running = False *)
      simpl. split; [exact Hb|]. destruct Hm as [Hl Hd]. auto.
    + (* the averages *)
      destruct Hm as (Hl & Hd & Hr).
      assert (Hpos : ~ (test_duration == 0)%Q -> (0 < test_duration)%Q).
      { intros Hne. apply Qle_lt_or_eq in Hd. destruct Hd as [Hd|Hd]; [exact Hd|].
        destruct Hne. symmetry. exact Hd. }
      destruct (averages_cases test_duration s) as [[Hz E]|[Hz (dr & E & Hdr)]];
        rewrite E in H; simplify_eq; simpl; (split; [exact Hb|]).
      * right. split; [exact Hl|]. auto.
      * split; [exact Hl|]. split; [auto|]. split; [exact Hr|].
        split; [destruct which; exact I|].
        exists (total_bytes s). split; [lia | exact Hdr].
    + (* an access to a deque *)
      destruct Hm as (Hl & Hd & Hr & Hg & bytes & Hbytes & Hdr).
      destruct (build g d s) as [pc|] eqn:E; simplify_eq.
      pose proof (build_inv _ _ _ _ _ Hg Hdr E) as Hpc.
      simpl. split; [exact Hb|].
      destruct pc; try contradiction.
      * destruct Hpc. eauto 10.
      * eauto 10.
      * eauto 10.
      * now left.
  - apply (main_inv_other s (Monitor e) s');
      [split; assumption | assumption | discriminate].
  - apply (main_inv_other s (Worker tid e) s');
      [split; assumption | assumption | discriminate].
Qed.

Lemma main_inv_exec now sched s :
  exec (init now) sched = Some s -> main_inv s.
Proof.
  apply (exec_invariant which num_threads test_duration main_inv main_inv_step).
  apply main_inv_init.
Qed.

Lemma monitor_not_raised_exec now sched s :
  exec (init now) sched = Some s -> forall x, monitor s <> MonRaised x.
Proof.
  apply (exec_invariant which num_threads test_duration
           (fun s => forall x, monitor s <> MonRaised x)).
  - intros s0 e s1. apply step_monitor_not_raised.
  - discriminate.
Qed.

(** *** The average that the caller carries *)

Lemma reported_carried pc a : reported_average pc = Some a -> carried pc = Some a.
Proof. destruct pc; simpl; congruence. Qed.

(** A caller that has raised, returned or reported stays where it is. *)
Lemma final_step s e s' :
  match main s with
  | MainReturned _ | MainReported _ | MainRaised _ => True
  | _ => False
  end ->
  step s e = Some s' -> main s' = main s.
Proof.
  intros Hf H. destruct e as [m|e|tid e].
  - unfold step, main_step in H.
    destruct (main s); try contradiction; destruct m; discriminate.
  - apply (other_step_frame _ _ _ H). discriminate.
  - apply (other_step_frame _ _ _ H). discriminate.
Qed.

Lemma final_exec sched : forall s s',
  match main s with
  | MainReturned _ | MainReported _ | MainRaised _ => True
  | _ => False
  end ->
  exec s sched = Some s' -> main s' = main s.
Proof.
  induction sched as [|e sched IH]; intros s s' Hf H; simpl in H.
  - now simplify_eq.
  - destruct (step s e) as [s1|] eqn:E; [|discriminate].
    pose proof (final_step _ _ _ Hf E) as Hm.
    rewrite <- Hm. apply (IH s1 s'); [now rewrite Hm | exact H].
Qed.

(** Once the call has returned, no later step changes what it returned. *)
Lemma finished_exec sched s s' a :
  reported_average (main s) = Some a -> exec s sched = Some s' -> main s' = main s.
Proof.
  intros Ha. apply final_exec. destruct (main s); simpl in Ha; try discriminate; exact I.
Qed.

(** The accesses to the deques leave the averages alone. *)
Lemma build_carried g d s pc :
  build g d s = Some pc ->
  carried pc = Some (Draft.avg_speed d) \/ exists x, pc = MainRaised x.
Proof.
  unfold build. intros H. destruct which.
  - injection H as <-. unfold build_result.
    destruct g; simpl; auto;
      repeat match goal with
      | |- context [if ?b then _ else _] => destruct b
      | |- context [match ?c with Ok _ => _ | Raise _ => _ end] => destruct c
      end; simpl; eauto.
  - unfold build_report in H. destruct g; simplify_eq; simpl; auto;
      repeat match goal with
      | |- context [if ?b then _ else _] => destruct b
      | |- context [match ?c with Ok _ => _ | Raise _ => _ end] => destruct c
      end; simpl; eauto.
Qed.

Lemma carried_step s e s' a :
  carried (main s) = Some a -> step s e = Some s' ->
  carried (main s') = Some a \/ exists x, main s' = MainRaised x.
Proof.
  intros Ha H. destruct e as [m|e|tid e].
  - unfold step, main_step in H.
    destruct (main s) eqn:Em; simpl in Ha; try discriminate;
      destruct m; simplify_eq.
    destruct (build g d s) as [pc|] eqn:E; simplify_eq. simpl.
    exact (build_carried _ _ _ _ E).
  - destruct (other_step_frame _ _ _ H ltac:(discriminate)) as [-> _]. auto.
  - destruct (other_step_frame _ _ _ H ltac:(discriminate)) as [-> _]. auto.
Qed.

Lemma carried_exec sched : forall s s' a b,
  carried (main s) = Some a -> exec s sched = Some s' ->
  carried (main s') = Some b -> a = b.
Proof.
  induction sched as [|e sched IH]; intros s s' a b Ha H Hb; simpl in H.
  - simplify_eq. congruence.
  - destruct (step s e) as [s1|] eqn:E; [|discriminate].
    destruct (carried_step _ _ _ _ Ha E) as [Ha1|[x Hx]].
    + exact (IH s1 s' a b Ha1 H Hb).
    + rewrite (final_exec sched s1 s' ltac:(now rewrite Hx) H), Hx in Hb.
      discriminate.
Qed.

(** The step that computes the average is [Stats]. *)
Lemma carrying_step s e s' a :
  carried (main s) = None ->
  step s e = Some s' ->
  carried (main s') = Some a ->
  e = Main Stats /\ main s = MainStats /\
  ~ (test_duration == 0)%Q /\
  a = (inject_Z (total_bytes s) / MiB / test_duration)%Q.
Proof.
  intros Hn H Ha. destruct e as [m|e|tid e].
  - unfold step, main_step in H.
    destruct (main s) eqn:Em; simpl in Hn; try discriminate;
      destruct m; simplify_eq.
    + destruct ok; simplify_eq; simpl in Ha; try discriminate.
      unfold next_spawn in Ha. case_match; discriminate.
    + destruct ok; simplify_eq; simpl in Ha; try discriminate.
      unfold next_spawn in Ha. case_match; discriminate.
    + destruct (time_sleep test_duration); simplify_eq; discriminate.
    + destruct (averages_cases test_duration s)
        as [[Hz E]|[Hz (dr & E & (_ & Havg))]];
        rewrite E in H; simplify_eq; simpl in Ha; try discriminate.
      repeat split; auto. congruence.
  - destruct (other_step_frame _ _ _ H ltac:(discriminate)) as [Hm _].
    rewrite Hm in Ha. congruence.
  - destruct (other_step_frame _ _ _ H ltac:(discriminate)) as [Hm _].
    rewrite Hm in Ha. congruence.
Qed.

Lemma carried_split sched : forall s s' a,
  exec s sched = Some s' ->
  carried (main s) = None ->
  carried (main s') = Some a ->
  exists pre post s0,
    sched = pre ++ Main Stats :: post /\ exec s pre = Some s0 /\
    main s0 = MainStats /\
    ~ (test_duration == 0)%Q /\
    a = (inject_Z (total_bytes s0) / MiB / test_duration)%Q.
Proof.
  induction sched as [|e sched IH]; intros s s' a H Hn Ha; simpl in H.
  - simplify_eq; congruence.
  - destruct (step s e) as [s1|] eqn:E; [|discriminate].
    destruct (carried (main s1)) as [a1|] eqn:E1.
    + destruct (carrying_step _ _ _ _ Hn E E1) as (-> & Hs & Hz & Hf).
      exists [], sched, s. simpl. repeat split; auto.
      rewrite <- Hf. symmetry. exact (carried_exec _ _ _ _ _ E1 H Ha).
    + destruct (IH s1 s' a H E1 Ha) as (pre & post & s0 & -> & Hpre & Hs & Hf).
      exists (e :: pre), post, s0. simpl. rewrite E. auto.
Qed.
End MainFacts.


(** ** The dictionary of [single_test] against the deques *)

Lemma nonempty_false {A : Type} (l : list A) : nonempty l = false -> l = [].
Proof. destruct l; [reflexivity | discriminate]. Qed.

Lemma prefix_of_nil {A : Type} (l : list A) : l `prefix_of` [] -> l = [].
Proof. intros [k E]. symmetry in E. now apply app_eq_nil in E as [E _]. Qed.

Lemma max_from_mono m c l l' :
  l `prefix_of` l' -> max_from m c l -> max_from m c l'.
Proof.
  intros H [H0|(k & H1 & H2 & H3)]; [left; exact H0|].
  right. exists k. split; [exact H1|]. split; [etransitivity; eassumption | exact H3].
Qed.

Lemma min_from_mono m c l l' :
  l `prefix_of` l' -> min_from m c l -> min_from m c l'.
Proof.
  intros H [H0|(k & H1 & H2 & H3)]; [left; exact H0|].
  right. exists k. split; [exact H1|]. split; [etransitivity; eassumption | exact H3].
Qed.

Lemma sum_from_mono t c l l' :
  l `prefix_of` l' -> sum_from t c l -> sum_from t c l'.
Proof.
  intros H (k & H0 & H1 & H2 & H3). exists k.
  split; [exact H0|]. split; [exact H1|].
  split; [etransitivity; eassumption | exact H3].
Qed.

Lemma mean_from_mono a c l l' :
  l `prefix_of` l' -> mean_from a c l -> mean_from a c l'.
Proof.
  intros H [H0|(k & k' & H1 & H2 & H3 & H4 & H5)]; [left; exact H0|].
  right. exists k, k'. split; [exact H1|]. split; [exact H2|].
  split; [exact H3|]. split; [etransitivity; eassumption | exact H5].
Qed.

Lemma draft_inv_frame g d s s' :
  download_speeds s `prefix_of` download_speeds s' ->
  latencies s `prefix_of` latencies s' ->
  draft_inv g d s -> draft_inv g d s'.
Proof.
  intros H1 H2 (A & B & C & D & E). unfold draft_inv.
  split; [etransitivity; eassumption|]. split; [etransitivity; eassumption|].
  split; [intros G; exact (max_from_mono _ _ _ _ H1 (C G))|].
  split; [intros G; exact (min_from_mono _ _ _ _ H1 (D G))|].
  intros total G. exact (sum_from_mono _ _ _ _ H2 (E total G)).
Qed.

Lemma returned_inv_frame r s s' :
  download_speeds s `prefix_of` download_speeds s' ->
  latencies s `prefix_of` latencies s' ->
  returned_inv r s -> returned_inv r s'.
Proof.
  intros H1 H2 (A & B & C & D & E). unfold returned_inv.
  split; [etransitivity; eassumption|]. split; [etransitivity; eassumption|].
  split; [exact (max_from_mono _ _ _ _ H1 C)|].
  split; [exact (min_from_mono _ _ _ _ H1 D)|].
  exact (mean_from_mono _ _ _ _ H2 E).
Qed.

(** One access to a deque keeps the dictionary in line with the deques. *)
Lemma build_result_inv num_threads test_duration g d s :
  stage_inv g s -> draft_inv g d s ->
  match build_result num_threads test_duration g d s with
  | MainBuild g' d' => draft_inv g' d' s
  | MainReturned r => returned_inv r s
  | _ => True
  end.
Proof.
  intros Hg (A & B & C & D & E). unfold build_result.
  destruct g; simpl in Hg, C, D |- *.
  - (* list(download_speeds) *)
    unfold draft_inv; simpl. split; [reflexivity|]. split; [exact B|].
    repeat split; intros; discriminate.
  - (* list(latencies) *)
    unfold draft_inv; simpl. split; [exact A|]. split; [reflexivity|].
    repeat split; intros; discriminate.
  - (* if download_speeds *)
    destruct (nonempty (download_speeds s)) eqn:En; unfold draft_inv; simpl.
    + split; [exact A|]. split; [exact B|]. repeat split; intros; discriminate.
    + apply nonempty_false in En. split; [exact A|]. split; [exact B|].
      split; [|split; intros; discriminate].
      intros _. left. split; [reflexivity|]. rewrite En in A.
      exact (prefix_of_nil _ A).
  - unfold draft_inv; simpl. split; [exact A|]. split; [exact B|].
    repeat split; intros; discriminate.
  - (* max([s for _, s in download_speeds]) *)
    destruct (iterated_cases n (download_speeds s)) as [[-> _]|[-> _]];
      cbn [bind]; [|exact I].
    destruct (py_max (map snd (download_speeds s))) as [m|x] eqn:Em; [|exact I].
    unfold draft_inv; simpl. split; [exact A|]. split; [exact B|].
    split; [|split; intros; discriminate].
    intros _. right. exists (download_speeds s).
    split; [exact A|]. split; [reflexivity | exact Em].
  - (* if download_speeds *)
    destruct (nonempty (download_speeds s)) eqn:En; unfold draft_inv; simpl.
    + split; [exact A|]. split; [exact B|]. split; [exact C|].
      split; intros; discriminate.
    + apply nonempty_false in En. split; [exact A|]. split; [exact B|].
      split; [exact C|]. split; [|intros; discriminate].
      intros _. left. split; [reflexivity|]. rewrite En in A.
      exact (prefix_of_nil _ A).
  - unfold draft_inv; simpl. split; [exact A|]. split; [exact B|].
    split; [exact C|]. split; intros; discriminate.
  - (* min([s for _, s in download_speeds]) *)
    destruct (iterated_cases n (download_speeds s)) as [[-> _]|[-> _]];
      cbn [bind]; [|exact I].
    destruct (py_min (map snd (download_speeds s))) as [m|x] eqn:Em; [|exact I].
    unfold draft_inv; simpl. split; [exact A|]. split; [exact B|].
    split; [exact C|]. split; [|intros; discriminate].
    intros _. right. exists (download_speeds s).
    split; [exact A|]. split; [reflexivity | exact Em].
  - (* if latencies *)
    destruct (nonempty (latencies s)) eqn:En.
    + unfold draft_inv; simpl. split; [exact A|]. split; [exact B|].
      split; [exact C|]. split; [exact D|]. intros; discriminate.
    + apply nonempty_false in En. unfold returned_inv; simpl.
      split; [exact A|]. split; [exact B|].
      split; [exact (C eq_refl)|]. split; [exact (D eq_refl)|].
      left. split; [reflexivity|]. rewrite En in B. exact (prefix_of_nil _ B).
  - unfold draft_inv; simpl. split; [exact A|]. split; [exact B|].
    split; [exact C|]. split; [exact D|]. intros; discriminate.
  - (* sum([lat for _, lat in latencies]) *)
    destruct (iterated_cases n (latencies s)) as [[-> _]|[-> _]]; [|exact I].
    unfold draft_inv; simpl. split; [exact A|]. split; [exact B|].
    split; [exact C|]. split; [exact D|].
    intros t [= <-]. exists (latencies s).
    split; [exact Hg|]. split; [exact B|]. split; reflexivity.
  - (* len(latencies) *)
    destruct (py_div total (inject_Z (Z.of_nat (length (latencies s)))))
      as [a|x] eqn:Ea; [|exact I].
    unfold returned_inv; simpl. split; [exact A|]. split; [exact B|].
    split; [exact (C eq_refl)|]. split; [exact (D eq_refl)|].
    destruct (E total eq_refl) as (l & H0 & H1 & H2 & H3).
    right. exists l, (latencies s). split; [exact H0|]. split; [exact H1|].
    split; [exact H2|]. split; [reflexivity|]. rewrite <- H3. exact Ea.
Qed.

Section ResultFacts.
Variable num_threads : Z.
Variable test_duration : Q.

Local Abbreviation step := (step Advanced num_threads test_duration).
Local Abbreviation exec := (exec Advanced num_threads test_duration).
Local Abbreviation main_inv := (main_inv num_threads test_duration).

Lemma result_inv_step s e s' :
  main_inv s -> result_inv s -> step s e = Some s' -> result_inv s'.
Proof.
  intros [_ Hm] Hi H. destruct e as [m|e|tid e].
  - unfold step, main_step in H. unfold result_inv in *.
    destruct (main s) eqn:Em; destruct m; simplify_eq.
    + destruct ok; simplify_eq; simpl; [|exact I].
      unfold next_spawn; destruct (_ <? _)%Z; exact I.
    + destruct ok; simplify_eq; simpl; [|exact I].
      unfold next_spawn; destruct (_ <? _)%Z; exact I.
    + destruct (time_sleep test_duration); simplify_eq; exact I.
    + exact I.
    + destruct (averages_cases test_duration s) as [[_ E]|[_ (dr & E & _)]];
        rewrite E in H; simplify_eq; simpl; [exact I|].
      unfold averages in E.
      destruct (py_div (inject_Z (total_bytes s)) MiB) as [mb|]; [|discriminate].
      cbn [bind] in E. destruct (py_div mb test_duration); [|discriminate].
      cbn [bind] in E. injection E as <-.
      unfold draft_inv; simpl.
      split; [apply prefix_nil|]. split; [apply prefix_nil|].
      repeat split; intros; discriminate.
    + simpl in H. simplify_eq. simpl.
      destruct Hm as (_ & _ & _ & Hg & _).
      pose proof (build_result_inv num_threads test_duration g d s Hg Hi) as Hb.
      destruct (build_result num_threads test_duration g d s); try exact I.
      * unfold draft_inv in *. exact Hb.
      * unfold returned_inv in *. exact Hb.
  - destruct (other_step_frame _ _ _ _ _ _ H ltac:(discriminate)) as (Hmain & _).
    destruct (appended_step _ _ _ _ _ _ H) as [H1 H2].
    unfold result_inv in *. rewrite Hmain. destruct (main s); auto.
    + exact (draft_inv_frame _ _ _ _ H1 H2 Hi).
    + exact (returned_inv_frame _ _ _ H1 H2 Hi).
  - destruct (other_step_frame _ _ _ _ _ _ H ltac:(discriminate)) as (Hmain & _).
    destruct (appended_step _ _ _ _ _ _ H) as [H1 H2].
    unfold result_inv in *. rewrite Hmain. destruct (main s); auto.
    + exact (draft_inv_frame _ _ _ _ H1 H2 Hi).
    + exact (returned_inv_frame _ _ _ H1 H2 Hi).
Qed.

Lemma result_inv_exec now sched s :
  exec (init now) sched = Some s -> result_inv s.
Proof.
  intros Hs.
  enough (H : main_inv s /\ result_inv s) by tauto.
  revert Hs.
  apply (exec_invariant Advanced num_threads test_duration
           (fun s => main_inv s /\ result_inv s)).
  - intros s0 e s1 [Hi Hr] He.
    split; [exact (main_inv_step _ _ _ _ _ _ Hi He)|].
    exact (result_inv_step _ _ _ Hi Hr He).
  - split; [apply main_inv_init | exact I].
Qed.

End ResultFacts.

(** ** One run: the byte counter, the sampler and the result *)

(** C8. The byte counter is [0] when the run starts, is never negative and
    never decreases from one step of the run to the next; the only step
    that changes it is a download thread adding, under the lock, the length
    of the chunk it has just received. *)
Theorem byte_counter_monotone which num_threads test_duration now sched s e s' :
  exec which num_threads test_duration (init now) sched = Some s ->
  step which num_threads test_duration s e = Some s' ->
  total_bytes (init now) = 0%Z /\
  (0 <= total_bytes s <= total_bytes s')%Z /\
  (total_bytes s' = total_bytes s \/
   exists thread_id len,
     e = Worker thread_id WAdd /\
     workers s !! thread_id = Some (WLocked len) /\
     total_bytes s' = (total_bytes s + Z.of_N len)%Z).
Proof.
  intros Hs He. split; [reflexivity|].
  pose proof (exec_total_bytes_le _ _ _ _ _ _ Hs) as H0. simpl in H0.
  pose proof (step_total_bytes_le _ _ _ _ _ _ He) as H1.
  split; [lia|]. exact (step_total_bytes _ _ _ _ _ _ He).
Qed.

(** In [two_second_run], the eighth step adds a chunk of 4096 bytes. *)
Lemma byte_counter_monotone_witness :
  let s := after Advanced 1 2 (mkEnv 0 (take 7 (schedule two_second_run))) in
  let s' := after Advanced 1 2 (mkEnv 0 (take 8 (schedule two_second_run))) in
  total_bytes s = 0%Z /\ total_bytes s' = 4096%Z /\
  (0 <= total_bytes s <= total_bytes s')%Z.
Proof.
  intros s s'.
  pose proof (byte_counter_monotone Advanced 1 2 0
                (take 7 (schedule two_second_run)) s (Worker 0 WAdd) s'
                ltac:(vm_compute; reflexivity) ltac:(vm_compute; reflexivity))
    as (_ & H & _).
  split; [reflexivity|]. split; [reflexivity|]. exact H.
Defined.

(** C10. The sampler never divides by zero: in a run it never raises, and
    an iteration whose elapsed time is not positive computes no speed and
    appends no sample, while an iteration whose elapsed time is positive
    divides by that time. *)
Theorem sampler_division_guarded which num_threads test_duration now sched s :
  exec which num_threads test_duration (init now) sched = Some s ->
  (forall x, monitor s <> MonRaised x) /\
  forall l t stamp,
    monitor s = MonSleep l ->
    ((t - last_time l <= 0)%Q ->
     tick_speed l t (total_bytes s) = Ok None /\
     exists s', step which num_threads test_duration s (Monitor (Wake t stamp)) = Some s' /\
                monitor s' = MonWhile (mkLocals (total_bytes s) t) /\
                download_speeds s' = download_speeds s) /\
    ((0 < t - last_time l)%Q ->
     step which num_threads test_duration s (Monitor (Wake t stamp)) =
       Some (set_monitor
               (MonAppend l (mkTick t (total_bytes s)
                               (inject_Z (total_bytes s - last_bytes l)
                                / (t - last_time l) / MiB)%Q stamp))
               (log Tick s))).
Proof.
  intros Hs. split; [exact (monitor_not_raised_exec _ _ _ _ _ _ Hs)|].
  intros l t stamp Hm. unfold step, monitor_step. rewrite Hm. simpl.
  rewrite tick_speed_total. split; intros Ht.
  - apply py_gt_false_iff in Ht. rewrite Ht. split; [reflexivity|].
    eexists. split; [reflexivity|]. simpl. auto.
  - apply py_gt_iff in Ht. rewrite Ht. reflexivity.
Qed.

(** In [two_second_run] the sampler is asleep after four steps; a clock
    that has not advanced yields no sample. *)
Lemma sampler_division_guarded_witness :
  let s := after Advanced 1 2 (mkEnv 0 (take 4 (schedule two_second_run))) in
  monitor s = MonSleep (mkLocals 0 0) /\
  tick_speed (mkLocals 0 0) 0 (total_bytes s) = Ok None.
Proof.
  intros s.
  pose proof (sampler_division_guarded Advanced 1 2 0
                (take 4 (schedule two_second_run)) s
                ltac:(vm_compute; reflexivity)) as [_ H].
  specialize (H (mkLocals 0 0) 0%Q 0%Q ltac:(vm_compute; reflexivity)).
  destruct H as [H _].
  split; [reflexivity|]. apply H. vm_compute. discriminate.
Defined.

Lemma single_test_inv num_threads test_duration env r :
  single_test num_threads test_duration env = Some (Ok r) ->
  exists s,
    exec Advanced num_threads test_duration (init (clock env)) (schedule env) = Some s /\
    main s = MainReturned r.
Proof.
  unfold single_test. intros H.
  destruct (exec _ _ _ _ _) as [s|]; [|discriminate].
  exists s. split; [reflexivity|].
  destruct (main s); simplify_eq; reflexivity.
Qed.

Lemma single_test_result_from num_threads test_duration env r :
  single_test num_threads test_duration env = Some (Ok r) ->
  (0 < test_duration)%Q /\
  exists bytes, (0 <= bytes)%Z /\ result_from test_duration bytes r.
Proof.
  intros H. destruct (single_test_inv _ _ _ _ H) as (s & Hs & Hm).
  pose proof (main_inv_exec _ _ _ _ _ _ Hs) as [_ Hi]. rewrite Hm in Hi.
  destruct Hi as (_ & Hd & _ & bytes & Hb & Hr).
  split; [exact Hd|]. exists bytes. split; [lia | exact Hr].
Qed.
Lemma Qdiv_nonneg (a b : Q) : (0 <= a)%Q -> (0 < b)%Q -> (0 <= a / b)%Q.
Proof.
  intros Ha Hb. unfold Qdiv. apply Qmult_le_0_compat; [exact Ha|].
  apply Qlt_le_weak. now apply Qinv_lt_0_compat.
Qed.

Lemma MiB_pos : (0 < MiB)%Q.
Proof. reflexivity. Qed.

(** A sub-run that returns reports a speed that is not negative. *)
Lemma single_test_avg_speed_nonneg num_threads test_duration env r :
  single_test num_threads test_duration env = Some (Ok r) ->
  (0 <= TestResult.avg_speed r)%Q.
Proof.
  intros H. destruct (single_test_result_from _ _ _ _ H)
    as (Hd & bytes & Hb & (_ & _ & ->)).
  apply Qdiv_nonneg; [|exact Hd]. apply Qdiv_nonneg; [|exact MiB_pos].
  unfold Qle. simpl. lia.
Qed.

(** C3. The average speed that a finished run reports is the byte counter,
    read by the final statistics after [running] was cleared, divided by
    [1024 * 1024] and then by the configured duration; the samples do not
    enter it. *)
Theorem average_from_total_bytes which num_threads test_duration now sched s avg :
  exec which num_threads test_duration (init now) sched = Some s ->
  reported_average (main s) = Some avg ->
  exists pre post s0,
    sched = pre ++ Main Stats :: post /\
    exec which num_threads test_duration (init now) pre = Some s0 /\
    running s0 = false /\
    ~ (test_duration == 0)%Q /\
    avg = (inject_Z (total_bytes s0) / MiB / test_duration)%Q.
Proof.
  intros Hs Ha.
  destruct (carried_split which num_threads test_duration sched _ _ _
              Hs eq_refl (reported_carried _ _ Ha))
    as (pre & post & s0 & Hsched & Hpre & Hm & Hd & Havg).
  exists pre, post, s0. split; [exact Hsched|]. split; [exact Hpre|].
  pose proof (main_inv_exec _ _ _ _ _ _ Hpre) as [_ Hi]. rewrite Hm in Hi.
  destruct Hi as (_ & _ & Hr). auto.
Qed.
(** In [two_second_run] the caller reads 12288 bytes after two seconds. *)
Lemma average_from_total_bytes_witness :
  exists pre post s0,
    schedule two_second_run = pre ++ Main Stats :: post /\
    exec Advanced 1 2 (init 0) pre = Some s0 /\
    running s0 = false /\
    ~ (2 == 0)%Q /\
    (inject_Z 12288 / MiB / 2)%Q = (inject_Z (total_bytes s0) / MiB / 2)%Q.
Proof.
  exact (average_from_total_bytes Advanced 1 2 0 (schedule two_second_run)
           (after Advanced 1 2 two_second_run)
           (inject_Z 12288 / MiB / 2)%Q
           ltac:(vm_compute; reflexivity) ltac:(vm_compute; reflexivity)).
Defined.

(** The result of [two_second_run] holds a single sample, whose speed is
    not the average speed: the average is not the mean of the samples. *)
Lemma average_is_not_sample_mean :
  exists r mean,
    single_test 1 2 two_second_run = Some (Ok r) /\
    sample_mean (TestResult.download_speeds r) = Ok mean /\
    (mean == 1 # 256)%Q /\ (TestResult.avg_speed r == 3 # 512)%Q.
Proof.
  eexists. eexists. split; [vm_compute; reflexivity|].
  split; [vm_compute; reflexivity|]. split; reflexivity.
Qed.

(** C7 (amended). The dictionary that [single_test] returns always holds
    numbers as its greatest and least speed and as its average latency.
    When no sample has been recorded by the time it is returned, or at any
    later moment of the run, its sample list is empty and both speeds are
    the number [0]; when no latency has been recorded, its latency list is
    empty and the average latency is [0]. *)
Theorem empty_sequences_report_zero num_threads test_duration now sched s r :
  exec Advanced num_threads test_duration (init now) sched = Some s ->
  main s = MainReturned r ->
  (download_speeds s = [] ->
   TestResult.download_speeds r = [] /\
   TestResult.max_speed r = 0%Q /\ TestResult.min_speed r = 0%Q) /\
  (latencies s = [] ->
   TestResult.latencies r = [] /\ TestResult.avg_latency r = 0%Q).
Proof.
  intros Hs Hm. pose proof (result_inv_exec _ _ _ _ _ Hs) as Hi.
  unfold result_inv in Hi. rewrite Hm in Hi.
  destruct Hi as (A & B & C & D & E). split.
  - intros Hn. rewrite Hn in A, C, D. split; [exact (prefix_of_nil _ A)|]. split.
    + destruct C as [[C _]|(l & _ & Hl & C)]; [exact C|].
      apply prefix_of_nil in Hl. subst l. discriminate.
    + destruct D as [[D _]|(l & _ & Hl & D)]; [exact D|].
      apply prefix_of_nil in Hl. subst l. discriminate.
  - intros Hn. rewrite Hn in B, E. split; [exact (prefix_of_nil _ B)|].
    destruct E as [[E _]|(l & l' & Hne & _ & Hl & Hl' & _)]; [exact E|].
    apply prefix_of_nil in Hl'. subst l'. apply prefix_of_nil in Hl. contradiction.
Qed.

(** In a run of half a second the sampler has recorded nothing. *)
Lemma empty_sequences_report_zero_witness :
  let s := after Advanced 1 (1 # 2) (plain_run 1 [8192%N]) in
  let r := TestResult.mk 1 (1 # 2) (inject_Z 8192 / MiB)
                         (inject_Z 8192 / MiB / (1 # 2)) [] [] 0 0 0 in
  download_speeds s = [] /\
  TestResult.max_speed r = 0%Q /\ TestResult.min_speed r = 0%Q.
Proof.
  intros s r. split; [reflexivity|].
  apply (empty_sequences_report_zero 1 (1 # 2) 0
           (schedule (plain_run 1 [8192%N])) s r
           ltac:(vm_compute; reflexivity) ltac:(vm_compute; reflexivity)).
  reflexivity.
Defined.

(** C7 as stated fails: a run of half a second, in which the sampler has
    appended nothing, still reports numbers. *)
Lemma empty_sequences_are_not_omitted :
  exists r,
    single_test 1 (1 # 2) (plain_run 1 [8192%N]) = Some (Ok r) /\
    TestResult.download_speeds r = [] /\ TestResult.latencies r = [] /\
    TestResult.max_speed r = 0%Q /\ TestResult.min_speed r = 0%Q /\
    TestResult.avg_latency r = 0%Q.
Proof.
  eexists. split; [vm_compute; reflexivity|]. simpl. auto 6.
Qed.

(** An empty sample list in the dictionary does not make the speeds [0]:
    in [late_sample_run] the sampler, which nothing joins, appends its
    sample after the deques were copied and before [max_speed] is
    computed. *)
Lemma empty_list_beside_a_maximum :
  exists r,
    single_test 1 1 late_sample_run = Some (Ok r) /\
    TestResult.download_speeds r = [] /\ TestResult.latencies r = [] /\
    (TestResult.max_speed r == 1 # 256)%Q /\
    (TestResult.min_speed r == 1 # 256)%Q /\
    (TestResult.avg_latency r == 20)%Q.
Proof.
  eexists. split; [vm_compute; reflexivity|]. simpl.
  repeat split; reflexivity.
Qed.

(** [single_test] raises when the sampler appends while the caller iterates
    over a deque. *)
Lemma deque_mutated_during_iteration :
  single_test 1 2 mutated_deque_run = Some (Raise RuntimeError).
Proof. vm_compute. reflexivity. Qed.
Section NoWorkers.
Variable which : tool.
Variable num_threads : Z.
Variable test_duration : Q.

(** Without download threads nothing is ever added to the counter. *)
Lemma no_workers_exec now sched s :
  (num_threads < 1)%Z ->
  exec which num_threads test_duration (init now) sched = Some s ->
  workers s = [] /\ total_bytes s = 0%Z.
Proof.
  intros Hn Hs.
  enough (H : main_inv num_threads test_duration s /\
              workers s = [] /\ total_bytes s = 0%Z) by tauto.
  revert Hs.
  apply (exec_invariant which num_threads test_duration
           (fun s => main_inv num_threads test_duration s /\
                     workers s = [] /\ total_bytes s = 0%Z)).
  - intros s0 e s1 (Hi & Hw & Hb) He.
    split; [exact (main_inv_step _ _ _ _ _ _ Hi He)|].
    destruct e as [m|e|tid e].
    + destruct Hi as [_ Hi].
      unfold step, main_step in He.
      destruct (main s0) eqn:Em; destruct m; simplify_eq; simpl; auto.
      * destruct ok; simplify_eq; simpl; auto.
      * destruct Hi as (_ & _ & Hi). lia.
      * case_match; simplify_eq; simpl; auto.
      * case_match; simplify_eq; simpl; auto.
      * case_match; simplify_eq; simpl; auto.
    + invert_step He; simpl; auto.
    + unfold step, worker_step in He. rewrite Hw in He. discriminate.
  - split; [apply main_inv_init|]. simpl. auto.
Qed.
End NoWorkers.

(** C2 (amended). Neither [single_test] nor [run_test] validates its
    configuration. With a worker count below 1 the run is carried out by
    the sampler alone: no download thread exists, the byte counter stays
    [0], and a run that finishes reports an average speed of [0]. With a
    duration that is not positive the run never produces a result, and
    unless [Thread.start] fails first, the sampler and every download
    thread have been started when the error is raised: [ZeroDivisionError]
    for the division by a duration of [0], and for a negative duration the
    error of [time.sleep], [ValueError] or, for a duration beyond the range
    of the clock, [OverflowError]. *)
Theorem runs_are_not_validated which num_threads test_duration now sched s :
  exec which num_threads test_duration (init now) sched = Some s ->
  ((num_threads < 1)%Z ->
   workers s = [] /\ total_bytes s = 0%Z /\
   forall avg, reported_average (main s) = Some avg ->
               (avg == 0)%Q /\ In (Started Sampler) (history s)) /\
  ((test_duration <= 0)%Q ->
   reported_average (main s) = None /\
   forall e, main s = MainRaised e ->
             e = RuntimeError \/
             (launched num_threads s /\
              (((test_duration == 0)%Q /\ e = ZeroDivisionError) \/
               ((test_duration < 0)%Q /\
                time_sleep test_duration = Raise e /\
                (e = ValueError \/ e = OverflowError))))).
Proof.
  intros Hs. pose proof (main_inv_exec _ _ _ _ _ _ Hs) as [Hb Hi]. split.
  - intros Hn.
    destruct (no_workers_exec _ _ _ _ _ _ Hn Hs) as [Hw Ht].
    split; [exact Hw|]. split; [exact Ht|]. intros avg Ha.
    destruct (main s); simpl in Ha; simplify_eq.
    + destruct Hi as ([Hl _] & Hd & _ & bytes & Hbytes & (_ & _ & ->)).
      split; [|exact Hl]. assert (bytes = 0%Z) as -> by lia.
      unfold Qdiv. rewrite !Qmult_0_l. reflexivity.
    + destruct Hi as ([Hl _] & Hd & _ & bytes & Hbytes & (_ & ->)).
      split; [|exact Hl]. assert (bytes = 0%Z) as -> by lia.
      unfold Qdiv. rewrite !Qmult_0_l. reflexivity.
  - intros Hd. split.
    + destruct (main s); try reflexivity;
        destruct Hi as (_ & Hpos & _); destruct (Qlt_not_le _ _ Hpos Hd).
    + intros e He. rewrite He in Hi. destruct Hi as [Hi|[Hl Hi]]; [now left|].
      right. split; [exact Hl|]. destruct Hi as [Hi|(-> & Hi & _)]; [|auto].
      right.
      destruct (time_sleep_cases test_duration) as [[E _]|[[E Hn]|[E Hn]]];
        rewrite E in Hi; simplify_eq.
      * rewrite E. auto.
      * rewrite E. split; [|auto]. apply Qle_lt_or_eq in Hd.
        destruct Hd as [Hd|Hd]; [exact Hd | contradiction].
Qed.

(** In [zero_length_run] without download threads the division fails after
    the sampler was started. *)
Lemma runs_are_not_validated_witness :
  let env := mkEnv 0 [Main (Start true); Main Sleep; Main Stop; Main Stats] in
  let s := after Advanced 0 0 env in
  main s = MainRaised ZeroDivisionError /\ launched 0 s /\ total_bytes s = 0%Z.
Proof.
  intros env s.
  destruct (runs_are_not_validated Advanced 0 0 0 (schedule env) s
              ltac:(vm_compute; reflexivity)) as [H1 H2].
  destruct (H1 ltac:(lia)) as (_ & Ht & _).
  destruct (H2 ltac:(vm_compute; discriminate)) as [_ He].
  split; [reflexivity|].
  destruct (He ZeroDivisionError eq_refl) as [?|[Hl _]]; [discriminate|].
  split; [exact Hl | exact Ht].
Defined.

(** C2 as stated fails. With a worker count of 0, [single_test] and
    [run_test] return a result, after the sampler was started and has sent
    a request; with a duration of 0, [single_test] raises only after the
    download thread was started and has sent its request; with a negative
    duration both threads are started before [time.sleep] raises. *)
Lemma invalid_configurations_are_run :
  (exists r, single_test 0 1 sampler_only_run = Some (Ok r)) /\
  (exists r, run_test 0 1 sampler_only_report = Some (Ok r)) /\
  history (after Advanced 0 1 sampler_only_run)
    = [Started Sampler; Tick; HttpHead] /\
  single_test 1 0 zero_length_run = Some (Raise ZeroDivisionError) /\
  history (after Advanced 1 0 zero_length_run)
    = [Started Sampler; Started (Downloader 0); HttpGet 0] /\
  single_test 1 (-1) refused_sleep_run = Some (Raise ValueError) /\
  single_test 1 (-10000000000) refused_sleep_run = Some (Raise OverflowError) /\
  history (after Advanced 1 (-1) refused_sleep_run)
    = [Started Sampler; Started (Downloader 0)].
Proof.
  split; [eexists; vm_compute; reflexivity|].
  split; [eexists; vm_compute; reflexivity|].
  repeat split; vm_compute; reflexivity.
Qed.

(** A duration beyond the range of the clock is refused by [time.sleep]
    also when it is positive. *)
Lemma long_sleep_overflows :
  single_test 1 10000000000 refused_sleep_run = Some (Raise OverflowError).
Proof. vm_compute. reflexivity. Qed.

(** ** The sampler after [running] is cleared *)

Lemma ticks_app h a :
  ticks (h ++ [a]) = (ticks h + match a with Tick => 1 | _ => 0 end)%nat.
Proof.
  unfold ticks. rewrite List.filter_app, length_app. destruct a; reflexivity.
Qed.

Section Cancellation.
Variable which : tool.
Variable num_threads : Z.
Variable test_duration : Q.

Local Abbreviation step := (step which num_threads test_duration).
Local Abbreviation exec := (exec which num_threads test_duration).

Lemma step_running_false s e s' :
  step s e = Some s' -> running s = false -> running s' = false.
Proof.
  intros H Hr. destruct e as [m|e|tid e].
  - destruct (main_step_cases _ _ _ _ _ _ H)
      as [[pc ->]|[(_ & _ & ->)|[(i & _ & _ & ->)|(_ & _ & ->)]]];
      simpl; auto.
  - destruct (other_step_frame _ _ _ _ _ _ H ltac:(discriminate)) as (_ & -> & _).
    exact Hr.
  - destruct (other_step_frame _ _ _ _ _ _ H ltac:(discriminate)) as (_ & -> & _).
    exact Hr.
Qed.

(** Once the sampler is started the caller never starts it again. *)
Lemma step_sampler_started s e s' :
  step s e = Some s' -> main s <> MainStartMonitor -> main s' <> MainStartMonitor.
Proof.
  intros H Hm. destruct e as [m|e|tid e].
  - unfold step, main_step in H.
    destruct (main s) eqn:Em; destruct m; simplify_eq; try congruence.
    + destruct ok; simplify_eq; simpl; [|discriminate].
      unfold next_spawn. destruct (_ <? _)%Z; discriminate.
    + destruct (time_sleep test_duration); simplify_eq; discriminate.
    + discriminate.
    + destruct (averages test_duration s); simplify_eq; discriminate.
    + destruct (build which num_threads test_duration g d s) as [pc|] eqn:E;
        simplify_eq. simpl.
      destruct (build_carried _ _ _ _ _ _ _ E) as [Hc|[x ->]]; [|discriminate].
      intros Hz. rewrite Hz in Hc. discriminate.
  - destruct (other_step_frame _ _ _ _ _ _ H ltac:(discriminate)) as (-> & _).
    exact Hm.
  - destruct (other_step_frame _ _ _ _ _ _ H ltac:(discriminate)) as (-> & _).
    exact Hm.
Qed.

(** A step of another thread leaves the sampler and its samples alone. *)
Lemma non_monitor_frame s e s' :
  step s e = Some s' -> (forall m, e <> Monitor m) ->
  main s <> MainStartMonitor ->
  monitor s' = monitor s /\ download_speeds s' = download_speeds s /\
  ticks (history s') = ticks (history s).
Proof.
  intros H Hm Hs. destruct e as [m|e|tid e]; [| now destruct (Hm e) |].
  - destruct (main_step_cases _ _ _ _ _ _ H)
      as [[pc ->]|[(Hz & _ & ->)|[(i & _ & _ & ->)|(_ & _ & ->)]]];
      [| contradiction | |]; simpl; rewrite ?ticks_app;
      repeat split; simpl; try reflexivity; lia.
  - invert_step H; simpl; rewrite ?ticks_app;
      repeat split; simpl; try reflexivity; lia.
Qed.

Lemma past_readings_step s e s' :
  step s e = Some s' -> running s = false -> main s <> MainStartMonitor ->
  past_readings (monitor s) = true ->
  past_readings (monitor s') = true /\
  ticks (history s') = ticks (history s) /\
  download_speeds s' ++ owed (monitor s') = download_speeds s ++ owed (monitor s).
Proof.
  intros H Hr Hs Hp. destruct e as [m|e|tid e].
  - destruct (non_monitor_frame _ _ _ H ltac:(discriminate) Hs) as (E1 & E2 & E3).
    rewrite E1, E2, E3. auto.
  - unfold step, monitor_step in H.
    destruct (monitor s) eqn:Em; destruct e; simplify_eq; try discriminate.
    + rewrite Hr. simpl. auto.
    + simpl. rewrite app_nil_r. auto.
    + destruct (tick_average_total
                  (start_time (if latency_truthy latency
                     then set_latencies (latencies (log HttpHead s) ++ [(timestamp v, default 0%Q latency)]) (log HttpHead s)
                     else log HttpHead s)) v) as [q Hq].
      rewrite Hq in H. simplify_eq.
      destruct (latency_truthy latency); simpl;
        rewrite ticks_app, Nat.add_0_r; auto.
  - destruct (non_monitor_frame _ _ _ H ltac:(discriminate) Hs) as (E1 & E2 & E3).
    rewrite E1, E2, E3. auto.
Qed.

Lemma past_readings_exec sched : forall s s',
  exec s sched = Some s' -> running s = false -> main s <> MainStartMonitor ->
  past_readings (monitor s) = true ->
  ticks (history s') = ticks (history s) /\
  download_speeds s' ++ owed (monitor s') = download_speeds s ++ owed (monitor s).
Proof.
  induction sched as [|e sched IH]; intros s s' H Hr Hs Hp; simpl in H.
  - simplify_eq. auto.
  - destruct (step s e) as [s1|] eqn:E; [|discriminate].
    destruct (past_readings_step _ _ _ E Hr Hs Hp) as (Hp1 & Ht & Hd).
    destruct (IH s1 s' H (step_running_false _ _ _ E Hr)
                (step_sampler_started _ _ _ E Hs) Hp1) as [Ht' Hd'].
    split; congruence.
Qed.

(** The sampler asleep when [running] is already cleared: it wakes once. *)
Lemma asleep_exec sched : forall s s' l,
  exec s sched = Some s' -> running s = false -> main s <> MainStartMonitor ->
  monitor s = MonSleep l -> monitor s' = MonExit ->
  exists t stamp bytes,
    ticks (history s') = S (ticks (history s)) /\
    (total_bytes s <= bytes <= total_bytes s')%Z /\
    download_speeds s' =
      download_speeds s ++
        (if py_gt (t - last_time l) 0
         then [(stamp, (inject_Z (bytes - last_bytes l) / (t - last_time l) / MiB)%Q)]
         else []).
Proof.
  induction sched as [|e sched IH]; intros s s' l H Hr Hs Hm Hx; simpl in H.
  - simplify_eq. congruence.
  - destruct (step s e) as [s1|] eqn:E; [|discriminate].
    pose proof (step_running_false _ _ _ E Hr) as Hr1.
    pose proof (step_sampler_started _ _ _ E Hs) as Hs1.
    pose proof (step_total_bytes_le _ _ _ _ _ _ E) as Hle.
    destruct e as [m|m|tid m].
    + destruct (non_monitor_frame _ _ _ E ltac:(discriminate) Hs) as (E1 & E2 & E3).
      rewrite Hm in E1.
      destruct (IH s1 s' l H Hr1 Hs1 E1 Hx) as (t & stamp & bytes & Ht & Hb & Hd).
      exists t, stamp, bytes. rewrite <- E2, <- E3. split; [exact Ht|].
      split; [lia | exact Hd].
    + unfold step, monitor_step in E. rewrite Hm in E.
      destruct m; simplify_eq. cbn zeta in E. rewrite tick_speed_total in E.
      pose proof (exec_total_bytes_le _ _ _ _ _ _ H) as Hle'.
      exists now, stamp, (total_bytes s).
      destruct (py_gt (now - last_time l) 0) eqn:Eg; simplify_eq;
        (destruct (past_readings_exec _ _ _ H Hr1 Hs1 eq_refl) as [Ht Hd]);
        rewrite Hx in Hd; simpl in Hd, Ht, Hle'; rewrite app_nil_r in Hd;
        rewrite ticks_app in Ht; simpl in Ht;
        (split; [lia|]); (split; [lia|]); rewrite Hd; try rewrite app_nil_r;
        reflexivity.
    + destruct (non_monitor_frame _ _ _ E ltac:(discriminate) Hs) as (E1 & E2 & E3).
      rewrite Hm in E1.
      destruct (IH s1 s' l H Hr1 Hs1 E1 Hx) as (t & stamp & bytes & Ht & Hb & Hd).
      exists t, stamp, bytes. rewrite <- E2, <- E3. split; [exact Ht|].
      split; [lia | exact Hd].
Qed.

(** The sampler is never blocked: asleep with [running] cleared, it can run
    its last iteration and exit. *)
Lemma sampler_can_finish s l t stamp latency :
  running s = false -> monitor s = MonSleep l ->
  exists s', exec s (last_iteration l t stamp latency) = Some s' /\
             monitor s' = MonExit.
Proof.
  intros Hr Hm. unfold last_iteration.
  assert (Hwake : step s (Monitor (Wake t stamp)) =
            Some (set_monitor
                    (if py_gt (t - last_time l) 0
                     then MonAppend l (mkTick t (total_bytes s)
                            (inject_Z (total_bytes s - last_bytes l)
                             / (t - last_time l) / MiB)%Q stamp)
                     else MonWhile (mkLocals (total_bytes s) t))
                    (log Tick s))).
  { unfold step, monitor_step. rewrite Hm. cbv zeta.
    rewrite tick_speed_total. simpl. destruct (py_gt _ 0); reflexivity. }
  cbn [app exec]. rewrite Hwake.
  destruct (py_gt (t - last_time l) 0).
  - cbn [app exec]. unfold step at 1, monitor_step at 1. cbn [monitor set_monitor].
    unfold step at 1, monitor_step at 1. cbn [monitor set_monitor].
    match goal with
    | |- context [tick_average ?a ?v] =>
        destruct (tick_average_total a v) as [q Hq]; rewrite Hq
    end.
    unfold step at 1, monitor_step at 1. cbn [monitor set_monitor].
    eexists. split; [reflexivity|].
    destruct (latency_truthy latency); simpl; now rewrite Hr.
  - cbn [app exec]. unfold step at 1, monitor_step at 1. cbn [monitor set_monitor].
    eexists. split; [reflexivity|]. simpl. now rewrite Hr.
Qed.
End Cancellation.

(** C9 (amended). When [running] is cleared while the sampler is in its
    one-second sleep, the sampler performs exactly one more iteration
    before it exits: it can always run that iteration to its exit, and
    whenever it has exited it has read the counter once more, at a value
    that is at least the value at cancellation, and, when its clock had
    advanced, has appended one final sample computed from the whole
    difference to the counter value of the previous iteration. Nothing
    waits for the sampler: this holds whatever the other threads do in
    between. *)
Theorem final_tick_when_asleep which num_threads test_duration now pre s l :
  exec which num_threads test_duration (init now) pre = Some s ->
  running s = false ->
  monitor s = MonSleep l ->
  (forall t stamp latency,
     exists s',
       exec which num_threads test_duration s (last_iteration l t stamp latency)
         = Some s' /\
       monitor s' = MonExit) /\
  (forall post s',
     exec which num_threads test_duration s post = Some s' ->
     monitor s' = MonExit ->
     exists t stamp bytes,
       ticks (history s') = S (ticks (history s)) /\
       (total_bytes s <= bytes <= total_bytes s')%Z /\
       download_speeds s' =
         download_speeds s ++
           (if py_gt (t - last_time l) 0
            then [(stamp,
                   (inject_Z (bytes - last_bytes l) / (t - last_time l) / MiB)%Q)]
            else [])).
Proof.
  intros Hpre Hr Hm. split.
  - intros t stamp latency.
    exact (sampler_can_finish which num_threads test_duration s l t stamp latency
             Hr Hm).
  - intros post s' Hpost Hx.
    apply (asleep_exec which num_threads test_duration post s s' l); auto.
    pose proof (main_inv_exec _ _ _ _ _ _ Hpre) as [_ Hi].
    intros Hs. rewrite Hs in Hi. destruct Hi as (_ & _ & Hi). congruence.
Qed.

(** In [two_second_run] the sampler is asleep when [running] is cleared
    (after 16 steps) and wakes once more. *)
Lemma final_tick_when_asleep_witness :
  let s := after Advanced 1 2 (mkEnv 0 (take 16 (schedule two_second_run))) in
  let s' := after Advanced 1 2 two_second_run in
  exists t stamp bytes,
    ticks (history s') = S (ticks (history s)) /\
    (total_bytes s <= bytes <= total_bytes s')%Z /\
    download_speeds s' =
      download_speeds s ++
        (if py_gt (t - 1) 0
         then [(stamp, (inject_Z (bytes - 4096) / (t - 1) / MiB)%Q)]
         else []).
Proof.
  intros s s'.
  exact (proj2 (final_tick_when_asleep Advanced 1 2 0
                  (take 16 (schedule two_second_run)) s (mkLocals 4096 1)
                  ltac:(vm_compute; reflexivity) ltac:(vm_compute; reflexivity)
                  ltac:(vm_compute; reflexivity))
               (drop 16 (schedule two_second_run)) s'
               ltac:(vm_compute; reflexivity) ltac:(vm_compute; reflexivity)).
Defined.

(** C9 as stated fails. In [cancelled_in_probe_run] the counter holds 8192
    bytes when [running] is cleared and the sampler has last read 0; the
    sampler exits without another iteration and its only sample is 0. In
    [two_second_run] the caller has returned a result with one sample while
    the sampler, which nothing joins, still appends a second one. *)
Lemma final_delta_can_be_dropped :
  let s := after Advanced 1 1 (mkEnv 0 (take 12 (schedule cancelled_in_probe_run))) in
  let s' := after Advanced 1 1 cancelled_in_probe_run in
  (running s = false /\ total_bytes s = 8192%Z /\
   monitor s' = MonExit /\
   ticks (history s') = ticks (history s) /\
   exists x, download_speeds s' = [(1%Q, x)] /\ (x == 0)%Q) /\
  (exists r, main (after Advanced 1 2 two_second_run) = MainReturned r /\
             length (TestResult.download_speeds r) = 1%nat /\
             length (download_speeds (after Advanced 1 2 two_second_run)) = 2%nat).
Proof.
  split.
  - split; [vm_compute; reflexivity|]. split; [vm_compute; reflexivity|].
    split; [vm_compute; reflexivity|]. split; [vm_compute; reflexivity|].
    eexists. split; [vm_compute; reflexivity|]. reflexivity.
  - eexists. split; [vm_compute; reflexivity|].
    split; vm_compute; reflexivity.
Qed.


(** ** Doubles: order and sign *)

#[global] Arguments fge : simpl never.
#[global] Arguments fgt : simpl never.
#[global] Arguments feq : simpl never.
#[global] Arguments fsub : simpl never.
#[global] Arguments fmul : simpl never.
#[global] Arguments fdiv : simpl never.

Lemma below_trans a b c : below a b -> below b c -> below a c.
Proof. unfold below. lia. Qed.

Lemma below_irrefl a : ~ below a a.
Proof. unfold below. lia. Qed.

Lemma below_total a b : below a b \/ a = b \/ below b a.
Proof.
  destruct a as [[a1 a2] a3], b as [[b1 b2] b3]. unfold below. simpl.
  destruct (Z.lt_total a1 b1) as [H|[H|H]]; [lia| |lia]. subst.
  destruct (Z.lt_total a2 b2) as [H|[H|H]]; [lia| |lia]. subst.
  destruct (Z.lt_total a3 b3) as [H|[H|H]]; [lia| |lia]. subst. auto.
Qed.

(** [SFcompare] on numbers is the lexicographic comparison of the keys. *)
Lemma SFcompare_key x y :
  number x -> number y ->
  match SFcompare x y with
  | Some Lt => below (key x) (key y)
  | Some Eq => key x = key y
  | Some Gt => below (key y) (key x)
  | None => False
  end.
Proof.
  unfold number, below.
  destruct x as [sx|sx| |sx mx ex], y as [sy|sy| |sy my ey]; intros Hx Hy;
    try congruence; try destruct sx; try destruct sy; simpl; try lia;
    try reflexivity.
  - destruct (Z.compare_spec ex ey) as [->|H|H]; simpl; try lia.
    change (Pos.compare_cont Eq mx my) with (mx ?= my)%positive.
    destruct (Pos.compare_spec mx my) as [->|H|H]; simpl; try lia. reflexivity.
  - destruct (Z.compare_spec ex ey) as [->|H|H]; simpl; try lia.
    change (Pos.compare_cont Eq mx my) with (mx ?= my)%positive.
    destruct (Pos.compare_spec mx my) as [->|H|H]; simpl; try lia. reflexivity.
Qed.

Lemma SFcompare_number x y c : SFcompare x y = Some c -> number x /\ number y.
Proof.
  unfold number. destruct x, y; simpl; intros H; split; congruence.
Qed.

Lemma fgt_iff a b : fgt a b = true <-> number a /\ number b /\ below (key b) (key a).
Proof.
  unfold fgt, SFltb. split.
  - intros H. destruct (SFcompare b a) as [c|] eqn:E; [|discriminate].
    destruct (SFcompare_number _ _ _ E) as [Hb Ha].
    pose proof (SFcompare_key b a Hb Ha) as Hk. rewrite E in Hk.
    destruct c; try discriminate. auto.
  - intros (Ha & Hb & Hlt). pose proof (SFcompare_key b a Hb Ha) as Hk.
    destruct (SFcompare b a) as [[| |]|]; try reflexivity; try contradiction.
    + rewrite Hk in Hlt. destruct (below_irrefl _ Hlt).
    + destruct (below_irrefl _ (below_trans _ _ _ Hlt Hk)).
Qed.

Lemma fge_iff a b : fge a b = true <-> number a /\ number b /\ ~ below (key a) (key b).
Proof.
  unfold fge, SFleb. split.
  - intros H. destruct (SFcompare b a) as [c|] eqn:E; [|discriminate].
    destruct (SFcompare_number _ _ _ E) as [Hb Ha].
    pose proof (SFcompare_key b a Hb Ha) as Hk. rewrite E in Hk.
    split; [exact Ha|]. split; [exact Hb|]. intros Hlt.
    destruct c; try discriminate.
    + rewrite Hk in Hlt. destruct (below_irrefl _ Hlt).
    + destruct (below_irrefl _ (below_trans _ _ _ Hlt Hk)).
  - intros (Ha & Hb & Hlt). pose proof (SFcompare_key b a Hb Ha) as Hk.
    destruct (SFcompare b a) as [[| |]|]; try reflexivity; contradiction.
Qed.

Lemma feq_iff a b : feq a b = true <-> number a /\ number b /\ key a = key b.
Proof.
  unfold feq, SFeqb. split.
  - intros H. destruct (SFcompare a b) as [c|] eqn:E; [|discriminate].
    destruct (SFcompare_number _ _ _ E) as [Ha Hb].
    pose proof (SFcompare_key a b Ha Hb) as Hk. rewrite E in Hk.
    destruct c; try discriminate. auto.
  - intros (Ha & Hb & Heq). pose proof (SFcompare_key a b Ha Hb) as Hk.
    destruct (SFcompare a b) as [[| |]|]; try reflexivity; try contradiction.
    + rewrite Heq in Hk. destruct (below_irrefl _ Hk).
    + rewrite Heq in Hk. destruct (below_irrefl _ Hk).
Qed.

Lemma fgt_false_iff a b :
  number a -> number b -> fgt a b = false <-> ~ below (key b) (key a).
Proof.
  intros Ha Hb. split.
  - intros H Hlt. assert (fgt a b = true) by (apply fgt_iff; auto). congruence.
  - intros H. destruct (fgt a b) eqn:E; [|reflexivity].
    apply fgt_iff in E as (_ & _ & E). contradiction.
Qed.

Lemma fge_refl a : number a -> fge a a = true.
Proof. intros H. apply fge_iff. split; [exact H|]. split; [exact H|]. apply below_irrefl. Qed.

Lemma feq_refl a : number a -> feq a a = true.
Proof. intros H. apply feq_iff. auto. Qed.

(** [a > b >= c] gives [a >= c], and excludes [c == a]. *)
Lemma fgt_fge_trans a b c : fgt a b = true -> fge b c = true -> fge a c = true.
Proof.
  rewrite fgt_iff, !fge_iff. intros (Ha & Hb & Hab) (_ & Hc & Hbc).
  split; [exact Ha|]. split; [exact Hc|]. intros Hac.
  destruct (below_total (key b) (key c)) as [H|[H|H]]; [contradiction| |].
  - rewrite H in Hab. destruct (below_irrefl _ (below_trans _ _ _ Hab Hac)).
  - destruct (below_irrefl _ (below_trans _ _ _ H (below_trans _ _ _ Hab Hac))).
Qed.

Lemma fgt_fge_neq a b c : fgt a b = true -> fge b c = true -> feq c a = false.
Proof.
  rewrite fgt_iff, fge_iff. intros (Ha & Hb & Hab) (_ & Hc & Hbc).
  destruct (feq c a) eqn:E; [|reflexivity].
  apply feq_iff in E as (_ & _ & E). rewrite <- E in Hab.
  contradiction.
Qed.

Lemma fgt_false_fge a b : number a -> number b -> fgt a b = false -> fge b a = true.
Proof.
  intros Ha Hb H. apply fge_iff. split; [exact Hb|]. split; [exact Ha|].
  now apply fgt_false_iff.
Qed.

Lemma fge_antisym a b : fge a b = true -> fge b a = true -> feq a b = true.
Proof.
  rewrite !fge_iff, feq_iff. intros (Ha & Hb & H1) (_ & _ & H2).
  split; [exact Ha|]. split; [exact Hb|].
  destruct (below_total (key a) (key b)) as [H|[H|H]]; tauto.
Qed.

Lemma fge_number a b : fge a b = true -> number a /\ number b.
Proof. rewrite fge_iff. tauto. Qed.

Lemma feq_fge a b : feq a b = true -> fge a b = true /\ fge b a = true.
Proof.
  rewrite feq_iff, !fge_iff. intros (Ha & Hb & E). rewrite E.
  pose proof (below_irrefl (key b)). tauto.
Qed.

Lemma nonneg_fge x : nonneg x = true -> fge x fzero = true.
Proof. destruct x as [[]|[]| |[] m e]; simpl; intros H; try discriminate; reflexivity. Qed.

(** *** The sign of a rounded quotient *)

Lemma shr_1_nonneg mrs : (0 <= shr_m mrs)%Z -> (0 <= shr_m (shr_1 mrs))%Z.
Proof.
  destruct mrs as [m r s]. simpl.
  destruct m as [|p|p]; try destruct p; simpl; lia.
Qed.

Lemma iter_pos_nonneg p : forall mrs,
  (0 <= shr_m mrs)%Z -> (0 <= shr_m (SpecFloat.iter_pos shr_1 p mrs))%Z.
Proof.
  induction p as [p IH|p IH|]; intros mrs H; simpl.
  - apply IH, IH, shr_1_nonneg, H.
  - apply IH, IH, H.
  - apply shr_1_nonneg, H.
Qed.

Lemma shr_fexp_nonneg m e l :
  (0 <= m)%Z -> (0 <= shr_m (fst (shr_fexp prec emax m e l)))%Z.
Proof.
  intros H. unfold shr_fexp, shr.
  assert (H0 : (0 <= shr_m (shr_record_of_loc m l))%Z)
    by (destruct l as [|[]]; exact H).
  destruct (fexp prec emax (Zdigits2 m + e) - e)%Z; simpl; auto.
  now apply iter_pos_nonneg.
Qed.

Lemma round_nearest_even_nonneg m l :
  (0 <= m)%Z -> (0 <= round_nearest_even m l)%Z.
Proof.
  intros H. destruct l as [|[]]; simpl; try destruct (Z.even m); lia.
Qed.

Lemma binary_round_aux_nonneg mx ex lx :
  (0 <= mx)%Z -> nonneg (binary_round_aux prec emax false mx ex lx) = true.
Proof.
  intros H. unfold binary_round_aux.
  pose proof (shr_fexp_nonneg mx ex lx H) as H1.
  destruct (shr_fexp prec emax mx ex lx) as [mrs' e']. simpl in H1.
  pose proof (shr_fexp_nonneg _ e' loc_Exact
                (round_nearest_even_nonneg _ (loc_of_shr_record mrs') H1)) as H2.
  destruct (shr_fexp prec emax _ e' loc_Exact) as [mrs'' e'']. simpl in H2.
  destruct (shr_m mrs''); [reflexivity| |lia].
  destruct (_ <=? _)%Z; reflexivity.
Qed.

Lemma SFdiv_core_binary_nonneg mx ex my ey :
  (0 <= fst (fst (SFdiv_core_binary prec emax (Zpos mx) ex (Zpos my) ey)))%Z.
Proof.
  unfold SFdiv_core_binary.
  set (s := (ex - ey - _)%Z).
  set (m' := match s with Zpos _ => Z.shiftl (Zpos mx) s | Z0 => Zpos mx | Zneg _ => 0%Z end).
  assert (Hm : (0 <= m')%Z).
  { unfold m'. destruct s; try lia. apply Z.shiftl_nonneg. lia. }
  pose proof (Z_div_mod m' (Zpos my) ltac:(lia)) as Hd.
  destruct (Z.div_eucl m' (Zpos my)) as [q r]. simpl. nia.
Qed.

Lemma fdiv_nonneg x m e :
  nonneg x = true -> nonneg (fdiv x (S754_finite false m e)) = true.
Proof.
  unfold fdiv.
  destruct x as [[]|[]| |[] mx ex]; simpl; intros H; try discriminate;
    try reflexivity.
  pose proof (SFdiv_core_binary_nonneg mx ex m e) as Hq.
  destruct (SFdiv_core_binary prec emax (Zpos mx) ex (Zpos m) e) as [[mz ez] lz].
  simpl in Hq. now apply binary_round_aux_nonneg.
Qed.

(** The double of a positive number is a positive finite double. *)
Lemma float_of_Q_pos q :
  (0 < q)%Q -> exists m e, float_of_Q q = S754_finite false m e.
Proof.
  intros H. unfold float_of_Q.
  destruct (Qnum q) as [|n|n] eqn:En;
    [unfold Qlt in H; rewrite En in H; simpl in H; lia
    | | unfold Qlt in H; rewrite En in H; simpl in H; lia].
  pose proof (fdiv_nonneg (S754_finite false n 0) (Qden q) 0 eq_refl) as Hn.
  unfold fdiv in Hn.
  destruct (SFdiv prec emax (S754_finite false n 0) (S754_finite false (Qden q) 0))
    as [[]|[]| |[] m e]; try discriminate; unfold least_double, greatest_double; eauto.
Qed.

Lemma float_of_Q_nonneg q : (0 <= q)%Q -> nonneg (float_of_Q q) = true.
Proof.
  intros H. unfold float_of_Q.
  destruct (Qnum q) as [|n|n] eqn:En;
    [reflexivity | | unfold Qle in H; rewrite En in H; simpl in H; lia].
  pose proof (fdiv_nonneg (S754_finite false n 0) (Qden q) 0 eq_refl) as Hn.
  unfold fdiv in Hn.
  destruct (SFdiv prec emax (S754_finite false n 0) (S754_finite false (Qden q) 0))
    as [[]|[]| |[] m e]; try discriminate; reflexivity.
Qed.

(** The speed that the sweep takes from a dictionary built from a byte
    count that is not negative and a positive duration is not negative. *)
Lemma avg_speed_double_nonneg test_duration bytes r :
  (0 < test_duration)%Q -> (0 <= bytes)%Z -> result_from test_duration bytes r ->
  nonneg (avg_speed_double r) = true.
Proof.
  intros Hd Hb (Hdur & Hmb & _). unfold avg_speed_double. rewrite Hdur, Hmb.
  destruct (float_of_Q_pos _ Hd) as (m & e & ->).
  apply fdiv_nonneg, float_of_Q_nonneg.
  apply Qdiv_nonneg; [|exact MiB_pos]. unfold Qle. simpl. lia.
Qed.
(** ** The degradation test *)

Lemma last_three_split {A : Type} (l : list A) :
  (3 <= length l)%nat -> exists older a b c, l = older ++ [a; b; c].
Proof.
  intros H. exists (take (length l - 3) l).
  pose proof (take_drop (length l - 3) l) as Hl.
  pose proof (length_drop l (length l - 3)) as Hd.
  destruct (drop (length l - 3) l) as [|a [|b [|c [|x t]]]]; simpl in Hd; try lia.
  exists a, b, c. now symmetry.
Qed.


Lemma degradation_split older a b c best :
  degradation (older ++ [a; b; c]) best =
    (fge (Point.speed a) (Point.speed b)
     && fge (Point.speed b) (Point.speed c)
     && fgt (fsub (Point.speed a) (Point.speed c)) (fmul best float_0_1)).
Proof.
  unfold degradation. rewrite length_app. simpl length.
  replace (3 <=? length older + 3)%nat with true
    by (symmetry; apply Nat.leb_le; lia).
  replace (length older + 3 - 3)%nat with (length older) by lia.
  rewrite drop_app_length. simpl.
  destruct (fge (Point.speed a) (Point.speed b));
    destruct (fge (Point.speed b) (Point.speed c)); reflexivity.
Qed.

(** The test of the code is the condition of the specification. *)
Lemma degradation_iff pts best :
  degradation pts best = true <-> degradation_spec pts best.
Proof.
  split.
  - intros H. assert (Hlen : (3 <= length pts)%nat).
    { unfold degradation in H. destruct (Nat.leb_spec 3 (length pts)); [lia|discriminate]. }
    destruct (last_three_split pts Hlen) as (older & a & b & c & ->).
    rewrite degradation_split in H.
    apply andb_true_iff in H as [H Hgt]. apply andb_true_iff in H as [Hab Hbc].
    exists older, a, b, c. auto.
  - intros (older & a & b & c & -> & Hab & Hbc & Hgt).
    rewrite degradation_split. now rewrite Hab, Hbc, Hgt.
Qed.

(** ** The sweep loop *)

Lemma best_after_snoc pts p :
  best_after (pts ++ [p]) =
    if fgt (Point.speed p) (snd (best_after pts))
    then (Point.threads p, Point.speed p) else best_after pts.
Proof. unfold best_after. rewrite fold_left_app. reflexivity. Qed.

Section SweepFacts.
Variable max_test_threads : Z.
Variable step : Z.
Variable test_duration : Q.
Variable env : nat -> run_env.

Local Abbreviation sub_run := (sub_run step test_duration env).
Local Abbreviation sub_speed := (sub_speed step test_duration env).
Local Abbreviation points_upto := (points_upto step test_duration env).
Local Abbreviation consistent := (consistent step test_duration env).
Local Abbreviation undegraded := (undegraded step test_duration env).
Local Abbreviation sweep_loop := (sweep_loop max_test_threads step test_duration env).

Lemma points_upto_S k :
  points_upto (S k) =
    points_upto k ++ [Point.mk (worker_count step k) (sub_speed k)].
Proof. unfold points_upto. rewrite seq_S, map_app. reflexivity. Qed.

Lemma points_upto_length k : length (points_upto k) = k.
Proof. unfold points_upto. now rewrite length_map, length_seq. Qed.

Lemma worker_count_S k : worker_count step (S k) = (worker_count step k + step)%Z.
Proof. unfold worker_count. lia. Qed.

Lemma consistent_start : consistent 0 sweep_start.
Proof. repeat split. Qed.

(** Recording the point of sub-run [k] and moving to the next worker
    count. *)
Lemma record_point_consistent k st r m :
  consistent k st -> sub_run k = Some (Ok r) ->
  let st1 := record_point (avg_speed_double r) (say m st) in
  concurrent_results st1 = points_upto (S k) /\
  (max_connections st1, best_speed st1) = best_after (points_upto (S k)) /\
  consistent (S k) (advance step st1).
Proof.
  intros (Hres & Hcur & Hbest) Hrun st1.
  assert (Hsp : sub_speed k = avg_speed_double r)
    by (unfold sub_speed; now rewrite Hrun).
  assert (H1 : concurrent_results st1 = points_upto (S k)).
  { rewrite points_upto_S, Hsp, <- Hres, <- Hcur. unfold st1, record_point.
    simpl. destruct (fgt _ _); reflexivity. }
  assert (H2 : (max_connections st1, best_speed st1) = best_after (points_upto (S k))).
  { rewrite points_upto_S, best_after_snoc, <- Hbest, Hsp, <- Hcur.
    unfold st1, record_point. simpl. destruct (fgt _ _); reflexivity. }
  split; [exact H1|]. split; [exact H2|].
  split; [exact H1|]. split; [|exact H2].
  rewrite worker_count_S, <- Hcur. unfold st1, record_point. simpl.
  destruct (fgt _ _); reflexivity.
Qed.

(** One iteration of the loop, from a state that has recorded [k] points. *)
Lemma sweep_loop_step k st fuel :
  consistent k st ->
  sweep_loop (S fuel) st =
    if (worker_count step k <=? max_test_threads)%Z then
      match sub_run k with
      | None => None
      | Some (Ok r) =>
          let st1 := record_point (avg_speed_double r)
                       (say (Testing (worker_count step k)) st) in
          if degradation (points_upto (S k))
                         (snd (best_after (points_upto (S k))))
          then Some (BrokeDegraded, say (Degraded (max_connections st1)) st1)
          else sweep_loop fuel (advance step st1)
      | Some (Raise e) =>
          Some (BrokeFailed,
                say (Failed (worker_count step k) e)
                    (say (Testing (worker_count step k)) st))
      end
    else Some (Exhausted, st).
Proof.
  intros Hc. pose proof Hc as (Hres & Hcur & Hbest).
  cbn [sweep_loop]. rewrite Hcur.
  destruct (worker_count step k <=? max_test_threads)%Z; [|reflexivity].
  cbn [say current_threads concurrent_results].
  rewrite Hcur, Hres, points_upto_length.
  change (single_test (worker_count step k) test_duration (env k)) with (sub_run k).
  destruct (sub_run k) as [[r|e]|] eqn:Hrun; try reflexivity.
  destruct (record_point_consistent k st r (Testing (worker_count step k)) Hc Hrun)
    as (H1 & H2 & _).
  cbv zeta. rewrite H1. rewrite <- H2. reflexivity.
Qed.

Lemma undegraded_S k :
  undegraded k ->
  degradation (points_upto (S k)) (snd (best_after (points_upto (S k)))) = false ->
  undegraded (S k).
Proof.
  intros Hk HS j Hj. destruct (Nat.eq_dec j (S k)) as [->|Hne]; [exact HS|].
  apply Hk. lia.
Qed.

(** What the loop has done when it stops. *)
Lemma sweep_loop_sound fuel : forall k st how st',
  consistent k st -> undegraded k ->
  sweep_loop fuel st = Some (how, st') ->
  exists k',
    (k <= k')%nat /\
    concurrent_results st' = points_upto k' /\
    (max_connections st', best_speed st') = best_after (points_upto k') /\
    (forall i, (k <= i < k')%nat ->
       (worker_count step i <= max_test_threads)%Z /\
       exists r, sub_run i = Some (Ok r)) /\
    match how with
    | Exhausted =>
        undegraded k' /\ (max_test_threads < worker_count step k')%Z
    | BrokeDegraded =>
        (k < k')%nat /\ undegraded (k' - 1) /\
        degradation (points_upto k') (snd (best_after (points_upto k'))) = true /\
        last (printed st') = Some (Degraded (max_connections st'))
    | BrokeFailed =>
        undegraded k' /\ (worker_count step k' <= max_test_threads)%Z /\
        exists e, sub_run k' = Some (Raise e) /\
                  last (printed st') = Some (Failed (worker_count step k') e)
    end.
Proof.
  induction fuel as [|fuel IH]; intros k st how st' Hc Hu H; [discriminate|].
  rewrite (sweep_loop_step k st fuel Hc) in H.
  destruct (Z.leb_spec (worker_count step k) max_test_threads) as [Hle|Hgt].
  - destruct (sub_run k) as [[r|e]|] eqn:Hrun; [| |discriminate].
    + destruct (record_point_consistent k st r (Testing (worker_count step k)) Hc Hrun)
        as (H1 & H2 & Hc').
      cbv zeta in H.
      destruct (degradation (points_upto (S k)) _) eqn:Hd.
      * simplify_eq. exists (S k). split; [lia|]. split; [exact H1|].
        split; [exact H2|]. split.
        { intros i Hi. assert (i = k) as -> by lia. eauto. }
        split; [lia|]. replace (S k - 1)%nat with k by lia.
        split; [exact Hu|]. split; [exact Hd|]. cbn [say printed].
        apply last_snoc.
      * destruct (IH (S k) _ how st' Hc' (undegraded_S k Hu Hd) H)
          as (k' & Hk & Hres & Hbest & Hruns & Hhow).
        exists k'. split; [lia|]. split; [exact Hres|]. split; [exact Hbest|].
        split.
        { intros i Hi. destruct (Nat.eq_dec i k) as [->|Hne]; [eauto|].
          apply Hruns. lia. }
        destruct how; try exact Hhow.
        destruct Hhow as (Hlt & Hrest). split; [lia | exact Hrest].
    + simplify_eq. destruct Hc as (Hres & Hcur & Hbest).
      exists k. split; [lia|]. split; [exact Hres|]. split; [exact Hbest|].
      split; [intros i Hi; lia|].
      split; [exact Hu|]. split; [exact Hle|]. exists e. split; [exact Hrun|].
      cbn [say printed]. apply last_snoc.
  - simplify_eq. destruct Hc as (Hres & Hcur & Hbest).
    exists k. split; [lia|]. split; [exact Hres|]. split; [exact Hbest|].
    split; [intros i Hi; lia|]. split; [exact Hu | exact Hgt].
Qed.

(** The loop goes through [m] further sub-runs that return without a
    degradation being found. *)
Lemma sweep_loop_forward m : forall k st fuel,
  consistent k st ->
  (forall i, (k <= i < k + m)%nat ->
     (worker_count step i <= max_test_threads)%Z /\
     exists r, sub_run i = Some (Ok r)) ->
  (forall j, (k < j <= k + m)%nat ->
     degradation (points_upto j) (snd (best_after (points_upto j))) = false) ->
  exists st', consistent (k + m) st' /\
              sweep_loop (m + fuel) st = sweep_loop fuel st'.
Proof.
  induction m as [|m IH]; intros k st fuel Hc Hruns Hdeg.
  - exists st. rewrite Nat.add_0_r. auto.
  - destruct (Hruns k ltac:(lia)) as [Hle [r Hrun]].
    cbn [Nat.add]. rewrite (sweep_loop_step k st (m + fuel) Hc).
    destruct (Z.leb_spec (worker_count step k) max_test_threads); [|lia].
    rewrite Hrun. cbv zeta. rewrite (Hdeg (S k) ltac:(lia)).
    destruct (record_point_consistent k st r (Testing (worker_count step k)) Hc Hrun)
      as (_ & _ & Hc').
    destruct (IH (S k) _ fuel Hc') as (st' & Hst' & Heq).
    + intros i Hi. apply Hruns. lia.
    + intros j Hj. apply Hdeg. lia.
    + exists st'. replace (k + S m)%nat with (S k + m)%nat by lia. auto.
Qed.

Lemma points_upto_take j k :
  (j <= k)%nat -> take j (points_upto k) = points_upto j.
Proof.
  intros H. unfold points_upto.
  rewrite firstn_map, take_seq. now replace (Init.Nat.min j k) with j by lia.
Qed.

Lemma In_points_upto p k :
  In p (points_upto k) <->
  exists i, (i < k)%nat /\ p = Point.mk (worker_count step i) (sub_speed i).
Proof.
  unfold points_upto. rewrite in_map_iff. split.
  - intros (i & <- & Hi). apply in_seq in Hi. exists i. split; [lia | reflexivity].
  - intros (i & Hi & ->). exists i. split; [reflexivity|]. apply in_seq. lia.
Qed.


(** A recorded speed is a number that is not negative. *)
Lemma sub_speed_nonneg i : nonneg (sub_speed i) = true.
Proof.
  unfold sub_speed.
  destruct (sub_run i) as [[r|e]|] eqn:E; try reflexivity.
  destruct (single_test_result_from _ _ _ _ E) as (Hd & bytes & Hb & Hr).
  exact (avg_speed_double_nonneg _ _ _ Hd Hb Hr).
Qed.

Lemma sub_speed_number i : number (sub_speed i).
Proof. exact (proj1 (fge_number _ _ (nonneg_fge _ (sub_speed_nonneg i)))). Qed.

(** The best pair after [k] points: no point is faster, and among the
    points of that speed the recorded worker count is the earliest. *)
Lemma best_after_points k :
  let best := best_after (points_upto k) in
  fge (snd best) fzero = true /\
  (forall i, (i < k)%nat -> fge (snd best) (sub_speed i) = true) /\
  (k = 0%nat -> best = (1%Z, fzero)) /\
  ((0 < k)%nat ->
   exists i, (i < k)%nat /\ fst best = worker_count step i /\
             feq (sub_speed i) (snd best) = true /\
             forall j, (j < k)%nat -> feq (sub_speed j) (snd best) = true ->
                       (i <= j)%nat).
Proof.
  induction k as [|k IH]; intros best.
  - subst best. simpl. split; [reflexivity|]. split; [intros i Hi; lia|].
    split; [reflexivity | intros Hk; lia].
  - subst best. rewrite points_upto_S, best_after_snoc. cbn [Point.speed Point.threads].
    destruct IH as (Hb & Hall & Hzero & Hpos).
    pose proof (sub_speed_number k) as Hnk.
    destruct (fgt (sub_speed k) (snd (best_after (points_upto k)))) eqn:Eg.
    + cbn [fst snd].
      split; [apply nonneg_fge, sub_speed_nonneg|]. split.
      { intros i Hi. destruct (Nat.eq_dec i k) as [->|Hne]; [now apply fge_refl|].
        apply (fgt_fge_trans _ _ _ Eg). apply Hall. lia. }
      split; [intros Hk; lia|]. intros _. exists k. split; [lia|].
      split; [reflexivity|]. split; [now apply feq_refl|].
      intros j Hj Heq. destruct (Nat.eq_dec j k) as [->|Hne]; [lia|].
      exfalso. rewrite (fgt_fge_neq _ _ _ Eg (Hall j ltac:(lia))) in Heq.
      discriminate.
    + pose proof (fgt_false_fge _ _ Hnk (proj1 (fge_number _ _ Hb)) Eg) as Hle.
      split; [exact Hb|]. split.
      { intros i Hi. destruct (Nat.eq_dec i k) as [->|Hne]; [exact Hle|].
        apply Hall. lia. }
      split; [intros Hk; lia|]. intros _.
      destruct (Nat.eq_dec k 0) as [->|Hk].
      * rewrite (Hzero eq_refl) in *. cbn [fst snd] in *. exists 0%nat.
        split; [lia|]. split; [reflexivity|].
        split; [apply fge_antisym; [apply nonneg_fge, sub_speed_nonneg | exact Hle]|].
        intros j Hj _. lia.
      * destruct (Hpos ltac:(lia)) as (i & Hi & Hfst & Hsp & Hmin).
        exists i. split; [lia|]. split; [exact Hfst|]. split; [exact Hsp|].
        intros j Hj Heq. destruct (Nat.eq_dec j k) as [->|Hne]; [lia|].
        apply Hmin; [lia | exact Heq].
Qed.

Lemma worker_count_mono i j :
  (0 <= step)%Z -> (i <= j)%nat -> (worker_count step i <= worker_count step j)%Z.
Proof. intros Hs Hij. unfold worker_count. nia. Qed.

(** [count_upto] counts the worker counts that the loop test lets pass. *)
Lemma count_upto_spec i :
  (0 < step)%Z ->
  (worker_count step i <= max_test_threads)%Z <->
  (i < count_upto max_test_threads step)%nat.
Proof.
  intros Hs. unfold worker_count, count_upto.
  pose proof (Z.div_mod (max_test_threads - 1) step ltac:(lia)) as Hdm.
  pose proof (Z.mod_pos_bound (max_test_threads - 1) step Hs) as Hm.
  split; intros H; nia.
Qed.
End SweepFacts.

(** ** The sweep as a whole *)

Lemma find_max_inv max_test_threads step test_duration env fuel r :
  find_max_concurrent_connections max_test_threads step test_duration env fuel
    = Some r ->
  exists how st,
    sweep_loop max_test_threads step test_duration env fuel sweep_start
      = Some (how, st) /\
    r = mkOutcome (max_connections st, best_speed st)
                  (concurrent_results st, max_connections st)
                  (printed st) how.
Proof.
  unfold find_max_concurrent_connections. intros H.
  destruct (sweep_loop _ _ _ _ _ _) as [[how st]|]; [|discriminate].
  exists how, st. split; [reflexivity|]. congruence.
Qed.

Lemma undegraded_0 step test_duration env : undegraded step test_duration env 0.
Proof. intros j Hj. lia. Qed.

Lemma never_degrades_undegraded step test_duration env k :
  never_degrades step test_duration env k -> undegraded step test_duration env k.
Proof.
  intros H j Hj. specialize (H j Hj).
  destruct (degradation _ _) eqn:E; [|reflexivity].
  apply degradation_iff in E. contradiction.
Qed.

Lemma points_upto_threads step test_duration env k :
  map Point.threads (points_upto step test_duration env k)
  = map (worker_count step) (seq 0 k).
Proof. unfold points_upto. rewrite map_map. reflexivity. Qed.

(** What a sweep that returns has done, in terms of its sub-runs. *)
Lemma find_max_sound max_test_threads step test_duration env fuel r :
  find_max_concurrent_connections max_test_threads step test_duration env fuel
    = Some r ->
  exists k,
    fst (charted r) = points_upto step test_duration env k /\
    returned r = best_after (points_upto step test_duration env k) /\
    (forall i, (i < k)%nat ->
       (worker_count step i <= max_test_threads)%Z /\
       exists x, sub_run step test_duration env i = Some (Ok x)) /\
    match left_by r with
    | Exhausted =>
        undegraded step test_duration env k /\
        (max_test_threads < worker_count step k)%Z
    | BrokeDegraded =>
        (0 < k)%nat /\ undegraded step test_duration env (k - 1) /\
        degradation (points_upto step test_duration env k)
                    (snd (best_after (points_upto step test_duration env k))) = true /\
        last (output r) = Some (Degraded (fst (returned r)))
    | BrokeFailed =>
        undegraded step test_duration env k /\
        (worker_count step k <= max_test_threads)%Z /\
        exists e, sub_run step test_duration env k = Some (Raise e) /\
                  last (output r) = Some (Failed (worker_count step k) e)
    end.
Proof.
  intros H. destruct (find_max_inv _ _ _ _ _ _ H) as (how & st & Hloop & ->).
  destruct (sweep_loop_sound max_test_threads step test_duration env fuel
              0 sweep_start how st
              (consistent_start step test_duration env)
              (undegraded_0 step test_duration env) Hloop)
    as (k & _ & Hres & Hbest & Hruns & Hhow).
  exists k. cbn [charted returned left_by output fst snd].
  split; [exact Hres|]. split; [exact Hbest|].
  split; [intros i Hi; apply Hruns; lia|]. exact Hhow.
Qed.

(** A sweep that has returned stopped for degradation if and only if its
    points end with a degradation, and no earlier prefix of its points
    does. *)
Lemma degradation_exit_iff
    max_test_threads step test_duration env fuel r :
  find_max_concurrent_connections max_test_threads step test_duration env fuel
    = Some r ->
  (degradation_spec (fst (charted r)) (snd (returned r)) <->
   left_by r = BrokeDegraded) /\
  (left_by r = BrokeDegraded ->
   last (output r) = Some (Degraded (fst (returned r)))) /\
  (forall j, (0 < j < length (fst (charted r)))%nat ->
     ~ degradation_spec (take j (fst (charted r)))
                        (snd (best_after (take j (fst (charted r)))))).
Proof.
  intros H. destruct (find_max_sound _ _ _ _ _ _ H) as (k & Hpts & Hret & _ & Hhow).
  rewrite Hpts, Hret, points_upto_length.
  assert (Hfalse : undegraded step test_duration env k ->
                   ~ degradation_spec (points_upto step test_duration env k)
                       (snd (best_after (points_upto step test_duration env k)))).
  { intros Hu Hd. apply degradation_iff in Hd.
    destruct k as [|k]; [discriminate|]. rewrite (Hu (S k)) in Hd; [discriminate|lia]. }
  assert (Hprefix : forall m, undegraded step test_duration env m ->
            forall j, (0 < j <= m)%nat -> (m <= k)%nat ->
              ~ degradation_spec (take j (points_upto step test_duration env k))
                  (snd (best_after (take j (points_upto step test_duration env k))))).
  { intros m Hu j Hj Hm Hd. rewrite points_upto_take in Hd by lia.
    apply degradation_iff in Hd. rewrite (Hu j) in Hd; [discriminate|lia]. }
  destruct (left_by r).
  - destruct Hhow as [Hu _]. split; [|split].
    + split; [intros Hd; destruct (Hfalse Hu Hd) | discriminate].
    + discriminate.
    + intros j Hj. apply (Hprefix k Hu); lia.
  - destruct Hhow as (Hk & Hu & Hd & Hlast). split; [|split].
    + split; [reflexivity|]. intros _. now apply degradation_iff.
    + intros _. rewrite <- Hret. exact Hlast.
    + intros j Hj. apply (Hprefix (k - 1)%nat Hu); lia.
  - destruct Hhow as (Hu & _). split; [|split].
    + split; [intros Hd; destruct (Hfalse Hu Hd) | discriminate].
    + discriminate.
    + intros j Hj. apply (Hprefix k Hu); lia.
Qed.


(** C1. After each recorded point the sweep tests the last three points.
    At the first point after which at least three points exist, the
    throughputs of the last three do not increase, and the first of the
    three exceeds the last by more than 0.1 times the best throughput so
    far, the sweep stops: it records no further point, prints the
    degradation message and returns the best pair. The comparisons, the
    difference and the product are those of the doubles that the program
    computes with. *)
Theorem degradation_stops_the_sweep
    max_test_threads step test_duration env k fuel :
  (forall i, (i < k)%nat ->
     (worker_count step i <= max_test_threads)%Z /\
     exists x, sub_run step test_duration env i = Some (Ok x)) ->
  never_degrades step test_duration env (k - 1) ->
  degradation_spec (points_upto step test_duration env k)
                   (snd (best_after (points_upto step test_duration env k))) ->
  (k <= fuel)%nat ->
  exists r,
    find_max_concurrent_connections max_test_threads step test_duration env fuel
      = Some r /\
    left_by r = BrokeDegraded /\
    fst (charted r) = points_upto step test_duration env k /\
    returned r = best_after (fst (charted r)) /\
    last (output r) = Some (Degraded (fst (returned r))).
Proof.
  intros Hruns Hbefore Hspec Hfuel.
  assert (Hk : (3 <= k)%nat).
  { destruct Hspec as (older & a & b & c & Hpts & _).
    apply (f_equal (@length Point.t)) in Hpts.
    rewrite points_upto_length, length_app in Hpts. simpl in Hpts. lia. }
  apply degradation_iff in Hspec.
  destruct (sweep_loop_forward max_test_threads step test_duration env (k - 1)
              0 sweep_start (fuel - (k - 1))
              (consistent_start step test_duration env))
    as (st & Hc & Hloop).
  - intros i Hi. apply Hruns. lia.
  - intros j Hj. apply (never_degrades_undegraded _ _ _ _ Hbefore). lia.
  - replace (k - 1 + (fuel - (k - 1)))%nat with fuel in Hloop by lia.
    destruct (fuel - (k - 1))%nat as [|f] eqn:Ef; [lia|].
    cbn [Nat.add] in Hc.
    rewrite (sweep_loop_step max_test_threads step test_duration env (k - 1) st f Hc)
      in Hloop.
    destruct (Hruns (k - 1)%nat ltac:(lia)) as [Hle [x Hrun]].
    destruct (Z.leb_spec (worker_count step (k - 1)) max_test_threads); [|lia].
    rewrite Hrun in Hloop. cbv zeta in Hloop.
    replace (S (k - 1)) with k in Hloop by lia. rewrite Hspec in Hloop.
    destruct (record_point_consistent step test_duration env (k - 1) st x
                (Testing (worker_count step (k - 1))) Hc Hrun) as (H1 & H2 & _).
    replace (S (k - 1)) with k in H1, H2 by lia.
    unfold find_max_concurrent_connections. rewrite Hloop.
    eexists. split; [reflexivity|].
    cbn [left_by charted returned output fst snd say concurrent_results
         max_connections best_speed printed].
    split; [reflexivity|]. split; [exact H1|]. rewrite H1.
    split; [exact H2 | apply last_snoc].
Qed.

(** Sub-runs measuring 10, 8 and 6 MB/s: the sweep stops after the third
    point, since the throughputs fall and [10 - 6 > 0.1 * 10]. *)
Lemma degradation_stops_the_sweep_witness :
  exists r,
    find_max_concurrent_connections 200 10 1 (synthetic 10 [10; 8; 6]%nat) 3
      = Some r /\
    left_by r = BrokeDegraded /\
    fst (charted r) = points_upto 10 1 (synthetic 10 [10; 8; 6]%nat) 3 /\
    returned r = best_after (fst (charted r)) /\
    last (output r) = Some (Degraded (fst (returned r))).
Proof.
  refine (degradation_stops_the_sweep 200 10 1 (synthetic 10 [10; 8; 6]%nat) 3 3
            _ _ _ ltac:(lia)).
  - intros i Hi. destruct i as [|[|[|i]]]; try lia;
      (split; [vm_compute; discriminate | eexists; vm_compute; reflexivity]).
  - intros j Hj Hd. apply degradation_iff in Hd.
    destruct j as [|[|[|j]]]; try lia; vm_compute in Hd; discriminate.
  - apply degradation_iff. vm_compute. reflexivity.
Defined.

(** The same sweep, evaluated: three points at 1, 11 and 21 workers, and
    the pair [(1, 10.0)]. *)
Lemma sweep_10_8_6 :
  exists r,
    find_max_concurrent_connections 200 10 1 (synthetic 10 [10; 8; 6]%nat) 3
      = Some r /\
    map Point.threads (fst (charted r)) = [1; 11; 21]%Z /\
    map Point.speed (fst (charted r)) = map float_of_Q [10; 8; 6]%Q /\
    returned r = (1%Z, float_of_Q 10) /\
    left_by r = BrokeDegraded /\
    last (output r) = Some (Degraded 1).
Proof.
  eexists. split; [vm_compute; reflexivity|].
  repeat split; vm_compute; reflexivity.
Qed.

(** The test is the one of the doubles. With 70, 66 and 63 MiB received in
    ten seconds the speeds are [7.0], [6.6] and [6.3]: in exact arithmetic
    [7 - 6.3] equals [0.1 * 7] and does not exceed it, but the difference
    of the doubles exceeds their product, and the sweep stops after the
    third point. *)
Lemma sweep_70_66_63 :
  exists r,
    find_max_concurrent_connections 200 10 10
      (synthetic 10 [70; 66; 63; 50]%nat) 5 = Some r /\
    map Point.speed (fst (charted r)) = map float_of_Q [7; 66 # 10; 63 # 10]%Q /\
    left_by r = BrokeDegraded /\
    (7 - (63 # 10) == 7 * (1 # 10))%Q /\
    fgt (fsub (float_of_Q 7) (float_of_Q (63 # 10)))
        (fmul (float_of_Q 7) float_0_1) = true.
Proof.
  eexists. split; [vm_compute; reflexivity|].
  repeat split; vm_compute; reflexivity.
Qed.

Lemma points_upto_lookup step test_duration env k : forall j p,
  points_upto step test_duration env k !! j = Some p <->
  (j < k)%nat /\
  p = Point.mk (worker_count step j) (sub_speed step test_duration env j).
Proof.
  induction k as [|k IH]; intros j p.
  - split; [discriminate | lia].
  - rewrite points_upto_S, lookup_app_Some, IH, points_upto_length. split.
    + intros [[Hj ->]|[Hj Hp]]; [split; [lia | reflexivity]|].
      destruct (j - k)%nat as [|n] eqn:E; simpl in Hp; [|discriminate].
      assert (j = k) as -> by lia. simplify_eq. split; [lia | reflexivity].
    + intros [Hj ->]. destruct (Nat.eq_dec j k) as [->|Hne].
      * right. split; [lia|]. now rewrite Nat.sub_diag.
      * left. split; [lia | reflexivity].
Qed.

(** C4 (amended). When a sweep has recorded at least one point, the
    throughput it returns is the greatest recorded throughput, and the
    worker count it returns is that of the earliest recorded point that
    achieved it; this is the smallest worker count that achieved it when
    the step is not negative. *)
Theorem best_is_smallest_maximum
    max_test_threads step test_duration env fuel r :
  find_max_concurrent_connections max_test_threads step test_duration env fuel
    = Some r ->
  fst (charted r) <> [] ->
  (forall p, In p (fst (charted r)) ->
             fge (snd (returned r)) (Point.speed p) = true) /\
  (exists i p,
     fst (charted r) !! i = Some p /\
     Point.threads p = fst (returned r) /\
     feq (Point.speed p) (snd (returned r)) = true /\
     forall j q, fst (charted r) !! j = Some q ->
                 feq (Point.speed q) (snd (returned r)) = true -> (i <= j)%nat) /\
  ((0 <= step)%Z ->
   forall p, In p (fst (charted r)) ->
             feq (Point.speed p) (snd (returned r)) = true ->
             (fst (returned r) <= Point.threads p)%Z).
Proof.
  intros H Hne.
  destruct (find_max_sound _ _ _ _ _ _ H) as (k & Hpts & Hret & _ & _).
  rewrite Hpts in *. rewrite Hret.
  destruct (best_after_points step test_duration env k)
    as (_ & Hall & _ & Hpos).
  assert (Hk : (0 < k)%nat) by (destruct k; [now destruct Hne | lia]).
  destruct (Hpos Hk) as (i & Hi & Hfst & Hsp & Hmin).
  split; [|split].
  - intros p Hp. apply In_points_upto in Hp as (j & Hj & ->). simpl. auto.
  - exists i, (Point.mk (worker_count step i) (sub_speed step test_duration env i)).
    split; [apply points_upto_lookup; auto|]. simpl.
    split; [now symmetry|]. split; [exact Hsp|].
    intros j q Hq Heq. apply points_upto_lookup in Hq as [Hj ->]. simpl in Heq.
    auto.
  - intros Hstep p Hp Heq. apply In_points_upto in Hp as (j & Hj & ->).
    simpl in *. rewrite Hfst. apply worker_count_mono; [exact Hstep|]. auto.
Qed.

(** Sub-runs measuring 5, 7, 7 and 6 MB/s: the sweep returns 11 workers,
    the first of the two worker counts that reached 7 MB/s. *)
Lemma best_is_smallest_maximum_witness :
  exists r,
    find_max_concurrent_connections 31 10 1 (synthetic 10 [5; 7; 7; 6]%nat) 5
      = Some r /\
    map Point.threads (fst (charted r)) = [1; 11; 21; 31]%Z /\
    fst (returned r) = 11%Z /\
    (forall p, In p (fst (charted r)) ->
               fge (snd (returned r)) (Point.speed p) = true).
Proof.
  eexists. split; [vm_compute; reflexivity|].
  split; [reflexivity|]. split; [reflexivity|].
  match goal with
  | |- forall p, In p (fst (charted ?r)) -> _ =>
      exact (proj1 (best_is_smallest_maximum
                      31 10 1 (synthetic 10 [5; 7; 7; 6]%nat) 5 r
                      ltac:(vm_compute; reflexivity)
                      ltac:(discriminate)))
  end.
Defined.

(** C4 as stated fails for a negative step. With a step of [-1] the sweep
    tests 1 worker, then 0 workers; both runs receive nothing, and when the
    third sub-run fails the sweep returns 1 worker, although the point at
    0 workers has the same throughput. *)
Lemma smallest_count_can_be_missed :
  exists r p,
    find_max_concurrent_connections 200 (-1) 1 descending 3 = Some r /\
    map Point.threads (fst (charted r)) = [1; 0]%Z /\
    returned r = (1%Z, fzero) /\
    In p (fst (charted r)) /\
    feq (Point.speed p) (snd (returned r)) = true /\
    (Point.threads p < fst (returned r))%Z.
Proof.
  eexists. exists (Point.mk 0 fzero). split; [vm_compute; reflexivity|].
  split; [reflexivity|]. split; [reflexivity|].
  split; [right; left; reflexivity|]. split; [reflexivity|]. reflexivity.
Qed.

(** C5 (amended). The sweep tests the worker counts 1, 1 + step,
    1 + 2 step, ... With a positive step, when every sub-run at a count not
    exceeding [max_test_threads] returns and the degradation condition
    never holds, the sweep runs a sub-run for each of these counts and for
    no other, leaves its loop because the next count exceeds
    [max_test_threads], and returns the pair of the best worker count and
    the best throughput; the points go to the chart and no stop reason is
    returned. *)
Theorem sweep_exhausts_range max_test_threads step test_duration env fuel :
  (0 < step)%Z ->
  (forall i, (i < count_upto max_test_threads step)%nat ->
     exists x, sub_run step test_duration env i = Some (Ok x)) ->
  never_degrades step test_duration env (count_upto max_test_threads step) ->
  (count_upto max_test_threads step < fuel)%nat ->
  (forall i, (worker_count step i <= max_test_threads)%Z <->
             (i < count_upto max_test_threads step)%nat) /\
  exists r,
    find_max_concurrent_connections max_test_threads step test_duration env fuel
      = Some r /\
    left_by r = Exhausted /\
    map Point.threads (fst (charted r))
      = map (worker_count step) (seq 0 (count_upto max_test_threads step)) /\
    fst (charted r)
      = points_upto step test_duration env (count_upto max_test_threads step) /\
    returned r = best_after (fst (charted r)).
Proof.
  intros Hstep Hruns Hdeg Hfuel.
  set (n := count_upto max_test_threads step) in *.
  assert (Hcount : forall i, (worker_count step i <= max_test_threads)%Z <-> (i < n)%nat)
    by (intros i; apply count_upto_spec; exact Hstep).
  split; [exact Hcount|].
  destruct (sweep_loop_forward max_test_threads step test_duration env n
              0 sweep_start (fuel - n)
              (consistent_start step test_duration env))
    as (st & Hc & Hloop).
  - intros i Hi. split; [apply Hcount; lia | apply Hruns; lia].
  - intros j Hj. apply (never_degrades_undegraded _ _ _ _ Hdeg). lia.
  - replace (n + (fuel - n))%nat with fuel in Hloop by lia.
    destruct (fuel - n)%nat as [|f] eqn:Ef; [lia|].
    rewrite (sweep_loop_step max_test_threads step test_duration env n st f Hc)
      in Hloop.
    destruct (Z.leb_spec (worker_count step n) max_test_threads) as [Hle|Hgt].
    { apply Hcount in Hle. lia. }
    unfold find_max_concurrent_connections. rewrite Hloop.
    destruct Hc as (Hres & _ & Hbest). simpl in Hres, Hbest.
    eexists. split; [reflexivity|]. cbn [left_by charted returned fst snd].
    split; [reflexivity|]. rewrite Hres.
    split; [apply points_upto_threads|]. split; [reflexivity | exact Hbest].
Qed.


(** Sub-runs measuring 5, 6, 7 and 8 MB/s at 1, 11, 21 and 31 workers, with
    [max_test_threads = 31]: the sweep runs all four and leaves its loop at
    41. *)
Lemma sweep_exhausts_range_witness :
  exists r,
    find_max_concurrent_connections 31 10 1 (synthetic 10 [5; 6; 7; 8]%nat) 5
      = Some r /\
    left_by r = Exhausted /\
    map Point.threads (fst (charted r)) = [1; 11; 21; 31]%Z /\
    fst (charted r) = points_upto 10 1 (synthetic 10 [5; 6; 7; 8]%nat) 4 /\
    returned r = best_after (fst (charted r)).
Proof.
  refine (proj2 (sweep_exhausts_range 31 10 1 (synthetic 10 [5; 6; 7; 8]%nat) 5
                   ltac:(lia) _ _ ltac:(vm_compute; lia))).
  - intros i Hi. change (count_upto 31 10) with 4%nat in Hi.
    destruct i as [|[|[|[|i]]]]; try lia; eexists; vm_compute; reflexivity.
  - intros j Hj Hd. change (count_upto 31 10) with 4%nat in Hj.
    apply degradation_iff in Hd.
    destruct j as [|[|[|[|[|j]]]]]; try lia; vm_compute in Hd; discriminate.
Defined.

(** C5 as stated fails. With sub-runs measuring 5 and 6 MB/s and a third
    sub-run that raises, no degradation is found, yet the loop is left at
    21 workers, long before 200, by the handler. And the returned pair
    carries no stop reason: a sweep that exhausts its range and a sweep
    that stops for degradation return the same value. *)
Lemma sweep_can_stop_short :
  (exists r,
     find_max_concurrent_connections 200 10 1 (synthetic 10 [5; 6]%nat) 3
       = Some r /\
     never_degrades 10 1 (synthetic 10 [5; 6]%nat) 2 /\
     map Point.threads (fst (charted r)) = [1; 11]%Z /\
     (worker_count 10 3 <= 200)%Z /\
     left_by r = BrokeFailed) /\
  (exists r1 r2,
     find_max_concurrent_connections 1 10 1 (synthetic 10 [10]%nat) 2 = Some r1 /\
     find_max_concurrent_connections 200 10 1 (synthetic 10 [10; 8; 6]%nat) 3
       = Some r2 /\
     left_by r1 = Exhausted /\ left_by r2 = BrokeDegraded /\
     returned r1 = returned r2).
Proof.
  split.
  - eexists. split; [vm_compute; reflexivity|]. split.
    { intros j Hj Hd. apply degradation_iff in Hd.
      destruct j as [|[|[|j]]]; try lia; vm_compute in Hd; discriminate. }
    split; [reflexivity|]. split; [vm_compute; discriminate | reflexivity].
  - eexists. eexists. split; [vm_compute; reflexivity|].
    split; [vm_compute; reflexivity|]. repeat split.
Qed.



(** * Further properties *)

Section CallerFacts.
Variable which : tool.
Variable num_threads : Z.
Variable test_duration : Q.

(** The caller never comes back to its first statement. *)
Lemma main_step_leaves_start e s s' :
  main_step which num_threads test_duration e s = Some s' ->
  main s' <> MainStartMonitor.
Proof.
  unfold main_step. intros H.
  destruct (main s) eqn:Em; destruct e; simplify_eq.
  - destruct ok; simplify_eq; simpl; [|discriminate].
    unfold next_spawn. destruct (_ <? _)%Z; discriminate.
  - destruct ok; simplify_eq; simpl; [|discriminate].
    unfold next_spawn. destruct (_ <? _)%Z; discriminate.
  - destruct (time_sleep test_duration); simplify_eq; discriminate.
  - discriminate.
  - destruct (averages test_duration s); simplify_eq; discriminate.
  - destruct (build which num_threads test_duration g d s) as [pc|] eqn:E;
      simplify_eq. simpl.
    destruct (build_carried _ _ _ _ _ _ _ E) as [Hc|[x ->]]; [|discriminate].
    intros Hz. rewrite Hz in Hc. discriminate.
Qed.

End CallerFacts.


(** ** The samples of one run *)

Lemma readings_below_mono pc a b :
  (a <= b)%Z -> readings_below pc a -> readings_below pc b.
Proof.
  intros Hab H. destruct pc; simpl in *; auto; try lia.
  destruct H as [H1 H2]. split; [lia | exact H2].
Qed.

Section SamplerFacts.
Variable which : tool.
Variable num_threads : Z.
Variable test_duration : Q.

Local Abbreviation step := (step which num_threads test_duration).
Local Abbreviation exec := (exec which num_threads test_duration).

Lemma sampler_inv_step s e s' : sampler_inv s -> step s e = Some s' -> sampler_inv s'.
Proof.
  intros (Hb & Hs & Hm) H.
  pose proof (step_total_bytes_le _ _ _ _ _ _ H) as Hle.
  destruct e as [m|m|tid m].
  - destruct (main_step_cases _ _ _ _ _ _ H)
      as [[pc ->]|[(_ & _ & ->)|[(i & _ & _ & ->)|(_ & _ & ->)]]];
      unfold sampler_inv; simpl; simpl in Hle;
      (split; [lia|]); (split; [exact Hs|]); first [exact Hm | exact I].
  - unfold step, monitor_step in H.
    destruct (monitor s) eqn:Em; destruct m; simplify_eq; simpl in Hm.
    + unfold sampler_inv. simpl. split; [lia|]. split; [exact Hs|]. lia.
    + unfold sampler_inv. simpl. split; [lia|]. split; [exact Hs|].
      destruct (running s); simpl; lia.
    + cbv zeta in H. rewrite tick_speed_total in H.
      destruct (py_gt (now - last_time l) 0) eqn:Eg; simplify_eq;
        unfold sampler_inv; simpl; (split; [lia|]); (split; [exact Hs|]); [|lia].
      split; [lia|]. apply py_gt_iff in Eg.
      apply Qdiv_nonneg; [|exact MiB_pos]. apply Qdiv_nonneg; [|exact Eg].
      unfold Qle. simpl. lia.
    + unfold sampler_inv. simpl. split; [lia|]. destruct Hm as [Hc Hv].
      split; [|exact Hc]. apply Forall_app. split; [exact Hs|].
      constructor; [exact Hv | constructor].
    + match type of H with
      | context [tick_average ?a ?v] =>
          destruct (tick_average_total a v) as [q Hq]; rewrite Hq in H
      end.
      simplify_eq. unfold sampler_inv.
      destruct (latency_truthy latency); simpl; (split; [lia|]);
        (split; [exact Hs|]); lia.
  - assert (Hother : monitor s' = monitor s /\ download_speeds s' = download_speeds s).
    { unfold step, worker_step in H.
      destruct (workers s !! tid); [|discriminate].
      repeat case_match; simplify_eq; simpl; auto. }
    destruct Hother as [E1 E2]. unfold sampler_inv. rewrite E1, E2.
    split; [lia|]. split; [exact Hs|].
    exact (readings_below_mono _ _ _ Hle Hm).
Qed.

Lemma sampler_inv_exec now sched s :
  exec (init now) sched = Some s -> sampler_inv s.
Proof.
  apply (exec_invariant which num_threads test_duration sampler_inv sampler_inv_step).
  unfold sampler_inv. simpl. split; [lia|]. split; [constructor | exact I].
Qed.
End SamplerFacts.

(** X1. No throughput sample is negative: the sampler's previous reading
    never exceeds the counter, so every byte difference it divides is at
    least 0. *)
Theorem samples_are_not_negative which num_threads test_duration now sched s :
  exec which num_threads test_duration (init now) sched = Some s ->
  Forall (fun x : sample => (0 <= snd x)%Q) (download_speeds s) /\
  forall l, monitor s = MonSleep l -> (0 <= total_bytes s - last_bytes l)%Z.
Proof.
  intros H. destruct (sampler_inv_exec _ _ _ _ _ _ H) as (_ & Hs & Hm).
  split; [exact Hs|]. intros l Hl. rewrite Hl in Hm. simpl in Hm. lia.
Qed.

Lemma samples_are_not_negative_witness :
  Forall (fun x : sample => (0 <= snd x)%Q)
         (download_speeds (after Advanced 1 2 two_second_run)).
Proof.
  exact (proj1 (samples_are_not_negative Advanced 1 2 0 (schedule two_second_run)
                  (after Advanced 1 2 two_second_run)
                  ltac:(vm_compute; reflexivity))).
Defined.

(** ** Greatest, least and mean *)

Lemma py_max_fold l : forall x,
  let m := fold_left (fun m y => if py_gt y m then y else m) l x in
  In m (x :: l) /\ (x <= m)%Q /\ forall y, In y l -> (y <= m)%Q.
Proof.
  induction l as [|a l IH]; intros x; simpl.
  - split; [auto|]. split; [apply Qle_refl | tauto].
  - destruct (py_gt a x) eqn:E.
    + apply py_gt_iff in E. destruct (IH a) as (Hin & Hle & Hall).
      split; [simpl in Hin; tauto|].
      split; [apply Qlt_le_weak; eapply Qlt_le_trans; eauto|].
      intros y [<-|Hy]; auto.
    + apply py_gt_false_iff in E. destruct (IH x) as (Hin & Hle & Hall).
      split; [simpl in Hin; tauto|]. split; [exact Hle|].
      intros y [<-|Hy]; [eapply Qle_trans; eauto | auto].
Qed.

Lemma py_min_fold l : forall x,
  let m := fold_left (fun m y => if py_gt m y then y else m) l x in
  In m (x :: l) /\ (m <= x)%Q /\ forall y, In y l -> (m <= y)%Q.
Proof.
  induction l as [|a l IH]; intros x; simpl.
  - split; [auto|]. split; [apply Qle_refl | tauto].
  - destruct (py_gt x a) eqn:E.
    + apply py_gt_iff in E. destruct (IH a) as (Hin & Hle & Hall).
      split; [simpl in Hin; tauto|].
      split; [apply Qlt_le_weak; eapply Qle_lt_trans; eauto|].
      intros y [<-|Hy]; auto.
    + apply py_gt_false_iff in E. destruct (IH x) as (Hin & Hle & Hall).
      split; [simpl in Hin; tauto|]. split; [exact Hle|].
      intros y [<-|Hy]; [eapply Qle_trans; eauto | auto].
Qed.

(** [max(l)] is an element of [l] that no element exceeds. *)
Lemma py_max_spec l m :
  py_max l = Ok m -> In m l /\ forall y, In y l -> (y <= m)%Q.
Proof.
  destruct l as [|x l]; [discriminate|]. intros [= <-].
  destruct (py_max_fold l x) as (Hin & Hle & Hall).
  split; [exact Hin|]. intros y [<-|Hy]; auto.
Qed.

Lemma py_min_spec l m :
  py_min l = Ok m -> In m l /\ forall y, In y l -> (m <= y)%Q.
Proof.
  destruct l as [|x l]; [discriminate|]. intros [= <-].
  destruct (py_min_fold l x) as (Hin & Hle & Hall).
  split; [exact Hin|]. intros y [<-|Hy]; auto.
Qed.

Lemma py_sum_acc l : forall acc, (fold_left Qplus l acc == acc + py_sum l)%Q.
Proof.
  unfold py_sum. induction l as [|x l IH]; intros acc; simpl.
  - ring.
  - rewrite IH, (IH (0 + x)%Q). ring.
Qed.

Lemma py_sum_bounds l a b :
  (forall y, In y l -> (a <= y <= b)%Q) ->
  (inject_Z (Z.of_nat (length l)) * a <= py_sum l
   <= inject_Z (Z.of_nat (length l)) * b)%Q.
Proof.
  induction l as [|x l IH]; intros H.
  - simpl. unfold py_sum. simpl. split; rewrite Qmult_0_l; apply Qle_refl.
  - unfold py_sum. cbn [fold_left]. rewrite py_sum_acc.
    destruct (H x (or_introl eq_refl)) as [Hax Hxb].
    destruct IH as [IH1 IH2]; [intros y Hy; apply H; now right|].
    cbn [length]. rewrite Nat2Z.inj_succ. unfold Z.succ.
    rewrite inject_Z_plus. split.
    + assert (E : ((inject_Z (Z.of_nat (length l)) + inject_Z 1) * a
                   == 0 + a + inject_Z (Z.of_nat (length l)) * a)%Q) by ring.
      rewrite E. apply Qplus_le_compat; [|exact IH1]. now rewrite !Qplus_0_l.
    + assert (E : ((inject_Z (Z.of_nat (length l)) + inject_Z 1) * b
                   == 0 + b + inject_Z (Z.of_nat (length l)) * b)%Q) by ring.
      rewrite E. apply Qplus_le_compat; [|exact IH2]. now rewrite !Qplus_0_l.
Qed.

(** The mean of a non-empty list lies between two bounds of its elements. *)
Lemma mean_bounds l a b q :
  l <> [] ->
  (forall y, In y l -> (a <= y <= b)%Q) ->
  py_div (py_sum l) (inject_Z (Z.of_nat (length l))) = Ok q ->
  (a <= q <= b)%Q.
Proof.
  intros Hne H Hq. apply py_div_Ok in Hq as [_ ->].
  destruct (py_sum_bounds l a b H) as [H1 H2].
  assert (Hpos : (0 < inject_Z (Z.of_nat (length l)))%Q).
  { destruct l; [contradiction|]. unfold Qlt. simpl. lia. }
  split.
  - apply Qle_shift_div_l; [exact Hpos|]. now rewrite Qmult_comm.
  - apply Qle_shift_div_r; [exact Hpos|]. now rewrite Qmult_comm.
Qed.

(** ** Latencies and probes *)

Lemma heads_app h a :
  heads (h ++ [a]) = (heads h + match a with HttpHead => 1 | _ => 0 end)%nat.
Proof.
  unfold heads. rewrite List.filter_app, length_app. destruct a; reflexivity.
Qed.

Section ProbeFacts.
Variable which : tool.
Variable num_threads : Z.
Variable test_duration : Q.

Local Abbreviation step := (step which num_threads test_duration).
Local Abbreviation exec := (exec which num_threads test_duration).

(** What a step of the caller or of a download thread leaves alone. *)
Lemma sampler_frame s e s' :
  step s e = Some s' -> (forall m, e <> Monitor m) ->
  (main s = MainStartMonitor -> monitor s = MonNotStarted) ->
  (monitor s' = monitor s \/ (monitor s = MonNotStarted /\ monitor s' = MonBegin)) /\
  download_speeds s' = download_speeds s /\ latencies s' = latencies s /\
  heads (history s') = heads (history s) /\
  ticks (history s') = ticks (history s) /\
  (main s' = MainStartMonitor -> monitor s' = MonNotStarted).
Proof.
  intros H Hm Hs. destruct e as [m|m|tid m]; [| now destruct (Hm m) |].
  - pose proof (main_step_leaves_start _ _ _ _ _ _ H) as Hleft.
    destruct (main_step_cases _ _ _ _ _ _ H)
      as [[pc ->]|[(Hz & _ & ->)|[(i & _ & _ & ->)|(_ & _ & ->)]]];
      simpl in *; rewrite ?heads_app, ?ticks_app, ?Nat.add_0_r;
      repeat split; auto; try contradiction.
  - unfold step, worker_step in H.
    destruct (workers s !! tid); [|discriminate].
    repeat case_match; simplify_eq; simpl;
      rewrite ?heads_app, ?ticks_app, ?Nat.add_0_r; repeat split; auto.
Qed.

Lemma latency_inv_step s e s' : latency_inv s -> step s e = Some s' -> latency_inv s'.
Proof.
  intros (Hs & Hnz & Hm) H. destruct e as [m|m|tid m].
  - destruct (sampler_frame _ _ _ H ltac:(discriminate) Hs)
      as (Hmon & Eds & El & _ & _ & Hs').
    unfold latency_inv. rewrite Eds, El. split; [exact Hs'|]. split; [exact Hnz|].
    destruct Hmon as [->|[E0 ->]]; [exact Hm|]. now rewrite E0 in Hm.
  - unfold step, monitor_step in H.
    destruct (monitor s) eqn:Em; destruct m; simplify_eq.
    + unfold latency_inv. simpl. split; [intros E; now apply Hs in E|]. auto.
    + unfold latency_inv. simpl. split; [intros E; now apply Hs in E|].
      split; [exact Hnz|]. destruct (running s); exact Hm.
    + cbv zeta in H. rewrite tick_speed_total in H.
      destruct (py_gt (now - last_time l) 0); simplify_eq;
        unfold latency_inv; simpl; (split; [intros E; now apply Hs in E|]); auto.
    + unfold latency_inv. simpl. split; [intros E; now apply Hs in E|].
      split; [exact Hnz|]. eauto.
    + match type of H with
      | context [tick_average ?a ?v] =>
          destruct (tick_average_total a v) as [q Hq]; rewrite Hq in H
      end.
      simplify_eq. destruct Hm as (older & Eds & Hsub).
      unfold latency_inv. destruct latency as [lat|]; simpl.
      * destruct (Qeq_bool lat 0) eqn:Ez; simpl.
        -- split; [intros E; now apply Hs in E|]. split; [exact Hnz|].
           rewrite Eds, map_app. now apply sublist_inserts_r.
        -- split; [intros E; now apply Hs in E|]. split.
           ++ apply Forall_app. split; [exact Hnz|].
              constructor; [|constructor]. simpl. now apply Qeq_bool_neq.
           ++ rewrite Eds, !map_app. simpl. apply sublist_app; [exact Hsub|].
              reflexivity.
      * split; [intros E; now apply Hs in E|]. split; [exact Hnz|].
        rewrite Eds, map_app. now apply sublist_inserts_r.
  - destruct (sampler_frame _ _ _ H ltac:(discriminate) Hs)
      as (Hmon & Eds & El & _ & _ & Hs').
    unfold latency_inv. rewrite Eds, El. split; [exact Hs'|]. split; [exact Hnz|].
    destruct Hmon as [->|[E0 ->]]; [exact Hm|]. now rewrite E0 in Hm.
Qed.

Lemma latency_inv_exec now sched s :
  exec (init now) sched = Some s -> latency_inv s.
Proof.
  apply (exec_invariant which num_threads test_duration latency_inv latency_inv_step).
  unfold latency_inv. simpl. split; [reflexivity|]. split; constructor.
Qed.

Lemma probe_inv_step s e s' : probe_inv s -> step s e = Some s' -> probe_inv s'.
Proof.
  intros (Hs & Hh & Ht) H. destruct e as [m|m|tid m].
  - destruct (sampler_frame _ _ _ H ltac:(discriminate) Hs)
      as (Hmon & Eds & _ & Eh & Et & Hs').
    unfold probe_inv. rewrite Eds, Eh, Et. split; [exact Hs'|].
    destruct Hmon as [->|[E0 ->]]; [auto|]. now rewrite E0 in Hh, Ht.
  - unfold step, monitor_step in H.
    destruct (monitor s) eqn:Em; destruct m; simplify_eq.
    + unfold probe_inv. simpl. split; [intros E; now apply Hs in E|]. auto.
    + unfold probe_inv. simpl. split; [intros E; now apply Hs in E|].
      destruct (running s); auto.
    + cbv zeta in H. rewrite tick_speed_total in H.
      destruct (py_gt (now - last_time l) 0); simplify_eq;
        unfold probe_inv; simpl; rewrite heads_app, ticks_app;
        (split; [intros E; now apply Hs in E|]); lia.
    + unfold probe_inv. simpl. rewrite length_app. simpl.
      split; [intros E; now apply Hs in E|]. lia.
    + match type of H with
      | context [tick_average ?a ?v] =>
          destruct (tick_average_total a v) as [q Hq]; rewrite Hq in H
      end.
      simplify_eq. unfold probe_inv.
      destruct (latency_truthy latency); simpl; rewrite heads_app, ticks_app;
        (split; [intros E; now apply Hs in E|]); simpl; lia.
  - destruct (sampler_frame _ _ _ H ltac:(discriminate) Hs)
      as (Hmon & Eds & _ & Eh & Et & Hs').
    unfold probe_inv. rewrite Eds, Eh, Et. split; [exact Hs'|].
    destruct Hmon as [->|[E0 ->]]; [auto|]. now rewrite E0 in Hh, Ht.
Qed.

Lemma probe_inv_exec now sched s :
  exec (init now) sched = Some s -> probe_inv s.
Proof.
  apply (exec_invariant which num_threads test_duration probe_inv probe_inv_step).
  unfold probe_inv. simpl. split; [reflexivity|]. split; lia.
Qed.
End ProbeFacts.

(** X3. No recorded latency is zero, and every latency carries the time
    stamp of a recorded throughput sample, in the same order: the stamps
    of [latencies] are those of [download_speeds] with some deleted, so
    there are never more latencies than samples. *)
Theorem latencies_follow_samples which num_threads test_duration now sched s :
  exec which num_threads test_duration (init now) sched = Some s ->
  Forall (fun x : sample => ~ (snd x == 0)%Q) (latencies s) /\
  sublist (map fst (latencies s)) (map fst (download_speeds s)) /\
  (length (latencies s) <= length (download_speeds s))%nat.
Proof.
  intros H. destruct (latency_inv_exec _ _ _ _ _ _ H) as (_ & Hnz & Hm).
  assert (Hsub : sublist (map fst (latencies s)) (map fst (download_speeds s))).
  { destruct (monitor s); try exact Hm.
    destruct Hm as (older & -> & Hsub). rewrite map_app.
    now apply sublist_inserts_r. }
  split; [exact Hnz|]. split; [exact Hsub|].
  apply sublist_length in Hsub. now rewrite !length_map in Hsub.
Qed.

Lemma latencies_follow_samples_witness :
  sublist (map fst (latencies (after Advanced 1 2 two_second_run)))
          (map fst (download_speeds (after Advanced 1 2 two_second_run))).
Proof.
  exact (proj1 (proj2 (latencies_follow_samples Advanced 1 2 0
                         (schedule two_second_run)
                         (after Advanced 1 2 two_second_run)
                         ltac:(vm_compute; reflexivity)))).
Defined.

(** X4. The sampler sends one HEAD request for each sample it records, after
    recording it: the samples number the requests sent, plus one while the
    request for the last sample is under way; and there are never more
    samples than iterations. *)
Theorem one_probe_per_sample which num_threads test_duration now sched s :
  exec which num_threads test_duration (init now) sched = Some s ->
  length (download_speeds s)
  = (heads (history s)
     + match monitor s with MonProbe _ _ => 1 | _ => 0 end)%nat /\
  (length (download_speeds s) <= ticks (history s))%nat.
Proof.
  intros H. destruct (probe_inv_exec _ _ _ _ _ _ H) as (_ & Hh & Ht).
  split; [exact Hh | lia].
Qed.

Lemma one_probe_per_sample_witness :
  let s := after Advanced 1 2 two_second_run in
  length (download_speeds s) = 2%nat /\ heads (history s) = 2%nat.
Proof.
  intros s.
  destruct (one_probe_per_sample Advanced 1 2 0 (schedule two_second_run) s
              ltac:(vm_compute; reflexivity)) as [H _].
  split; [reflexivity|]. change (monitor s) with MonExit in H.
  rewrite Nat.add_0_r in H. rewrite <- H. reflexivity.
Defined.

(** X5. A latency is recorded for an iteration exactly when the HEAD
    request returned with status 200 and the two clock readings around it
    differ; the value recorded is then their difference in milliseconds.
    A request that raises, another status, or a measurement of zero
    records nothing. *)
Theorem latency_recorded_iff
    which num_threads test_duration s l v start_time response end_time s' :
  monitor s = MonProbe l v ->
  step which num_threads test_duration s
       (Monitor (Probe (measure_latency start_time response end_time))) = Some s' ->
  (response = HeadStatus 200 /\ ~ (end_time == start_time)%Q /\
   latencies s' = latencies s ++ [(timestamp v, ((end_time - start_time) * 1000)%Q)])
  \/
  ((response <> HeadStatus 200 \/ (end_time == start_time)%Q) /\
   latencies s' = latencies s).
Proof.
  intros Hm H. unfold step, monitor_step in H. rewrite Hm in H.
  match type of H with
  | context [tick_average ?a ?v] =>
      destruct (tick_average_total a v) as [q Hq]; rewrite Hq in H
  end.
  simplify_eq. unfold measure_latency.
  destruct response as [|code]; [right; split; [left; discriminate | reflexivity]|].
  destruct (Z.eqb_spec code 200) as [->|Hne].
  - cbn [latency_truthy].
    destruct (Qeq_bool ((end_time - start_time) * 1000) 0) eqn:Ez; cbn [negb].
    + right. split; [|reflexivity]. right. apply Qeq_bool_eq in Ez.
      apply Qmult_integral in Ez as [Ez|Ez]; [|discriminate].
      rewrite <- (Qplus_0_l start_time), <- Ez. ring.
    + left. split; [reflexivity|]. split; [|reflexivity].
      apply Qeq_bool_neq in Ez. intros E. apply Ez. rewrite E. ring.
  - right. split; [|reflexivity]. left. congruence.
Qed.

(** After the first sample of [two_second_run], a request that takes one
    second records 1000 ms. *)
Lemma latency_recorded_iff_witness :
  let pre := take 10 (schedule two_second_run) in
  let s := after Advanced 1 2 (mkEnv 0 pre) in
  let s' := after Advanced 1 2
              (mkEnv 0 (pre ++ [Monitor (Probe (measure_latency 1 (HeadStatus 200) 2))])) in
  latencies s = [] /\ latencies s' = [(1, ((2 - 1) * 1000))%Q].
Proof.
  intros pre s s'.
  destruct (latency_recorded_iff Advanced 1 2 s (mkLocals 0 0)
              (mkTick 1 4096 (inject_Z (4096 - 0) / (1 - 0) / MiB) 1)
              1 (HeadStatus 200) 2 s'
              ltac:(vm_compute; reflexivity) ltac:(vm_compute; reflexivity))
    as [(_ & _ & H)|[[H|H] _]].
  - split; [reflexivity | exact H].
  - now destruct H.
  - vm_compute in H. discriminate.
Defined.

(** ** The statistics of a finished run *)

Lemma prefix_In {A : Type} (l l' : list A) x : l `prefix_of` l' -> In x l -> In x l'.
Proof. intros [k ->] H. apply in_app_iff. now left. Qed.

Lemma prefix_sublist_map {A B : Type} (f : A -> B) (l l' : list A) :
  l `prefix_of` l' -> sublist (map f l) (map f l').
Proof. intros [k ->]. rewrite map_app. now apply sublist_inserts_r. Qed.

Section ReturnFacts.
Variable which : tool.
Variable num_threads : Z.
Variable test_duration : Q.

Local Abbreviation step := (step which num_threads test_duration).
Local Abbreviation exec := (exec which num_threads test_duration).

(** The dictionary echoes the worker count. *)
Lemma returned_threads_exec now sched s r :
  exec (init now) sched = Some s -> main s = MainReturned r ->
  TestResult.threads r = num_threads.
Proof.
  intros Hs. revert r. revert Hs.
  apply (exec_invariant which num_threads test_duration
           (fun s => forall r, main s = MainReturned r ->
                               TestResult.threads r = num_threads)).
  - intros s0 e s1 Hi He r Hr. destruct e as [m|e|tid e].
    + unfold step, main_step in He.
      destruct (main s0) eqn:Em; destruct m; simplify_eq.
      all: try (destruct ok; simplify_eq; simpl in Hr; try discriminate Hr;
                unfold next_spawn in Hr; destruct (_ <? _)%Z; discriminate Hr).
      all: try (destruct (time_sleep test_duration); simplify_eq; simpl in Hr;
                discriminate Hr).
      all: try (destruct (averages test_duration s0); simplify_eq; simpl in Hr;
                discriminate Hr).
      destruct (build which num_threads test_duration g d s0) as [pc|] eqn:E;
          simplify_eq. simpl in Hr. subst pc.
      unfold build in E. destruct which.
      * injection E as E. unfold build_result in E.
        destruct g; repeat case_match; simplify_eq; reflexivity.
      * unfold build_report in E.
        destruct g; repeat case_match; simplify_eq.
    + destruct (other_step_frame _ _ _ _ _ _ He ltac:(discriminate)) as (Hm & _).
      rewrite Hm in Hr. auto.
    + destruct (other_step_frame _ _ _ _ _ _ He ltac:(discriminate)) as (Hm & _).
      rewrite Hm in Hr. auto.
  - intros r Hr. discriminate.
Qed.

(** The access to the deque that completes the report of [run_test]. *)
Lemma reported_split sched : forall s s' r,
  exec s sched = Some s' ->
  (forall r0, main s <> MainReported r0) ->
  main s' = MainReported r ->
  exists pre post s0 g d,
    sched = pre ++ Main Read :: post /\ exec s pre = Some s0 /\
    main s0 = MainBuild g d /\
    build which num_threads test_duration g d s0 = Some (MainReported r).
Proof.
  induction sched as [|e sched IH]; intros s s' r H Hn Hr; simpl in H.
  - simplify_eq. destruct (Hn _ Hr).
  - destruct (step s e) as [s1|] eqn:E;
      [|discriminate].
    destruct (main s1) as [| | | | | | |r1|] eqn:Em1.
    8: { assert (Hfin : main s' = main s1).
         { apply (final_exec which num_threads test_duration sched s1 s');
             [now rewrite Em1 | exact H]. }
         rewrite Hr, Em1 in Hfin. injection Hfin as <-.
         destruct e as [m|m|tid m].
         - unfold step, main_step in E.
           destruct (main s) eqn:Em; destruct m; simplify_eq.
           all: try (destruct ok; simplify_eq; simpl in Em1; try discriminate Em1;
                     unfold next_spawn in Em1; destruct (_ <? _)%Z;
                     discriminate Em1).
           all: try (destruct (time_sleep test_duration); simplify_eq;
                     simpl in Em1; discriminate Em1).
           all: try (destruct (averages test_duration s); simplify_eq;
                     simpl in Em1; discriminate Em1).
           destruct (build which num_threads test_duration g d s) as [pc|] eqn:Eb;
               simplify_eq. simpl in Em1. subst pc.
             exists [], sched, s, g, d. auto.
         - destruct (other_step_frame _ _ _ _ _ _ E ltac:(discriminate)) as (Hm & _).
           rewrite Em1 in Hm. symmetry in Hm. destruct (Hn _ Hm).
         - destruct (other_step_frame _ _ _ _ _ _ E ltac:(discriminate)) as (Hm & _).
           rewrite Em1 in Hm. symmetry in Hm. destruct (Hn _ Hm). }
    all: destruct (IH s1 s' r H ltac:(intros ?; rewrite Em1; discriminate) Hr)
           as (pre & post & s0 & g0 & d0 & -> & Hpre & Hm0 & Hb);
         exists (e :: pre), post, s0, g0, d0; simpl; rewrite E; auto.
Qed.

End ReturnFacts.

(** X2. In the result of [single_test], every speed of its sample list lies
    between [min_speed] and [max_speed]; each of the two is [0] or the
    speed of a sample that the sampler has recorded, and neither is
    negative. [avg_latency] is [0], or the sum of the latencies that the
    deque held at one moment divided by the number it held at a later
    one. *)
Theorem result_statistics_are_attained num_threads test_duration now sched s r :
  exec Advanced num_threads test_duration (init now) sched = Some s ->
  main s = MainReturned r ->
  (forall x, In x (TestResult.download_speeds r) ->
     (TestResult.min_speed r <= snd x <= TestResult.max_speed r)%Q) /\
  (TestResult.max_speed r = 0%Q \/
   In (TestResult.max_speed r) (map snd (download_speeds s))) /\
  (TestResult.min_speed r = 0%Q \/
   In (TestResult.min_speed r) (map snd (download_speeds s))) /\
  (0 <= TestResult.min_speed r)%Q /\ (0 <= TestResult.max_speed r)%Q /\
  (TestResult.avg_latency r = 0%Q \/
   exists l l',
     l <> [] /\ TestResult.latencies r `prefix_of` l /\ l `prefix_of` l' /\
     l' `prefix_of` latencies s /\
     TestResult.avg_latency r
     = (py_sum (map snd l) / inject_Z (Z.of_nat (length l')))%Q).
Proof.
  intros Hs Hm. pose proof (result_inv_exec _ _ _ _ _ Hs) as Hi.
  unfold result_inv in Hi. rewrite Hm in Hi.
  destruct Hi as (_ & _ & Hmax & Hmin & Hmean).
  destruct (sampler_inv_exec _ _ _ _ _ _ Hs) as (_ & Hpos & _).
  assert (Hnn : forall y, In y (map snd (download_speeds s)) -> (0 <= y)%Q).
  { intros y Hy. apply in_map_iff in Hy as (x & <- & Hx).
    rewrite List.Forall_forall in Hpos. now apply Hpos. }
  assert (Hmax' : (TestResult.max_speed r = 0%Q /\ TestResult.download_speeds r = []) \/
                  (In (TestResult.max_speed r) (map snd (download_speeds s)) /\
                   forall x, In x (TestResult.download_speeds r) ->
                             (snd x <= TestResult.max_speed r)%Q)).
  { destruct Hmax as [H|(l & Hc & Hl & Hmx)]; [now left|]. right.
    apply py_max_spec in Hmx as [Hin Hall]. split.
    - apply in_map_iff in Hin as (x & E & Hx). apply in_map_iff.
      exists x. split; [exact E|]. exact (prefix_In _ _ _ Hl Hx).
    - intros x Hx. apply Hall, in_map, (prefix_In _ _ _ Hc Hx). }
  assert (Hmin' : (TestResult.min_speed r = 0%Q /\ TestResult.download_speeds r = []) \/
                  (In (TestResult.min_speed r) (map snd (download_speeds s)) /\
                   forall x, In x (TestResult.download_speeds r) ->
                             (TestResult.min_speed r <= snd x)%Q)).
  { destruct Hmin as [H|(l & Hc & Hl & Hmx)]; [now left|]. right.
    apply py_min_spec in Hmx as [Hin Hall]. split.
    - apply in_map_iff in Hin as (x & E & Hx). apply in_map_iff.
      exists x. split; [exact E|]. exact (prefix_In _ _ _ Hl Hx).
    - intros x Hx. apply Hall, in_map, (prefix_In _ _ _ Hc Hx). }
  split; [|split; [|split; [|split; [|split]]]].
  - intros x Hx. split.
    + destruct Hmin' as [[_ E]|[_ H]]; [rewrite E in Hx; destruct Hx | auto].
    + destruct Hmax' as [[_ E]|[_ H]]; [rewrite E in Hx; destruct Hx | auto].
  - destruct Hmax' as [[E _]|[H _]]; auto.
  - destruct Hmin' as [[E _]|[H _]]; auto.
  - destruct Hmin' as [[E _]|[H _]]; [rewrite E; apply Qle_refl | auto].
  - destruct Hmax' as [[E _]|[H _]]; [rewrite E; apply Qle_refl | auto].
  - destruct Hmean as [[E _]|(l & l' & Hne & Hc & Hl & Hl' & Hd)]; [now left|].
    right. exists l, l'. apply py_div_Ok in Hd as [_ Hd]. auto 6.
Qed.

(** In [two_second_run] the dictionary holds one sample, and both speeds
    are the speed of that sample. *)
Lemma result_statistics_are_attained_witness :
  exists r,
    main (after Advanced 1 2 two_second_run) = MainReturned r /\
    forall x, In x (TestResult.download_speeds r) ->
      (TestResult.min_speed r <= snd x <= TestResult.max_speed r)%Q.
Proof.
  eexists. split; [vm_compute; reflexivity|].
  exact (proj1 (result_statistics_are_attained 1 2 0 (schedule two_second_run)
                  (after Advanced 1 2 two_second_run) _
                  ltac:(vm_compute; reflexivity) ltac:(vm_compute; reflexivity))).
Defined.

(** The greatest speed of a dictionary can lie below its least speed: in
    [sample_between_tests_run] the deque is empty when [max_speed] is
    computed and holds a sample when [min_speed] is. *)
Lemma maximum_below_minimum :
  exists r,
    single_test 1 1 sample_between_tests_run = Some (Ok r) /\
    TestResult.max_speed r = 0%Q /\ (TestResult.min_speed r == 1 # 256)%Q.
Proof.
  eexists. split; [vm_compute; reflexivity|]. split; reflexivity.
Qed.

(** X6. [run_test] prints latency statistics exactly when a latency had been
    recorded by the time it computes them; the least and greatest printed
    are recorded latencies, neither is zero, and the average printed lies
    between them. The deque is the one met by the last access that the
    caller makes to it. *)
Theorem summary_latency_statistics num_threads test_duration env r :
  run_test num_threads test_duration env = Some (Ok r) ->
  exists pre post s0,
    schedule env = pre ++ Main Read :: post /\
    exec Basic num_threads test_duration (init (clock env)) pre = Some s0 /\
    (Summary.latency_stats r = None <-> latencies s0 = []) /\
    forall avg lo hi,
      Summary.latency_stats r = Some (avg, lo, hi) ->
      In lo (map snd (latencies s0)) /\ In hi (map snd (latencies s0)) /\
      ~ (lo == 0)%Q /\ ~ (hi == 0)%Q /\ (lo <= avg <= hi)%Q.
Proof.
  unfold run_test. intros H.
  destruct (exec Basic num_threads test_duration (init (clock env)) (schedule env))
    as [s|] eqn:Hs; [|discriminate].
  destruct (main s) as [| | | | | | |r'|] eqn:Hm; simplify_eq.
  destruct (reported_split Basic num_threads test_duration (schedule env) _ s r
              Hs ltac:(discriminate) Hm)
    as (pre & post & s0 & g & d & Hsched & Hpre & Hm0 & Hb).
  exists pre, post, s0. split; [exact Hsched|]. split; [exact Hpre|].
  pose proof (main_inv_exec _ _ _ _ _ _ Hpre) as [_ Hi]. rewrite Hm0 in Hi.
  destruct Hi as (_ & _ & _ & Hg & _).
  destruct (latency_inv_exec _ _ _ _ _ _ Hpre) as (_ & Hnz & _).
  assert (Hnz' : forall x, In x (map snd (latencies s0)) -> ~ (x == 0)%Q).
  { intros x Hx. apply in_map_iff in Hx as (y & <- & Hy).
    rewrite List.Forall_forall in Hnz. now apply Hnz. }
  unfold build, build_report in Hb. destruct g; simplify_eq.
  - (* if self.latencies *)
    destruct (nonempty (latencies s0)) eqn:En; simplify_eq.
    apply nonempty_false in En. simpl. split; [tauto|]. intros; discriminate.
  - (* the statistics *)
    simpl in Hg.
    destruct (iterated_cases n (latencies s0)) as [[E _]|[E _]];
      rewrite E in Hb; cbn [bind] in Hb; [|discriminate]. cbv zeta in Hb.
    destruct (py_div _ _) as [avg|] eqn:Eavg in Hb; [|discriminate].
    cbn [bind] in Hb.
    destruct (py_min _) as [lo|] eqn:Elo in Hb; [|discriminate].
    cbn [bind] in Hb.
    destruct (py_max _) as [hi|] eqn:Ehi in Hb; [|discriminate].
    cbn [bind] in Hb. simplify_eq. simpl.
    split; [split; [discriminate | contradiction]|].
    intros avg' lo' hi' [= <- <- <-].
    apply py_min_spec in Elo as [Hlo1 Hlo2].
    apply py_max_spec in Ehi as [Hhi1 Hhi2].
    split; [exact Hlo1|]. split; [exact Hhi1|].
    split; [auto|]. split; [auto|].
    apply (mean_bounds (map snd (latencies s0))); auto.
    destruct (latencies s0); [contradiction | discriminate].
Qed.

Lemma summary_latency_statistics_witness :
  exists r avg lo hi,
    run_test 1 2 two_second_report = Some (Ok r) /\
    Summary.latency_stats r = Some (avg, lo, hi) /\ (lo <= avg <= hi)%Q.
Proof.
  eexists. eexists. eexists. eexists.
  split; [vm_compute; reflexivity|]. split; [reflexivity|].
  match goal with
  | |- (?lo <= ?avg <= ?hi)%Q =>
      destruct (summary_latency_statistics 1 2 two_second_report _
                  ltac:(vm_compute; reflexivity))
        as (pre & post & s0 & _ & _ & _ & H);
      exact (proj2 (proj2 (proj2 (proj2 (H avg lo hi eq_refl)))))
  end.
Defined.

(** The deque that the statistics are computed from is not the one of
    the moment when the averages are computed: in [late_latency_report] it
    is empty then, and a latency is printed. *)
Lemma statistics_of_a_late_latency :
  latencies (after Basic 0 1 (mkEnv 0 (take 6 (schedule late_latency_report)))) = [] /\
  (exists d,
     main (after Basic 0 1 (mkEnv 0 (take 6 (schedule late_latency_report))))
     = MainBuild LatTest d) /\
  exists r,
    run_test 0 1 late_latency_report = Some (Ok r) /\
    Summary.latency_stats r = Some (20 / inject_Z 1, 20, 20)%Q.
Proof.
  split; [vm_compute; reflexivity|].
  split; [eexists; vm_compute; reflexivity|].
  eexists. split; vm_compute; reflexivity.
Qed.

Lemma latency_stamps_exec which num_threads test_duration now sched s :
  exec which num_threads test_duration (init now) sched = Some s ->
  sublist (map fst (latencies s)) (map fst (download_speeds s)).
Proof.
  intros H. destruct (latency_inv_exec _ _ _ _ _ _ H) as (_ & _ & Hm).
  destruct (monitor s); try exact Hm.
  destruct Hm as (older & -> & Hsub). rewrite map_app.
  now apply sublist_inserts_r.
Qed.

(** X12. The dictionary returned by [single_test] echoes [num_threads] and
    [test_duration]. Its two lists are copies taken one after the other
    while the sampler, which nothing joins, may append: each is an initial
    segment of what the sampler holds in every later state, and the stamps
    of its latencies are stamps of recorded samples, in the same order. *)
Theorem result_lists_are_initial_segments num_threads test_duration now sched s r :
  exec Advanced num_threads test_duration (init now) sched = Some s ->
  main s = MainReturned r ->
  TestResult.threads r = num_threads /\
  TestResult.duration r = test_duration /\
  TestResult.download_speeds r `prefix_of` download_speeds s /\
  TestResult.latencies r `prefix_of` latencies s /\
  sublist (map fst (TestResult.latencies r)) (map fst (download_speeds s)).
Proof.
  intros Hs Hm.
  split; [exact (returned_threads_exec _ _ _ _ _ _ _ Hs Hm)|].
  pose proof (main_inv_exec _ _ _ _ _ _ Hs) as [_ Hi]. rewrite Hm in Hi.
  destruct Hi as (_ & _ & _ & bytes & _ & (Hd & _)).
  split; [exact Hd|].
  pose proof (result_inv_exec _ _ _ _ _ Hs) as Hr.
  unfold result_inv in Hr. rewrite Hm in Hr. destruct Hr as (A & B & _).
  split; [exact A|]. split; [exact B|].
  etransitivity; [exact (prefix_sublist_map fst _ _ B)|].
  exact (latency_stamps_exec _ _ _ _ _ _ Hs).
Qed.

(** In [two_second_run] the sampler appends a second sample after the
    dictionary was returned. *)
Lemma result_lists_are_initial_segments_witness :
  exists r,
    main (after Advanced 1 2 two_second_run) = MainReturned r /\
    TestResult.download_speeds r
      `prefix_of` download_speeds (after Advanced 1 2 two_second_run) /\
    length (TestResult.download_speeds r) = 1%nat /\
    length (download_speeds (after Advanced 1 2 two_second_run)) = 2%nat.
Proof.
  eexists. split; [vm_compute; reflexivity|].
  split; [|split; reflexivity].
  exact (proj1 (proj2 (proj2
           (result_lists_are_initial_segments 1 2 0 (schedule two_second_run)
              (after Advanced 1 2 two_second_run) _
              ltac:(vm_compute; reflexivity) ltac:(vm_compute; reflexivity))))).
Defined.

(** The dictionary is no snapshot of one state: in
    [sample_between_copies_run] it holds the latency of a sample that its
    own sample list lacks. *)
Lemma latency_without_its_sample :
  exists r,
    single_test 1 1 sample_between_copies_run = Some (Ok r) /\
    TestResult.download_speeds r = [] /\
    TestResult.latencies r = [(1%Q, 20%Q)].
Proof.
  eexists. split; [vm_compute; reflexivity|]. split; reflexivity.
Qed.

(** ** Download threads after [running] is cleared *)

Lemma pending_app ws pc : pending (ws ++ [pc]) = (pending ws + held pc)%Z.
Proof. induction ws as [|w ws IH]; simpl; lia. Qed.

Lemma pending_insert ws : forall i old pc,
  ws !! i = Some old ->
  pending (<[i := pc]> ws) = (pending ws - held old + held pc)%Z.
Proof.
  induction ws as [|w ws IH]; intros i old pc H; [discriminate|].
  destruct i as [|i]; simpl in *.
  - simplify_eq. lia.
  - rewrite (IH i old pc H). lia.
Qed.

Lemma pending_nonneg ws : (0 <= pending ws)%Z.
Proof. induction ws as [|w ws IH]; simpl; [lia|]. destruct w; simpl; lia. Qed.

Lemma requesting_app ws pc :
  requesting (ws ++ [pc]) = (requesting ws + about_to_request pc)%nat.
Proof. induction ws as [|w ws IH]; simpl; lia. Qed.

Lemma requesting_insert ws : forall i old pc,
  ws !! i = Some old ->
  (requesting (<[i := pc]> ws) + about_to_request old
   = requesting ws + about_to_request pc)%nat.
Proof.
  induction ws as [|w ws IH]; intros i old pc H; [discriminate|].
  destruct i as [|i]; simpl in *.
  - simplify_eq. lia.
  - specialize (IH i old pc H). lia.
Qed.

Lemma gets_app h a :
  gets (h ++ [a]) = (gets h + match a with HttpGet _ => 1 | _ => 0 end)%nat.
Proof.
  unfold gets. rewrite List.filter_app, length_app. destruct a; reflexivity.
Qed.

Section AfterCancellation.
Variable which : tool.
Variable num_threads : Z.
Variable test_duration : Q.

Local Abbreviation step := (step which num_threads test_duration).
Local Abbreviation exec := (exec which num_threads test_duration).

Lemma cancelled_step s e s' :
  running s = false -> step s e = Some s' ->
  running s' = false /\
  (total_bytes s' + pending (workers s') = total_bytes s + pending (workers s))%Z /\
  (gets (history s') + requesting (workers s')
   = gets (history s) + requesting (workers s))%nat.
Proof.
  intros Hr H. destruct e as [m|m|tid m].
  - destruct (main_step_cases _ _ _ _ _ _ H)
      as [[pc ->]|[(_ & _ & ->)|[(i & _ & _ & ->)|(_ & _ & ->)]]];
      simpl; rewrite ?pending_app, ?requesting_app, ?gets_app; simpl;
      repeat split; auto; lia.
  - unfold step, monitor_step in H.
    repeat case_match; simplify_eq; simpl; rewrite ?gets_app; simpl;
      repeat split; auto; lia.
  - unfold step, worker_step in H.
    destruct (workers s !! tid) as [pc|] eqn:Ew; [|discriminate].
    destruct pc; destruct m; simplify_eq;
      try (rewrite Hr in H; simpl in H; simplify_eq); simpl;
      rewrite ?Hr, ?gets_app, (pending_insert _ _ _ _ Ew); simpl;
      (split; [first [exact Hr | reflexivity]|]).
    all: match goal with
      | |- context [requesting (<[?i := ?p]> ?ws)] =>
          pose proof (requesting_insert ws i _ p Ew) as Hq
      end; simpl in Hq.
    all: try (split; lia).
    all: destruct ok; simpl in *; split; lia.
Qed.

Lemma cancelled_exec post : forall s s',
  running s = false -> exec s post = Some s' ->
  (total_bytes s' + pending (workers s') = total_bytes s + pending (workers s))%Z /\
  (gets (history s') + requesting (workers s')
   = gets (history s) + requesting (workers s))%nat.
Proof.
  induction post as [|e post IH]; intros s s' Hr H; simpl in H.
  - simplify_eq. auto.
  - destruct (step s e) as [s1|] eqn:E; [|discriminate].
    destruct (cancelled_step _ _ _ Hr E) as (Hr1 & Hb & Hg).
    destruct (IH s1 s' Hr1 H) as [Hb' Hg']. split; lia.
Qed.
End AfterCancellation.

(** X7. Once [running] is cleared, a download thread adds at most the chunk
    it had already accepted and sends at most the request it had already
    decided to send: whatever happens afterwards, the counter ends no
    higher than its value at cancellation plus the chunk lengths then held
    for the lock, and the GET requests number no more than those sent
    before plus the threads then about to send one. *)
Theorem overrun_after_cancellation_is_bounded
    which num_threads test_duration s post s' :
  running s = false ->
  exec which num_threads test_duration s post = Some s' ->
  (total_bytes s' + pending (workers s') = total_bytes s + pending (workers s))%Z /\
  (total_bytes s' <= total_bytes s + pending (workers s))%Z /\
  (gets (history s') <= gets (history s) + requesting (workers s))%nat.
Proof.
  intros Hr H.
  destruct (cancelled_exec which num_threads test_duration post s s' Hr H) as [Hb Hg].
  pose proof (pending_nonneg (workers s')). split; [exact Hb|]. split; lia.
Qed.

(** In [cancelled_before_add_run] the thread holds 8192 bytes when
    [running] is cleared; these are added, the next chunk is not. *)
Lemma overrun_after_cancellation_is_bounded_witness :
  let s := after Advanced 1 1 (mkEnv 0 (take 7 (schedule cancelled_before_add_run))) in
  let s' := after Advanced 1 1 cancelled_before_add_run in
  total_bytes s = 0%Z /\ pending (workers s) = 8192%Z /\
  (total_bytes s' <= total_bytes s + pending (workers s))%Z /\
  total_bytes s' = 8192%Z.
Proof.
  intros s s'.
  destruct (overrun_after_cancellation_is_bounded Advanced 1 1 s
              (drop 7 (schedule cancelled_before_add_run)) s'
              ltac:(vm_compute; reflexivity) ltac:(vm_compute; reflexivity))
    as (_ & H & _).
  split; [reflexivity|]. split; [reflexivity|]. split; [exact H | reflexivity].
Defined.

(** ** Thread starts *)

Lemma started_app h a :
  started (h ++ [a]) = started h ++ match a with Started t => [t] | _ => [] end.
Proof. unfold started. rewrite flat_map_app. simpl. now rewrite app_nil_r. Qed.

Lemma sampler_and_downloaders_S k :
  sampler_and_downloaders (S k) = sampler_and_downloaders k ++ [Downloader k].
Proof. unfold sampler_and_downloaders. rewrite seq_S, map_app. reflexivity. Qed.

Section StartFacts.
Variable which : tool.
Variable num_threads : Z.
Variable test_duration : Q.

Local Abbreviation step := (step which num_threads test_duration).
Local Abbreviation exec := (exec which num_threads test_duration).

Lemma start_inv_step s e s' :
  start_inv num_threads s -> step s e = Some s' -> start_inv num_threads s'.
Proof.
  intros (Hlen & Hno & Hyes & Hm) H. destruct e as [m|m|tid m].
  - unfold step, main_step in H.
    destruct (main s) eqn:Em; destruct m; simplify_eq.
    + destruct (Hno Hm) as [Hst Hw].
      destruct ok; simplify_eq; unfold start_inv; simpl.
      * rewrite Hw, started_app, Hst. simpl. split; [lia|].
        split; [discriminate|]. split; [reflexivity|].
        unfold next_spawn. destruct (Z.ltb_spec (Z.of_nat 0) num_threads) as [Hl|Hl];
          [repeat split; auto; discriminate | exact I].
      * auto.
    + destruct Hm as (-> & Hi & Hmon).
      destruct ok; simplify_eq; unfold start_inv; simpl.
      * rewrite length_app, started_app, (Hyes Hmon). simpl.
        replace (length (workers s) + 1)%nat with (S (length (workers s))) by lia.
        split; [lia|]. split; [intros E; contradiction|].
        split; [intros _; now rewrite sampler_and_downloaders_S|].
        unfold next_spawn.
        destruct (Z.ltb_spec (Z.of_nat (S (length (workers s)))) num_threads)
          as [Hl|Hl];
          [repeat split; auto | exact I].
      * auto.
    + destruct (time_sleep test_duration); simplify_eq; unfold start_inv; simpl; auto.
    + unfold start_inv. simpl. auto.
    + destruct (averages test_duration s); simplify_eq; unfold start_inv; simpl; auto.
    + destruct (build which num_threads test_duration g d s) as [pc|] eqn:E;
        simplify_eq. unfold start_inv. simpl.
      split; [exact Hlen|]. split; [exact Hno|]. split; [exact Hyes|].
      destruct (build_carried _ _ _ _ _ _ _ E) as [Hc|[x ->]]; [|exact I].
      destruct pc; try exact I; discriminate.
  - assert (Hmon : monitor s <> MonNotStarted /\ monitor s' <> MonNotStarted /\
                   workers s' = workers s /\ main s' = main s /\
                   started (history s') = started (history s)).
    { unfold step, monitor_step in H.
      repeat case_match; simplify_eq; simpl; rewrite ?started_app, ?app_nil_r;
        repeat split; congruence. }
    destruct Hmon as (H0 & H1 & Ew & Em & Es).
    unfold start_inv. rewrite Ew, Em, Es.
    split; [exact Hlen|]. split; [intros E; contradiction|].
    split; [intros _; auto|].
    destruct (main s); auto; try contradiction.
    destruct Hm as (? & ? & ?). auto.
  - assert (Hw : workers s <> [] /\ monitor s' = monitor s /\
                 length (workers s') = length (workers s) /\ main s' = main s /\
                 started (history s') = started (history s)).
    { unfold step, worker_step in H.
      destruct (workers s !! tid) eqn:Ew; [|discriminate].
      assert (workers s <> []) by (intros E; rewrite E in Ew; discriminate).
      repeat case_match; simplify_eq; simpl;
        rewrite ?started_app, ?app_nil_r, ?length_insert; repeat split; auto. }
    destruct Hw as (Hne & Emon & El & Em & Es).
    assert (H0 : monitor s <> MonNotStarted)
      by (intros E; destruct (Hno E) as [_ Hw]; contradiction).
    unfold start_inv. rewrite Emon, El, Em, Es.
    split; [exact Hlen|]. split; [intros E; contradiction|].
    split; [exact Hyes | exact Hm].
Qed.

Lemma start_inv_exec now sched s :
  exec (init now) sched = Some s -> start_inv num_threads s.
Proof.
  apply (exec_invariant which num_threads test_duration
           (start_inv num_threads) start_inv_step).
  unfold start_inv. simpl. split; [lia|]. repeat split; congruence.
Qed.
End StartFacts.

Lemma sampler_and_downloaders_NoDup k : NoDup (sampler_and_downloaders k).
Proof.
  unfold sampler_and_downloaders. apply NoDup_cons. split.
  - rewrite list_elem_of_In, in_map_iff. intros (i & Hi & _). discriminate.
  - induction k as [|k IH]; [constructor|].
    rewrite seq_S, map_app. simpl. apply NoDup_app. split; [exact IH|].
    split; [|apply NoDup_singleton].
    intros t Ht Hin. rewrite list_elem_of_In in Ht.
    apply in_map_iff in Ht as (i & <- & Hi). apply in_seq in Hi.
    apply list_elem_of_singleton in Hin. simplify_eq. lia.
Qed.

Lemma started_In h t : In (Started t) h -> In t (started h).
Proof.
  intros H. unfold started. apply in_flat_map. exists (Started t).
  split; [exact H | now left].
Qed.

(** X8. [single_test] and [run_test] start every thread once and in a fixed
    order: at any moment of a run the threads started so far are none, or
    the sampler followed by the download threads 0, 1, ..., k-1 with k at
    most [num_threads]; a run that reports a result has started the sampler
    and exactly the download threads of [range(num_threads)]. *)
Theorem threads_start_once_in_order which num_threads test_duration now sched s :
  exec which num_threads test_duration (init now) sched = Some s ->
  let k := length (workers s) in
  (k <= Z.to_nat num_threads)%nat /\
  (started (history s) = [] \/ started (history s) = sampler_and_downloaders k) /\
  NoDup (started (history s)) /\
  (forall a, reported_average (main s) = Some a ->
     k = Z.to_nat num_threads /\
     started (history s) = sampler_and_downloaders k).
Proof.
  intros H k.
  destruct (start_inv_exec which num_threads test_duration now sched s H)
    as (Hlen & Hno & Hyes & _).
  assert (Hcases : monitor s = MonNotStarted \/ monitor s <> MonNotStarted)
    by (destruct (monitor s); auto; right; discriminate).
  split; [exact Hlen|]. split; [|split].
  - destruct Hcases as [E|E]; [left; apply (Hno E) | right; apply (Hyes E)].
  - destruct Hcases as [E|E].
    + destruct (Hno E) as [-> _]. constructor.
    + rewrite (Hyes E). apply sampler_and_downloaders_NoDup.
  - intros a Ha.
    pose proof (main_inv_exec which num_threads test_duration now sched s H)
      as [_ Hi].
    assert (Hl : launched num_threads s).
    { destruct (main s); try discriminate; tauto. }
    destruct Hl as [Hin Hk]. split; [exact Hk|].
    destruct Hcases as [E|E]; [|apply (Hyes E)].
    destruct (Hno E) as [Hs _]. apply started_In in Hin.
    rewrite Hs in Hin. inversion Hin.
Qed.

Lemma threads_start_once_in_order_witness :
  let s := after Advanced 1 2 two_second_run in
  (started (history s) = [] \/
   started (history s) = sampler_and_downloaders (length (workers s))) /\
  NoDup (started (history s)).
Proof.
  intros s.
  destruct (threads_start_once_in_order Advanced 1 2 0 (schedule two_second_run)
              s ltac:(vm_compute; reflexivity)) as (_ & H1 & H2 & _).
  split; [exact H1 | exact H2].
Defined.


(** ** The [running] flag *)

Section FlagFacts.
Variable which : tool.
Variable num_threads : Z.
Variable test_duration : Q.

Local Abbreviation step := (step which num_threads test_duration).
Local Abbreviation exec := (exec which num_threads test_duration).
Local Abbreviation main_inv := (main_inv num_threads test_duration).

(** Only [running = False] changes the flag. *)
Lemma running_step s e s' :
  step s e = Some s' ->
  (running s' = false <-> running s = false \/ e = Main Stop).
Proof.
  intros H. destruct e as [m|m|tid m].
  - destruct (main_step_cases _ _ _ _ _ _ H)
      as [[pc ->]|[(_ & -> & ->)|[(i & _ & -> & ->)|(_ & -> & ->)]]]; simpl.
    + split; [auto|]. intros [Hr|Hd]; [exact Hr|]. injection Hd as ->.
      unfold step, main_step in H.
      destruct (main s); try discriminate.
      assert (E : running (set_main MainStats (set_running false s))
                  = running (set_main pc s)) by congruence.
      simpl in E. auto.
    + split; [auto|]. intros [Hr|Hd]; [exact Hr | discriminate].
    + split; [auto|]. intros [Hr|Hd]; [exact Hr | discriminate].
    + split; auto.
  - destruct (other_step_frame _ _ _ _ _ _ H ltac:(discriminate)) as (_ & -> & _).
    split; [auto|]. intros [Hr|Hd]; [exact Hr | discriminate].
  - destruct (other_step_frame _ _ _ _ _ _ H ltac:(discriminate)) as (_ & -> & _).
    split; [auto|]. intros [Hr|Hd]; [exact Hr | discriminate].
Qed.

Lemma running_exec sched : forall s s',
  exec s sched = Some s' ->
  (running s' = false <-> running s = false \/ In (Main Stop) sched).
Proof.
  induction sched as [|e sched IH]; intros s s' H; simpl in H.
  - simplify_eq. simpl. tauto.
  - destruct (step s e) as [s1|] eqn:E; [|discriminate].
    rewrite (IH s1 s' H), (running_step _ _ _ E). simpl.
    split; [intros [[Hr|He]|Hin] | intros [Hr|[He|Hin]]]; auto.
Qed.

Lemma flag_inv_step s e s' :
  main_inv s -> flag_inv s -> step s e = Some s' -> flag_inv s'.
Proof.
  intros [_ Hi] (Hr & Hm & Hw) H. destruct e as [m|m|tid m].
  - unfold step, main_step in H.
    destruct (main s) eqn:Em; destruct m; simplify_eq.
    + destruct ok; simplify_eq; unfold flag_inv; simpl.
      * split; [unfold next_spawn; destruct (_ <? _)%Z; exact Hr|].
        split; [discriminate | exact Hw].
      * split; [discriminate|]. auto.
    + destruct ok; simplify_eq; unfold flag_inv; simpl.
      * split; [unfold next_spawn; destruct (_ <? _)%Z; exact Hr|].
        split; [exact Hm|]. intros j Hj.
        apply lookup_app_Some in Hj as [Hj|[_ Hj]]; [eauto|].
        destruct (j - length (workers s))%nat; simpl in Hj; simplify_eq.
      * split; [discriminate|]. auto.
    + destruct (time_sleep_cases test_duration) as [[E _]|[[E _]|[E _]]];
        rewrite E in H; simplify_eq; unfold flag_inv; simpl; auto.
    + unfold flag_inv. simpl. split; [intros b [= <-]; reflexivity|]. auto.
    + simpl in Hr. specialize (Hr false eq_refl).
      destruct (averages_cases test_duration s) as [[_ E]|[_ (dr & E & _)]];
        rewrite E in H; simplify_eq; unfold flag_inv; simpl;
        (split; [intros b [= <-]; exact Hr | auto]).
    + simpl in Hr. specialize (Hr false eq_refl).
      destruct Hi as (_ & _ & _ & Hg & bytes & _ & Hdr).
      destruct (build which num_threads test_duration g d s) as [pc|] eqn:E;
        simplify_eq.
      pose proof (build_inv _ _ _ _ _ _ _ _ Hg Hdr E) as Hpc.
      unfold flag_inv. simpl. split; [|auto].
      destruct pc; try contradiction; try (intros b [= <-]; exact Hr).
      subst e. discriminate.
  - clear Hi.
    assert (E : main s' = main s /\ running s' = running s /\
                workers s' = workers s /\
                (monitor s' = MonExit ->
                 monitor s = MonExit \/ running s = false)).
    { unfold step, monitor_step in H.
      repeat case_match; simplify_eq; simpl; repeat split; auto; discriminate. }
    destruct E as (E1 & E2 & E3 & E4). unfold flag_inv. rewrite E1, E2, E3.
    split; [exact Hr|]. split; [|exact Hw].
    intros Hx. destruct (E4 Hx); auto.
  - clear Hi.
    assert (E : main s' = main s /\ running s' = running s /\
                monitor s' = monitor s /\
                (forall i, workers s' !! i = Some WExit ->
                 workers s !! i = Some WExit \/ running s = false)).
    { unfold step, worker_step in H.
      destruct (workers s !! tid) eqn:Ew; [|discriminate].
      assert (Hlt : (tid < length (workers s))%nat)
        by (apply lookup_lt_is_Some; eauto).
      assert (Hins : forall p i, <[tid:=p]> (workers s) !! i = Some WExit ->
                p = WExit \/ workers s !! i = Some WExit).
      { intros p i Hi'. destruct (decide (tid = i)) as [->|Hne].
        - rewrite list_lookup_insert_eq in Hi' by exact Hlt. left. congruence.
        - rewrite list_lookup_insert_ne in Hi' by exact Hne. now right. }
      repeat case_match; simplify_eq; simpl; repeat split; auto;
        intros i Hi'; apply Hins in Hi' as [Hi'|Hi']; auto; discriminate. }
    destruct E as (E1 & E2 & E3 & E4). unfold flag_inv. rewrite E1, E2, E3.
    split; [exact Hr|]. split; [exact Hm|].
    intros i Hi'. destruct (E4 i Hi'); eauto.
Qed.

Lemma flag_inv_exec now sched s :
  exec (init now) sched = Some s -> flag_inv s.
Proof.
  intros Hs.
  enough (H : main_inv s /\ flag_inv s) by tauto.
  revert Hs.
  apply (exec_invariant which num_threads test_duration
           (fun s => main_inv s /\ flag_inv s)).
  - intros s0 e s1 [Hi Hf] He.
    split; [exact (main_inv_step _ _ _ _ _ _ Hi He)|].
    exact (flag_inv_step _ _ _ Hi Hf He).
  - split; [apply main_inv_init|].
    unfold flag_inv. simpl. split; [intros b [= <-]; reflexivity|].
    split; [discriminate|].
    intros i Hi. rewrite lookup_nil in Hi. discriminate.
Qed.

(** A caller that has raised stays where it is, and so does the flag. *)
Lemma raised_exec x post : forall s s',
  main s = MainRaised x -> exec s post = Some s' ->
  main s' = MainRaised x /\ running s' = running s.
Proof.
  induction post as [|e post IH]; intros s s' Hm H; simpl in H.
  - simplify_eq. auto.
  - destruct (step s e) as [s1|] eqn:E; [|discriminate].
    assert (H1 : main s1 = MainRaised x /\ running s1 = running s).
    { destruct e as [m|m|tid m].
      - unfold step, main_step in E. rewrite Hm in E. destruct m; discriminate.
      - destruct (other_step_frame _ _ _ _ _ _ E ltac:(discriminate))
          as (-> & -> & _). auto.
      - destruct (other_step_frame _ _ _ _ _ _ E ltac:(discriminate))
          as (-> & -> & _). auto. }
    destruct H1 as [H1 H2]. destruct (IH s1 s' H1 H) as [H3 H4].
    split; [exact H3 | congruence].
Qed.
End FlagFacts.

(** X9. [running] is false exactly when the caller has executed
    [running = False], and a thread has left its loop only then. The
    control point of the caller tells the flag: it is true up to that
    statement and after a failure of [time.sleep], false from the final
    statistics on and after the division by a duration of zero. *)
Theorem threads_leave_only_after_cancellation
    which num_threads test_duration now sched s :
  exec which num_threads test_duration (init now) sched = Some s ->
  (running s = false <-> In (Main Stop) sched) /\
  (forall b, running_at (main s) = Some b -> running s = b) /\
  (monitor s = MonExit -> In (Main Stop) sched) /\
  (forall thread_id,
     workers s !! thread_id = Some WExit -> In (Main Stop) sched).
Proof.
  intros H.
  destruct (flag_inv_exec which num_threads test_duration now sched s H)
    as (Hr & Hm & Hw).
  pose proof (running_exec which num_threads test_duration sched _ _ H) as E.
  simpl in E.
  assert (E' : running s = false <-> In (Main Stop) sched).
  { rewrite E. split; [intros [Hd|Hin]; [discriminate | exact Hin] | auto]. }
  split; [exact E'|]. split; [exact Hr|]. split.
  - intros Hx. apply E'. auto.
  - intros i Hi. apply E'. eauto.
Qed.

Lemma threads_leave_only_after_cancellation_witness :
  running (after Advanced 1 2 two_second_run) = false /\
  monitor (after Advanced 1 2 two_second_run) = MonExit /\
  In (Main Stop) (schedule two_second_run).
Proof.
  destruct (threads_leave_only_after_cancellation Advanced 1 2 0
              (schedule two_second_run) (after Advanced 1 2 two_second_run)
              ltac:(vm_compute; reflexivity)) as (E & _ & Hx & _).
  split; [reflexivity|]. split; [reflexivity|]. apply Hx. reflexivity.
Defined.

(** X10. A run that raises before [running = False] (a [Thread.start] that
    fails, or [time.sleep] refusing the duration) leaves [running] true for
    ever: whatever the threads already started do afterwards, none of them
    leaves its loop. *)
Theorem threads_outlive_a_failed_run
    which num_threads test_duration now sched s x post s' :
  exec which num_threads test_duration (init now) sched = Some s ->
  main s = MainRaised x ->
  x = ValueError \/ x = OverflowError \/
  (x = RuntimeError /\ ~ In (Main Stop) sched) ->
  exec which num_threads test_duration s post = Some s' ->
  running s' = true /\
  monitor s' <> MonExit /\
  forall thread_id, workers s' !! thread_id <> Some WExit.
Proof.
  intros H Hm Hx Hpost.
  destruct (flag_inv_exec which num_threads test_duration now sched s H)
    as (Hr & _ & _).
  assert (Hrun : running s = true).
  { rewrite Hm in Hr. destruct Hx as [->|[->|[-> Hn]]];
      [apply Hr; reflexivity | apply Hr; reflexivity |].
    pose proof (running_exec which num_threads test_duration sched _ _ H) as E.
    simpl in E. destruct (running s); [reflexivity|].
    destruct Hn. destruct (proj1 E eq_refl) as [Hd|Hin];
      [discriminate | exact Hin]. }
  destruct (raised_exec which num_threads test_duration x post s s' Hm Hpost)
    as [_ Hsame].
  rewrite Hrun in Hsame.
  assert (Hs' : exec which num_threads test_duration (init now) (sched ++ post)
                = Some s') by (rewrite exec_app, H; exact Hpost).
  destruct (flag_inv_exec which num_threads test_duration now _ s' Hs')
    as (_ & Hmon & Hw).
  split; [exact Hsame|]. split.
  - intros E. rewrite (Hmon E) in Hsame. discriminate.
  - intros i E. rewrite (Hw i E) in Hsame. discriminate.
Qed.

(** In [failing_run] the start of the first download thread fails; the
    sampler, started before, goes on to its sleep. *)
Lemma threads_outlive_a_failed_run_witness :
  let s := after Advanced 1 1 failing_run in
  let s' := after Advanced 1 1
              (mkEnv 0 (schedule failing_run ++ [Monitor (Begin 0); Monitor Test])) in
  main s = MainRaised RuntimeError /\ running s' = true.
Proof.
  intros s s'. split; [reflexivity|].
  refine (proj1
    (threads_outlive_a_failed_run Advanced 1 1 0 (schedule failing_run) s
       RuntimeError [Monitor (Begin 0); Monitor Test] s'
       ltac:(vm_compute; reflexivity) ltac:(vm_compute; reflexivity)
       _ ltac:(vm_compute; reflexivity))).
  right. right. split; [reflexivity|].
  intros [E|[E|[]]]; discriminate.
Defined.

(** A run can also raise after [running = False]: in [mutated_deque_run]
    the caller raises [RuntimeError] with the flag cleared, and in
    [zero_length_run] [ZeroDivisionError]. *)
Lemma raised_after_cancellation :
  main (after Advanced 1 2 mutated_deque_run) = MainRaised RuntimeError /\
  running (after Advanced 1 2 mutated_deque_run) = false /\
  main (after Advanced 1 0 zero_length_run) = MainRaised ZeroDivisionError /\
  running (after Advanced 1 0 zero_length_run) = false.
Proof. repeat split; vm_compute; reflexivity. Qed.

(** ** Samples only grow *)

(** X11. The two sequences of a run only grow at their end: whatever the
    threads do, the samples and latencies of an earlier state are an
    initial segment of those of any later state. *)
Theorem samples_are_only_appended which num_threads test_duration s sched s' :
  exec which num_threads test_duration s sched = Some s' ->
  download_speeds s `prefix_of` download_speeds s' /\
  latencies s `prefix_of` latencies s'.
Proof. apply appended_exec. Qed.

Lemma samples_are_only_appended_witness :
  download_speeds (after Advanced 1 2 (mkEnv 0 (take 10 (schedule two_second_run))))
  `prefix_of` download_speeds (after Advanced 1 2 two_second_run).
Proof.
  exact (proj1 (samples_are_only_appended Advanced 1 2
                  (after Advanced 1 2 (mkEnv 0 (take 10 (schedule two_second_run))))
                  (drop 10 (schedule two_second_run))
                  (after Advanced 1 2 two_second_run)
                  ltac:(vm_compute; reflexivity))).
Defined.

(** ** The sweep: termination *)

Section SweepTermination.
Variable max_test_threads : Z.
Variable step : Z.
Variable test_duration : Q.
Variable env : nat -> run_env.

Local Abbreviation sub_run := (sub_run step test_duration env).
Local Abbreviation points_upto := (points_upto step test_duration env).
Local Abbreviation consistent := (consistent step test_duration env).
Local Abbreviation sweep_loop := (sweep_loop max_test_threads step test_duration env).

(** More fuel does not change what the loop does. *)
Lemma sweep_loop_fuel fuel : forall st out fuel',
  sweep_loop fuel st = Some out -> (fuel <= fuel')%nat ->
  sweep_loop fuel' st = Some out.
Proof.
  induction fuel as [|fuel IH]; intros st out fuel' H Hle; [discriminate|].
  destruct fuel' as [|fuel']; [lia|].
  cbn [sweep_loop] in *.
  destruct (current_threads st <=? max_test_threads)%Z; [|exact H].
  destruct (single_test _ _ _) as [[r|e]|]; [|exact H|discriminate].
  destruct (degradation _ _); [exact H|].
  apply (IH _ _ fuel' H). lia.
Qed.

(** With a positive step the loop stops within [count_upto] iterations,
    provided that each sub-run it starts comes to an end. *)
Lemma sweep_loop_total m : forall k st fuel,
  (0 < step)%Z ->
  consistent k st ->
  (k + m = count_upto max_test_threads step)%nat ->
  (m < fuel)%nat ->
  (forall i, (k <= i < k + m)%nat -> sub_run i <> None) ->
  exists out, sweep_loop fuel st = Some out.
Proof.
  induction m as [|m IH]; intros k st fuel Hstep Hc Hk Hfuel Hruns;
    (destruct fuel as [|fuel]; [lia|]); rewrite (sweep_loop_step _ _ _ _ k st fuel Hc).
  - destruct (Z.leb_spec (worker_count step k) max_test_threads) as [Hle|Hgt];
      [|eauto].
    apply (count_upto_spec max_test_threads step k Hstep) in Hle. lia.
  - destruct (Z.leb_spec (worker_count step k) max_test_threads) as [Hle|Hgt];
      [|eauto].
    destruct (sub_run k) as [[r|e]|] eqn:Hrun; [|eauto|].
    + cbv zeta. destruct (degradation _ _); [eauto|].
      destruct (record_point_consistent _ _ _ k st r (Testing (worker_count step k))
                  Hc Hrun) as (_ & _ & Hc').
      apply (IH (S k)); auto; try lia.
      intros i Hi. apply Hruns. lia.
    + exfalso. apply (Hruns k); [lia | exact Hrun].
Qed.
End SweepTermination.

(** X13. With a positive step the sweep terminates: if each sub-run that it
    starts comes to an end (returns or raises), the sweep returns after at
    most [count_upto] sub-runs, whichever way its loop is left. Every
    worker count it has recorded lies between 1 and [max_test_threads], so
    does the count it returns unless nothing was recorded (then it is 1),
    and further fuel does not change the outcome. *)
Theorem sweep_terminates max_test_threads step test_duration env fuel :
  (0 < step)%Z ->
  (forall i, (i < count_upto max_test_threads step)%nat ->
     sub_run step test_duration env i <> None) ->
  (count_upto max_test_threads step < fuel)%nat ->
  exists r,
    find_max_concurrent_connections max_test_threads step test_duration env fuel
      = Some r /\
    (length (fst (charted r)) <= count_upto max_test_threads step)%nat /\
    Forall (fun p => (1 <= Point.threads p <= max_test_threads)%Z)
           (fst (charted r)) /\
    (fst (charted r) = [] -> fst (returned r) = 1%Z) /\
    (fst (charted r) <> [] -> (1 <= fst (returned r) <= max_test_threads)%Z) /\
    forall fuel', (fuel <= fuel')%nat ->
      find_max_concurrent_connections max_test_threads step test_duration env fuel'
        = Some r.
Proof.
  intros Hstep Hruns Hfuel.
  set (n := count_upto max_test_threads step) in *.
  destruct (sweep_loop_total max_test_threads step test_duration env n
              0 sweep_start fuel Hstep (consistent_start step test_duration env)
              eq_refl Hfuel) as [[how st] Hloop].
  { intros i Hi. apply Hruns. lia. }
  assert (Hfind : forall fuel', (fuel <= fuel')%nat ->
            find_max_concurrent_connections max_test_threads step test_duration
              env fuel'
            = Some (mkOutcome (max_connections st, best_speed st)
                              (concurrent_results st, max_connections st)
                              (printed st) how)).
  { intros fuel' Hle. unfold find_max_concurrent_connections.
    now rewrite (sweep_loop_fuel _ _ _ _ fuel _ _ fuel' Hloop Hle). }
  eexists. split; [apply Hfind; lia|].
  destruct (find_max_sound _ _ _ _ _ _ (Hfind fuel ltac:(lia)))
    as (k & Hpts & Hret & Hok & _).
  cbn [charted returned fst snd] in *.
  assert (Hk : forall i, (i < k)%nat -> (i < n)%nat).
  { intros i Hi. apply (count_upto_spec max_test_threads step i Hstep).
    apply (Hok i Hi). }
  assert (Hkn : (k <= n)%nat).
  { destruct k as [|k]; [lia|]. specialize (Hk k ltac:(lia)). lia. }
  split; [rewrite Hpts, points_upto_length; exact Hkn|].
  split.
  { rewrite Hpts. apply List.Forall_forall. intros p Hp.
    apply In_points_upto in Hp as (i & Hi & ->). cbn [Point.threads].
    split; [unfold worker_count; nia | apply (Hok i Hi)]. }
  destruct (best_after_points step test_duration env k)
    as (_ & _ & H0 & Hpos).
  apply (f_equal fst) in Hret. cbn [fst] in Hret.
  split; [|split; [|exact Hfind]].
  - intros E. rewrite Hpts in E.
    assert (k = 0%nat) as ->
      by (rewrite <- (points_upto_length step test_duration env k), E; reflexivity).
    rewrite Hret, (H0 eq_refl). reflexivity.
  - intros E. rewrite Hpts in E.
    assert (0 < k)%nat as Hk0 by (destruct k; [now destruct E | lia]).
    destruct (Hpos Hk0) as (i & Hi & Hfst & _).
    rewrite Hret, Hfst. split; [unfold worker_count; nia | apply (Hok i Hi)].
Qed.

(** The sweep over 10, 8 and 6 MB/s with [max_test_threads = 50] stops for
    degradation after three of the five counts up to 50. *)
Lemma sweep_terminates_witness :
  exists r,
    find_max_concurrent_connections 50 10 1 (synthetic 10 [10; 8; 6]%nat) 6
      = Some r /\
    (length (fst (charted r)) <= 5)%nat /\
    Forall (fun p => (1 <= Point.threads p <= 50)%Z) (fst (charted r)).
Proof.
  destruct (sweep_terminates 50 10 1 (synthetic 10 [10; 8; 6]%nat) 6
              ltac:(lia)) as (r & H1 & H2 & H3 & _).
  - intros i Hi. change (count_upto 50 10) with 5%nat in Hi.
    do 5 (destruct i as [|i]; [intros H; vm_compute in H; discriminate H|]).
    lia.
  - vm_compute. lia.
  - exists r. auto.
Defined.

(** X14. A step of 0 or less is not refused, and with it (and at least one
    count to test) the loop test never fails: a sweep that returns has left
    its loop through one of its two [break]s, and as long as the sub-runs
    return without the degradation test, computed on doubles as the
    program computes it, firing, the sweep does not return, however many
    of them have run. *)
Theorem nonpositive_step_never_exhausts max_test_threads step test_duration env :
  (step <= 0)%Z -> (1 <= max_test_threads)%Z ->
  (forall fuel r,
     find_max_concurrent_connections max_test_threads step test_duration env fuel
       = Some r ->
     left_by r <> Exhausted) /\
  (forall n,
     (forall i, (i < n)%nat ->
        exists x, sub_run step test_duration env i = Some (Ok x)) ->
     (forall j, (0 < j <= n)%nat ->
        degradation (points_upto step test_duration env j)
          (snd (best_after (points_upto step test_duration env j))) = false) ->
     forall fuel, (fuel <= n)%nat ->
       find_max_concurrent_connections max_test_threads step test_duration env fuel
         = None).
Proof.
  intros Hstep Hmax.
  assert (Hcount : forall i, (worker_count step i <= max_test_threads)%Z)
    by (intros i; unfold worker_count; nia).
  split.
  - intros fuel r H E.
    destruct (find_max_sound _ _ _ _ _ _ H) as (k & _ & _ & _ & Hhow).
    rewrite E in Hhow. destruct Hhow as [_ Hgt].
    specialize (Hcount k). lia.
  - intros n Hruns Hdeg fuel Hfuel.
    destruct (sweep_loop_forward max_test_threads step test_duration env fuel
                0 sweep_start 0 (consistent_start step test_duration env))
      as (st' & _ & Hloop).
    + intros i Hi. split; [apply Hcount | apply Hruns; lia].
    + intros j Hj. apply Hdeg. lia.
    + unfold find_max_concurrent_connections.
      rewrite Nat.add_0_r in Hloop. rewrite Hloop. reflexivity.
Qed.

(** With a step of 0 every sub-run has one worker; three sub-runs at
    5 MB/s leave the sweep where it started. *)
Lemma nonpositive_step_never_exhausts_witness :
  find_max_concurrent_connections 5 0 1 (fun _ => run_at 1 5) 3 = None.
Proof.
  refine (proj2 (nonpositive_step_never_exhausts 5 0 1 (fun _ => run_at 1 5)
                   ltac:(lia) ltac:(lia)) 3%nat _ _ 3%nat ltac:(lia)).
  - intros i Hi.
    destruct i as [|[|[|i]]]; [eexists; vm_compute; reflexivity .. | lia].
  - intros j Hj.
    destruct j as [|[|[|[|j]]]]; [lia | vm_compute; reflexivity .. | lia].
Defined.

(** ** The chart of a sweep *)

Lemma fge_trans a b c : fge a b = true -> fge b c = true -> fge a c = true.
Proof.
  rewrite !fge_iff. intros (Ha & Hb & Hab) (_ & Hc & Hbc).
  split; [exact Ha|]. split; [exact Hc|]. intros Hac.
  destruct (below_total (key b) (key c)) as [H|[H|H]]; [contradiction| |].
  - rewrite H in Hab. contradiction.
  - destruct Hab. exact (below_trans _ _ _ Hac H).
Qed.

Lemma fgt_fge a b : fgt a b = true -> fge a b = true.
Proof.
  rewrite fgt_iff, fge_iff. intros (Ha & Hb & Hab).
  split; [exact Ha|]. split; [exact Hb|]. intros H.
  exact (below_irrefl _ (below_trans _ _ _ H Hab)).
Qed.

Lemma feq_sym a b : feq a b = true -> feq b a = true.
Proof. rewrite !feq_iff. intros (Ha & Hb & E). auto. Qed.

Lemma feq_trans a b c : feq a b = true -> feq b c = true -> feq a c = true.
Proof.
  rewrite !feq_iff. intros (Ha & Hb & E1) (_ & Hc & E2).
  split; [exact Ha|]. split; [exact Hc|]. congruence.
Qed.

Lemma py_fmax_fold l : forall x,
  number x -> (forall y, In y l -> number y) ->
  let m := fold_left (fun m y => if fgt y m then y else m) l x in
  In m (x :: l) /\ fge m x = true /\ forall y, In y l -> fge m y = true.
Proof.
  induction l as [|a l IH]; intros x Hx Hl; simpl.
  - split; [auto|]. split; [now apply fge_refl | tauto].
  - assert (Ha : number a) by (apply Hl; now left).
    assert (Hl' : forall y, In y l -> number y) by (intros y Hy; apply Hl; now right).
    destruct (fgt a x) eqn:E.
    + destruct (IH a Ha Hl') as (Hin & Hle & Hall).
      split; [simpl in Hin; tauto|].
      split; [exact (fge_trans _ _ _ Hle (fgt_fge _ _ E))|].
      intros y [<-|Hy]; auto.
    + destruct (IH x Hx Hl') as (Hin & Hle & Hall).
      split; [simpl in Hin; tauto|]. split; [exact Hle|].
      intros y [<-|Hy]; [|auto].
      exact (fge_trans _ _ _ Hle (fgt_false_fge _ _ Ha Hx E)).
Qed.

(** [max(l)] on numbers is an element of [l] that no element exceeds. *)
Lemma py_fmax_spec l m :
  (forall y, In y l -> number y) ->
  py_fmax l = Ok m -> In m l /\ forall y, In y l -> fge m y = true.
Proof.
  destruct l as [|x l]; [discriminate|]. intros Hl [= <-].
  destruct (py_fmax_fold l x) as (Hin & Hle & Hall).
  - apply Hl. now left.
  - intros y Hy. apply Hl. now right.
  - split; [exact Hin|]. intros y [<-|Hy]; auto.
Qed.

(** X15. The chart drawn by a sweep agrees with what the sweep returns.
    [create_concurrent_chart] never raises; it draws nothing exactly when no
    point was recorded; otherwise its vertical marker is the returned
    worker count, its horizontal marker [max(speeds)] equals the returned
    best speed, and the crossing of the two markers is one of the plotted
    points. *)
Theorem chart_marks_the_returned_pair
    max_test_threads step test_duration env fuel r :
  find_max_concurrent_connections max_test_threads step test_duration env fuel
    = Some r ->
  exists c,
    create_concurrent_chart (fst (charted r)) (snd (charted r)) = Ok c /\
    (c = None <-> fst (charted r) = []) /\
    forall ch, c = Some ch ->
      Chart.threads ch = map Point.threads (fst (charted r)) /\
      Chart.speeds ch = map Point.speed (fst (charted r)) /\
      Chart.axvline ch = fst (returned r) /\
      feq (Chart.axhline ch) (snd (returned r)) = true /\
      exists p, In p (fst (charted r)) /\
                Point.threads p = Chart.axvline ch /\
                feq (Point.speed p) (Chart.axhline ch) = true.
Proof.
  intros H.
  destruct (find_max_sound _ _ _ _ _ _ H) as (k & Hpts & Hret & _).
  destruct (find_max_inv _ _ _ _ _ _ H) as (how & st & _ & Hr).
  assert (Hv : snd (charted r) = fst (returned r)) by (rewrite Hr; reflexivity).
  destruct (best_after_points step test_duration env k) as (_ & Hall & _ & Hex).
  rewrite <- Hret in Hall, Hex.
  unfold create_concurrent_chart.
  destruct (fst (charted r)) as [|p0 pts] eqn:E; cbn [nonempty negb].
  - exists None. split; [reflexivity|]. split; [tauto | discriminate].
  - assert (Hk : (0 < k)%nat).
    { destruct k; [discriminate Hpts | lia]. }
    assert (Hnum : forall y, In y (map Point.speed (p0 :: pts)) -> number y).
    { intros y Hy. apply in_map_iff in Hy as (p & <- & Hp). rewrite Hpts in Hp.
      apply In_points_upto in Hp as (i & _ & ->). apply sub_speed_number. }
    destruct (py_fmax (map Point.speed (p0 :: pts))) as [m|x] eqn:Em;
      [|discriminate].
    cbn [bind]. eexists. split; [reflexivity|].
    split; [split; discriminate|].
    intros ch [= <-]. cbn [Chart.threads Chart.speeds Chart.axvline Chart.axhline].
    destruct (py_fmax_spec _ _ Hnum Em) as [Hin Hge].
    apply in_map_iff in Hin as (pm & <- & Hpm).
    destruct (Hex Hk) as (i & Hi & Hfst & Hsp & _).
    set (p := Point.mk (worker_count step i) (sub_speed step test_duration env i)).
    assert (Hp : In p (p0 :: pts))
      by (rewrite Hpts; apply In_points_upto; exists i; auto).
    assert (Heq : feq (Point.speed pm) (snd (returned r)) = true).
    { apply fge_antisym.
      - apply (fge_trans _ (Point.speed p)); [apply Hge, in_map, Hp|].
        exact (proj1 (feq_fge _ _ Hsp)).
      - rewrite Hpts in Hpm. apply In_points_upto in Hpm as (j & Hj & ->).
        apply Hall, Hj. }
    split; [reflexivity|]. split; [reflexivity|]. split; [exact Hv|].
    split; [exact Heq|].
    exists p. split; [exact Hp|]. split; [now rewrite Hv|].
    exact (feq_trans _ _ _ Hsp (feq_sym _ _ Heq)).
Qed.

(** The chart of the sweep over 10, 8 and 6 MB/s marks 1 worker. *)
Lemma chart_marks_the_returned_pair_witness :
  exists r c,
    find_max_concurrent_connections 200 10 1 (synthetic 10 [10; 8; 6]%nat) 3
      = Some r /\
    create_concurrent_chart (fst (charted r)) (snd (charted r)) = Ok c /\
    (c = None <-> fst (charted r) = []).
Proof.
  destruct (find_max_concurrent_connections 200 10 1
              (synthetic 10 [10; 8; 6]%nat) 3) as [r|] eqn:E;
    [|vm_compute in E; discriminate].
  destruct (chart_marks_the_returned_pair 200 10 1 (synthetic 10 [10; 8; 6]%nat)
              3 r E) as (c & Hc & Hn & _).
  exists r, c. auto.
Defined.
